(** * ARUM banner pipeline: a shallow embedding and its properties

    The development follows [src/transformers.py] (class [BannerTransformer]
    and the presets of [StylePresets]), the route [generate_banner] of
    [src/app.py] and the colour helper of [src/helpers.py].

    Python values are embedded as follows.
    - [int] is [Z]; [float] is the kernel's binary64 [float], so that the
      arithmetic of the source ([int(255 * opacity)], the interpolation of
      colour channels) is evaluated exactly as CPython evaluates it.
    - [str] is [string], read as ASCII text.
    - a dict literal whose iteration order is observable is an association
      list; the JSON object of a request is a [gmap].
    - a raised exception is the left summand of [res]; code that also
      creates images or draws random numbers lives in the monad [M].

    Pillow and NumPy are not part of the repository.  The routines whose
    pixel arithmetic the properties below depend on ([Image.new],
    [ImageDraw.point], [ImageDraw.rectangle] with a fill,
    [Image.alpha_composite], [putalpha], [convert], [np.linspace]) are
    written out after the libraries' implementation; the filters
    ([GaussianBlur], [ImageEnhance.Brightness], [paste], an outlined
    rectangle) are parameters of a section, constrained only by the size
    contract their documentation states. *)

From Stdlib Require Import ZArith QArith Floats String Ascii List Lia.
From stdpp Require Import base option list list_numbers strings gmap.

Set Warnings "-inexact-float,-register-all".
Local Open Scope Z_scope.

(* ===================================================================== *)
(** * The Python run time *)
(* ===================================================================== *)

Module Py.

(** Exceptions.  [ValueError] is the class the route answers with status
    400; every other class is answered with status 500.  [IllTyped] marks
    a dynamic value outside the annotated type of a parameter: what
    CPython does with it is not modelled. *)
Inductive exn :=
| ValueError (msg : string)
| TypeError (msg : string)
| AttributeError (msg : string)
| KeyError (key : string)
| IndexError
| OverflowError
| IllTyped (param : string).

Definition res (A : Type) : Type := (exn + A)%type.

Definition ret {A} (a : A) : res A := inr a.
Definition raise {A} (e : exn) : res A := inl e.
Definition bind {A B} (m : res A) (k : A -> res B) : res B :=
  match m with
  | inl e => inl e
  | inr a => k a
  end.

#[global] Instance res_ret : MRet res := @ret.
#[global] Instance res_bind : MBind res := fun A B k m => bind m k.

(** A monadic left fold: the body of a [for] loop threaded over the
    iterated list, leaving at the first exception. *)
Fixpoint for_ {A S} (l : list A) (body : S -> A -> res S) (s : S) : res S :=
  match l with
  | [] => ret s
  | a :: l' => bind (body s a) (for_ l' body)
  end.

(** Dynamic values: what a JSON request and the preset dictionaries hold. *)
Inductive pyval :=
| PNone
| PBool (b : bool)
| PInt (z : Z)
| PFloat (f : float)
| PStr (s : string)
| PTuple (items : list pyval)
| PList (items : list pyval)
| PDict (entries : list (string * pyval))
| PObject (repr : string).

Definition pydict := list (string * pyval).

(** [d.get(key)] and [key in d] on an insertion-ordered dict. *)
Fixpoint dict_get (key : string) (d : pydict) : option pyval :=
  match d with
  | [] => None
  | (k, v) :: d' => if String.eqb k key then Some v else dict_get key d'
  end.

Definition dict_get_default (key : string) (dflt : pyval) (d : pydict) : pyval :=
  match dict_get key d with
  | Some v => v
  | None => dflt
  end.

(** [d[key]] *)
Definition dict_item (key : string) (d : pydict) : res pyval :=
  match dict_get key d with
  | Some v => ret v
  | None => raise (KeyError key)
  end.

(** ** Floats *)

(** An [int] operand of float arithmetic is converted exactly (the
    integers met here are far below 2^53). *)
Definition float_of_Z (z : Z) : float :=
  let m := PrimFloat.of_uint63 (Uint63.of_Z (Z.abs z)) in
  if z <? 0 then PrimFloat.opp m else m.

(** [int(x)] for a float [x]: truncation toward zero; NaN and the
    infinities raise. *)
Definition int_of_float (x : float) : res Z :=
  match Prim2SF x with
  | S754_zero _ => ret 0
  | S754_finite s m e =>
      let v := if 0 <=? e then Z.shiftl (Zpos m) e else Z.shiftr (Zpos m) (- e) in
      ret (if s then - v else v)
  | S754_infinity _ => raise OverflowError
  | S754_nan => raise (ValueError "cannot convert float NaN to integer")
  end.

(** The rational a finite float denotes. *)
Definition Qpow2 (e : Z) : Q :=
  if 0 <=? e then inject_Z (2 ^ e) else Qinv (inject_Z (2 ^ (- e))).

Definition float_value (x : float) : option Q :=
  match Prim2SF x with
  | S754_zero _ => Some 0%Q
  | S754_finite s m e =>
      let q := (inject_Z (Zpos m) * Qpow2 e)%Q in
      Some (if s then Qopp q else q)
  | _ => None
  end.

(** [round(x)] with one argument: the nearest integer, ties to even. *)
Definition round_float (x : float) : res Z :=
  match Prim2SF x with
  | S754_zero _ => ret 0
  | S754_finite s m e =>
      let v :=
        if 0 <=? e then Z.shiftl (Zpos m) e
        else
          let d := 2 ^ (- e) in
          let q := Zpos m / d in
          let r := Zpos m mod d in
          if 2 * r <? d then q
          else if d <? 2 * r then q + 1
          else if Z.even q then q else q + 1 in
      ret (if s then - v else v)
  | S754_infinity _ => raise OverflowError
  | S754_nan => raise (ValueError "cannot convert float NaN to integer")
  end.

(** ** [int(s, base)] on text *)

Definition is_space (c : ascii) : bool :=
  let n := Z.of_nat (nat_of_ascii c) in
  ((9 <=? n) && (n <=? 13)) || ((28 <=? n) && (n <=? 32)).

Fixpoint lstrip (s : string) : string :=
  match s with
  | String c s' => if is_space c then lstrip s' else s
  | EmptyString => s
  end.

Definition string_rev (s : string) : string :=
  string_of_list_ascii (rev (list_ascii_of_string s)).

Definition strip (s : string) : string :=
  string_rev (lstrip (string_rev (lstrip s))).

Definition digit_value (c : ascii) : option Z :=
  let n := Z.of_nat (nat_of_ascii c) in
  if (48 <=? n) && (n <=? 57) then Some (n - 48)
  else if (97 <=? n) && (n <=? 122) then Some (n - 87)
  else if (65 <=? n) && (n <=? 90) then Some (n - 55)
  else None.

Definition is_underscore (c : ascii) : bool := Ascii.eqb c "_"%char.

(** Digits of [base], single underscores allowed between two digits and
    right after a base prefix.  [acc] is the value read so far,
    [underscore_ok] whether an underscore may come next, [after_digit]
    whether the previous character was a digit (a literal must end so). *)
Fixpoint digits (base : Z) (s : string) (acc : Z) (underscore_ok after_digit : bool)
  : option Z :=
  match s with
  | EmptyString => if after_digit then Some acc else None
  | String c s' =>
      if is_underscore c then
        if underscore_ok then digits base s' acc false false else None
      else
        match digit_value c with
        | Some d => if d <? base then digits base s' (base * acc + d) true true else None
        | None => None
        end
  end.

Definition strip_prefix16 (s : string) : string * bool :=
  match s with
  | String "0" (String "x" s') => (s', true)
  | String "0" (String "X" s') => (s', true)
  | _ => (s, false)
  end.

Definition unsigned_literal (base : Z) (s : string) : option Z :=
  if base =? 16 then
    let '(body, prefixed) := strip_prefix16 s in
    digits base body 0 prefixed false
  else digits base s 0 false false.

Definition int_of_str (base : Z) (s : string) : res Z :=
  let t := strip s in
  let parsed :=
    match t with
    | String "-" t' => option_map Z.opp (unsigned_literal base t')
    | String "+" t' => unsigned_literal base t'
    | _ => unsigned_literal base t
    end in
  match parsed with
  | Some z => ret z
  | None => raise (ValueError ("invalid literal for int(): " ++ s))
  end.

(** [int(v)] on a dynamic value. *)
Definition int_ (v : pyval) : res Z :=
  match v with
  | PInt z => ret z
  | PBool b => ret (if b then 1 else 0)
  | PFloat f => int_of_float f
  | PStr s => int_of_str 10 s
  | _ => raise (TypeError "int() argument must be a string or a real number")
  end.

(** [s[i:i+2]] *)
Definition slice2 (s : string) (i : nat) : string := substring i 2 s.

End Py.

(* ===================================================================== *)
(** * NumPy: the arrays of [apply_gradient] and [apply_texture] *)
(* ===================================================================== *)

Module Np.
Import Py.

(** A two-dimensional array: its shape and its cells.  Transposition and
    tiling are views, as in NumPy. *)
Record ndarray (A : Type) := Ndarray { nrows : Z; ncols : Z; cell : Z -> Z -> A }.
Arguments Ndarray {A}.
Arguments nrows {A}.
Arguments ncols {A}.
Arguments cell {A}.

(** [a[y, x]]; a negative index counts from the end. *)
Definition index (n i : Z) : res Z :=
  if (0 <=? i) && (i <? n) then ret i
  else if (- n <=? i) && (i <? 0) then ret (i + n)
  else raise IndexError.

Definition getitem {A} (a : ndarray A) (y x : Z) : res A :=
  i ← index (nrows a) y;
  j ← index (ncols a) x;
  mret (cell a i j).

(** The cells in row-major order. *)
Definition ravel {A} (a : ndarray A) : list A :=
  i ← seqZ 0 (nrows a); (λ j, cell a i j) <$> seqZ 0 (ncols a).

(** [np.linspace(0, 1, num)], after [numpy/_core/function_base.py]:
    [arange(0, num) * step + start] with [step = (stop - start) / (num - 1)],
    the last sample overwritten with [stop]; with a single sample the
    step is undefined and the sample is [0 * (stop - start) + start]. *)
Definition linspace01 (num : Z) : res (list float) :=
  if num <? 0 then raise (ValueError "Number of samples must be non-negative.")
  else
    let div := num - 1 in
    let delta := (1 - 0)%float in
    let y := float_of_Z <$> seqZ 0 num in
    let y :=
      if 0 <? div then
        let step := (delta / float_of_Z div)%float in
        if PrimFloat.eqb step 0 then (λ v, (v / float_of_Z div * delta)%float) <$> y
        else (λ v, (v * step)%float) <$> y
      else (λ v, (v * delta)%float) <$> y in
    let y := (λ v, (v + 0)%float) <$> y in
    mret (if 1 <? num then <[Z.to_nat (num - 1) := 1%float]> y else y).

(** [np.tile(v, (reps, 1))]: [reps] copies of the row [v]. *)
Definition tile (v : list float) (reps : Z) : ndarray float :=
  Ndarray (Z.max 0 reps) (Z.of_nat (length v)) (λ _ j, nth (Z.to_nat j) v 0%float).

(** [a.T] *)
Definition T {A} (a : ndarray A) : ndarray A :=
  Ndarray (ncols a) (nrows a) (λ i j, cell a j i).

(** [np.clip(x, 0, 255)] and [astype(np.uint8)] on one cell.  The cast of
    a value that is not finite is left unspecified by NumPy; it is read
    as 0 here. *)
Definition clip (lo hi x : float) : float :=
  if PrimFloat.ltb x lo then lo else if PrimFloat.ltb hi x then hi else x.

Definition astype_uint8 (x : float) : Z :=
  match int_of_float x with
  | inr z => z mod 256
  | inl _ => 0
  end.

End Np.

(* ===================================================================== *)
(** * Pillow: images and the drawing and compositing primitives *)
(* ===================================================================== *)

Module PIL.
Import Py.

Inductive Mode := L | RGBA.

(** One RGBA pixel, and the pixel store of an image in row-major order:
    pixel [(x, y)] of an image of width [w] is entry [y * w + x]. *)
Definition rgba : Type := Z * Z * Z * Z.

Inductive raster :=
| Lum (px : list Z)
| Rgba (px : list rgba).

Record Image := mkImage { size : Z * Z; data : raster }.

Definition mode (im : Image) : Mode :=
  match data im with
  | Lum _ => L
  | Rgba _ => RGBA
  end.

Definition npixels (im : Image) : nat :=
  match data im with
  | Lum px => length px
  | Rgba px => length px
  end.

(** The pixel store has one entry per pixel. *)
Definition wf (im : Image) : Prop :=
  0 <= fst (size im) /\ 0 <= snd (size im) /\
  Z.of_nat (npixels im) = fst (size im) * snd (size im).

Definition offset (w x y : Z) : nat := Z.to_nat (y * w + x).

(** [CLIP8] of [ImagingUtils.h], applied to each band of an ink. *)
Definition clip8 (v : Z) : Z := if v <=? 0 then 0 else if v <? 256 then v else 255.

Definition getink (c : rgba) : rgba :=
  let '(r, g, b, a) := c in (clip8 r, clip8 g, clip8 b, clip8 a).

Definition check_size (sz : Z * Z) : res unit :=
  if (fst sz <? 0) || (snd sz <? 0)
  then raise (ValueError "Width and height must be >= 0")
  else ret tt.

(** [Image.new('RGBA', size, color)]; without a colour the fill is 0,
    which is the ink [(0, 0, 0, 0)]. *)
Definition new_RGBA (sz : Z * Z) (color : rgba) : res Image :=
  _ ← check_size sz;
  mret (mkImage sz (Rgba (replicate (Z.to_nat (fst sz * snd sz)) (getink color)))).

(** [Image.new('L', size)] *)
Definition new_L (sz : Z * Z) : res Image :=
  _ ← check_size sz;
  mret (mkImage sz (Lum (replicate (Z.to_nat (fst sz * snd sz)) 0))).

Definition inside (im : Image) (x y : Z) : bool :=
  (0 <=? x) && (x <? fst (size im)) && (0 <=? y) && (y <? snd (size im)).

(** [ImageDraw.Draw(im).point((x, y), fill=ink)]: the pixel is stored as
    it is (no blending on an RGBA image); a point outside is dropped. *)
Definition draw_point (im : Image) (x y : Z) (ink : rgba) : res Image :=
  match data im with
  | Rgba px =>
      if inside im x y
      then ret (mkImage (size im) (Rgba (<[offset (fst (size im)) x y := getink ink]> px)))
      else ret im
  | Lum _ => raise (TypeError "color must be int or single-element tuple")
  end.

(** [ImageDraw.Draw(im).rectangle([(x0, y0), (x1, y1)], fill=ink)]: every
    pixel of the image inside the closed box is stored as [ink]. *)
Definition draw_rectangle_fill (im : Image) (x0 y0 x1 y1 : Z) (ink : rgba) : res Image :=
  if x1 <? x0 then raise (ValueError "x1 must be greater than or equal to x0")
  else if y1 <? y0 then raise (ValueError "y1 must be greater than or equal to y0")
  else
    match data im with
    | Rgba px =>
        let w := fst (size im) in
        let paint (i : nat) (p : rgba) :=
          let x := Z.of_nat i mod w in
          let y := Z.of_nat i / w in
          if (x0 <=? x) && (x <=? x1) && (y0 <=? y) && (y <=? y1) then getink ink else p in
        ret (mkImage (size im) (Rgba (imap paint px)))
    | Lum _ => raise (TypeError "color must be int or single-element tuple")
    end.

(** [pixels = im.load(); pixels[x, y] = v] on an image of mode L. *)
Definition putpixel_L (im : Image) (x y v : Z) : res Image :=
  match data im with
  | Lum px =>
      if inside im x y
      then ret (mkImage (size im) (Lum (<[offset (fst (size im)) x y := clip8 v]> px)))
      else raise IndexError
  | Rgba _ => raise (TypeError "color must be int, or tuple of one, three or four elements")
  end.

(** ** [Image.alpha_composite], after [AlphaComposite.c] *)

Definition u32 (v : Z) : Z := v mod 2 ^ 32.
Definition u8 (v : Z) : Z := v mod 2 ^ 8.

(** [SHIFTFORDIV255(a)] is [((a >> 8) + a) >> 8]. *)
Definition shift_for_div255 (a : Z) : Z := Z.shiftr (u32 (Z.shiftr a 8 + a)) 8.

Definition PRECISION_BITS : Z := 7.

(** One pixel of [src] over one pixel of [dst]. *)
Definition composite_pixel (dst src : rgba) : rgba :=
  let '(dr, dg, db, da) := dst in
  let '(sr, sg, sb, sa) := src in
  if sa =? 0 then dst
  else
    let blend := u32 (da * (255 - sa)) in
    let outa255 := u32 (sa * 255 + blend) in
    let coef1 := u32 (sa * 255 * 255 * Z.shiftl 1 PRECISION_BITS) / outa255 in
    let coef2 := u32 (255 * Z.shiftl 1 PRECISION_BITS - coef1) in
    let band (s d : Z) :=
      u8 (Z.shiftr
            (shift_for_div255 (u32 (u32 (s * coef1 + d * coef2) + Z.shiftl 128 PRECISION_BITS)))
            PRECISION_BITS) in
    (band sr dr, band sg dg, band sb db, u8 (shift_for_div255 (u32 (outa255 + 128)))).

(** [Image.alpha_composite(im1, im2)] composites [im2] over [im1]: the
    second argument is the top operand.  Both must be RGBA images of one
    size. *)
Definition alpha_composite (im1 im2 : Image) : res Image :=
  match data im1, data im2 with
  | Rgba dst, Rgba src =>
      if decide (size im1 = size im2)
      then ret (mkImage (size im1) (Rgba (zip_with composite_pixel dst src)))
      else raise (ValueError "images do not match")
  | Rgba _, Lum _ => raise (ValueError "images do not match")
  | Lum _, _ => raise (ValueError "image has wrong mode")
  end.

(** [im.convert('RGBA')] *)
Definition convert_RGBA (im : Image) : Image :=
  match data im with
  | Lum px => mkImage (size im) (Rgba ((λ l, (l, l, l, 255)) <$> px))
  | Rgba px => im
  end.

(** [im.putalpha(alpha)] with an integer, on an RGBA image: the band is
    filled with [CLIP8(alpha)]; the integer has to fit a C [int]. *)
Definition putalpha (im : Image) (alpha : Z) : res Image :=
  if (alpha <? - 2 ^ 31) || (2 ^ 31 <=? alpha) then raise OverflowError
  else
    match data im with
    | Rgba px =>
        ret (mkImage (size im) (Rgba ((λ p : rgba, let '(r, g, b, _) := p in (r, g, b, clip8 alpha)) <$> px)))
    | Lum _ => raise (IllTyped "putalpha on an image of mode L")
    end.

(** [Image.fromarray(a, 'L')] for an array of bytes of shape (rows, columns). *)
Definition fromarray_L (a : Np.ndarray Z) : Image :=
  mkImage (Np.ncols a, Np.nrows a) (Lum (Np.ravel a)).

(** [list(im.getdata())] on an RGBA image. *)
Definition getdata (im : Image) : res (list rgba) :=
  match data im with
  | Rgba px => ret px
  | Lum _ => raise (TypeError "cannot unpack non-iterable int object")
  end.

(** [im.putdata(pixels)] on an RGBA image: the pixels are stored from the
    first on. *)
Definition putdata (im : Image) (pixels : list rgba) : res Image :=
  match data im with
  | Rgba px =>
      if (length px <? length pixels)%nat then raise (TypeError "too many data entries")
      else ret (mkImage (size im) (Rgba ((getink <$> pixels) ++ drop (length pixels) px)))
  | Lum _ => raise (TypeError "color must be int or single-element tuple")
  end.

End PIL.

(* ===================================================================== *)
(** * The world of one request: images created, random draws *)
(* ===================================================================== *)

Module World.
Import Py PIL.

(** [created] lists the images allocated so far, oldest first, by mode and
    size.  The generators of [random] and [numpy.random] are an arbitrary
    stream of integers ([rand_int]) and of standard normal samples
    ([rand_norm]); [rand_pos] counts the samples consumed. *)
Record world := mkWorld {
  created : list (Mode * (Z * Z));
  rand_int : nat -> Z;
  rand_norm : nat -> float;
  rand_pos : nat
}.

Definition M (A : Type) : Type := world -> res A * world.

#[global] Instance M_ret : MRet M := fun A a w => (inr a, w).
#[global] Instance M_bind : MBind M := fun A B k m w =>
  match m w with
  | (inl e, w') => (inl e, w')
  | (inr a, w') => k a w'
  end.

Definition lift {A} (r : res A) : M A := fun w => (r, w).

Definition allocate (im : Image) (w : world) : world :=
  mkWorld (created w ++ [(mode im, size im)]) (rand_int w) (rand_norm w) (rand_pos w).

(** A Pillow call that returns a new image records it. *)
Definition creating (r : res Image) : M Image := fun w =>
  match r with
  | inr im => (inr im, allocate im w)
  | inl e => (inl e, w)
  end.

Fixpoint forM {A S} (l : list A) (body : S -> A -> M S) (s : S) : M S :=
  match l with
  | [] => mret s
  | a :: l' => s' ← body s a; forM l' body s'
  end.

Definition advance (n : nat) (w : world) : world :=
  mkWorld (created w) (rand_int w) (rand_norm w) (rand_pos w + n).

(** [np.random.randint(low, high, (rows, cols), dtype=np.uint8)]: every
    cell is drawn from [low, high). *)
Definition np_random_randint (low high rows cols : Z) : M (Np.ndarray Z) := fun w =>
  if high <=? low then (inl (ValueError "low >= high"), w)
  else
    let draw (i j : Z) := low + rand_int w (rand_pos w + Z.to_nat (i * cols + j)) mod (high - low) in
    (inr (Np.Ndarray (Z.max 0 rows) (Z.max 0 cols) draw),
     advance (Z.to_nat (rows * cols)) w).

(** [np.random.normal(loc, scale, (rows, cols))] *)
Definition np_random_normal (loc scale : float) (rows cols : Z) : M (Np.ndarray float) := fun w =>
  let draw (i j : Z) := (loc + scale * rand_norm w (rand_pos w + Z.to_nat (i * cols + j)))%float in
  (inr (Np.Ndarray (Z.max 0 rows) (Z.max 0 cols) draw),
   advance (Z.to_nat (rows * cols)) w).

(** [random.randint(a, b)]: drawn from [a, b], both ends included. *)
Definition random_randint (a b : Z) : M Z := fun w =>
  if b <? a then (inl (ValueError "empty range for randrange()"), w)
  else (inr (a + rand_int w (rand_pos w) mod (b - a + 1)), advance 1 w).

End World.

(* ===================================================================== *)
(** * [src/transformers.py]: class [BannerTransformer] *)
(* ===================================================================== *)

Module Transformers.
Import Py PIL World.

(** The Pillow filters the class calls and whose pixel arithmetic is left
    open: [im.filter(ImageFilter.GaussianBlur(radius))],
    [ImageEnhance.Brightness(im).enhance(factor)], [dst.paste(src, offset)]
    (the destination after the call) and
    [ImageDraw.Draw(im).rectangle(box, outline=ink, width=width)]. *)
Class Filters := {
  GaussianBlur : Z -> Image -> res Image;
  Brightness_enhance : float -> Image -> res Image;
  paste : Image -> Image -> Z * Z -> res Image;
  draw_rectangle_outline : Image -> Z -> Z -> Z -> Z -> rgba -> Z -> res Image
}.

(** What Pillow documents of them: the result has the mode, the size and
    the pixel count of the image filtered (of the destination, for
    [paste]). *)
Definition same_shape (im im' : Image) : Prop :=
  mode im' = mode im /\ size im' = size im /\ npixels im' = npixels im.

Record filters_keep_shape (F : Filters) : Prop := {
  GaussianBlur_shape : forall r im im', GaussianBlur r im = inr im' -> same_shape im im';
  Brightness_shape : forall f im im', Brightness_enhance f im = inr im' -> same_shape im im';
  paste_shape : forall dst src off dst', paste dst src off = inr dst' -> same_shape dst dst';
  outline_shape : forall im x0 y0 x1 y1 ink wd im',
    draw_rectangle_outline im x0 y0 x1 y1 ink wd = inr im' -> same_shape im im'
}.

Record BannerTransformer := mkTransformer { image : Image; width : Z; height : Z }.

(** [BannerTransformer(image)] *)
Definition __init__ (im : Image) : BannerTransformer :=
  mkTransformer im (fst (size im)) (snd (size im)).

Definition set_image (t : BannerTransformer) (im : Image) : BannerTransformer :=
  mkTransformer im (width t) (height t).

Definition get_image (t : BannerTransformer) : Image := image t.

(** [tuple(int(color[i:i+2], 16) for i in (1, 3, 5))] *)
Definition hex_rgb (color : string) : res (Z * Z * Z) :=
  r ← int_of_str 16 (slice2 color 1);
  g ← int_of_str 16 (slice2 color 3);
  b ← int_of_str 16 (slice2 color 5);
  mret (r, g, b).

(** [int(start * (1 - factor) + end * factor)] *)
Definition gradient_channel (start_ end_ : Z) (factor : float) : res Z :=
  int_of_float (float_of_Z start_ * (1 - factor) + float_of_Z end_ * factor)%float.

(** Lines 38-44: the array of interpolation factors, of shape
    (height, width). *)
Definition gradient_array (t : BannerTransformer) (direction : string) : res (Np.ndarray float) :=
  if String.eqb direction "horizontal" then
    gradient ← Np.linspace01 (width t);
    mret (Np.tile gradient (height t))
  else
    gradient ← Np.linspace01 (height t);
    mret (Np.T (Np.tile gradient (width t))).

(** Lines 50-56: the two nested loops that draw the gradient point by
    point. *)
Definition draw_gradient (t : BannerTransformer) (start_rgb end_rgb : Z * Z * Z)
    (gradient : Np.ndarray float) (gradient_image : Image) : res Image :=
  let '(r0, g0, b0) := start_rgb in
  let '(r1, g1, b1) := end_rgb in
  for_ (seqZ 0 (width t)) (fun img x =>
    for_ (seqZ 0 (height t)) (fun img y =>
      factor ← Np.getitem gradient y x;
      r ← gradient_channel r0 r1 factor;
      g ← gradient_channel g0 g1 factor;
      b ← gradient_channel b0 b1 factor;
      draw_point img x y (r, g, b, 255)) img) gradient_image.

(** Lines 34-56 of [apply_gradient]: the gradient image before it is
    composited. *)
Definition gradient_layer (t : BannerTransformer) (start_color end_color direction : string)
  : M Image :=
  start_rgb ← lift (hex_rgb start_color);
  end_rgb ← lift (hex_rgb end_color);
  gradient ← lift (gradient_array t direction);
  gradient_image ← creating (new_RGBA (width t, height t) (0, 0, 0, 0));
  lift (draw_gradient t start_rgb end_rgb gradient gradient_image).

Definition apply_gradient (t : BannerTransformer) (start_color end_color direction : string)
  : M BannerTransformer :=
  gradient_image ← gradient_layer t start_color end_color direction;
  im ← creating (alpha_composite gradient_image (image t));
  mret (set_image t im).

Section WithFilters.
Context {F : Filters}.

Definition _create_paper_texture (t : BannerTransformer) : M Image :=
  texture ← creating (new_L (width t, height t));
  texture ← forM (seqZ 0 (width t)) (fun tex x =>
    forM (seqZ 0 (height t)) (fun tex y =>
      noise ← random_randint 200 255;
      lift (putpixel_L tex x y noise)) tex) texture;
  creating (GaussianBlur 1 texture).

Definition apply_texture (t : BannerTransformer) (texture_type : string) (opacity : float)
  : M BannerTransformer :=
  texture ← creating (new_RGBA (width t, height t) (0, 0, 0, 0));
  texture ←
    (if String.eqb texture_type "noise" then
       noise ← np_random_randint 0 255 (height t) (width t);
       creating (ret (fromarray_L noise))
     else if String.eqb texture_type "grain" then
       noise ← np_random_normal 127 20 (height t) (width t);
       let noise := Np.Ndarray (Np.nrows noise) (Np.ncols noise)
                      (fun i j => Np.astype_uint8 (Np.clip 0 255 (Np.cell noise i j))) in
       creating (ret (fromarray_L noise))
     else if String.eqb texture_type "paper" then
       _create_paper_texture t
     else mret texture);
  texture ← creating (ret (convert_RGBA texture));
  alpha ← lift (int_of_float (255 * opacity)%float);
  texture ← lift (putalpha texture alpha);
  im ← creating (alpha_composite (image t) texture);
  mret (set_image t im).

Definition apply_overlay (t : BannerTransformer) (color : string) (opacity : float)
  : M BannerTransformer :=
  overlay ← creating (new_RGBA (width t, height t) (0, 0, 0, 0));
  '(r, g, b) ← lift (hex_rgb color);
  alpha ← lift (int_of_float (255 * opacity)%float);
  overlay ← lift (draw_rectangle_fill overlay 0 0 (width t) (height t) (r, g, b, alpha));
  im ← creating (alpha_composite (image t) overlay);
  mret (set_image t im).

Definition apply_blur (t : BannerTransformer) (radius : Z) : M BannerTransformer :=
  im ← creating (GaussianBlur radius (image t));
  mret (set_image t im).

Definition apply_drop_shadow (t : BannerTransformer) (offset : Z * Z) (shadow_color : string)
    (blur_radius : Z) : M BannerTransformer :=
  shadow ← creating (new_RGBA (size (image t)) (0, 0, 0, 0));
  shadow ← lift (paste shadow (image t) offset);
  shadow ← creating (GaussianBlur blur_radius shadow);
  '(r, g, b) ← lift (hex_rgb shadow_color);
  shadow_data ← lift (getdata shadow);
  let new_data := (fun p : rgba => let '(_, _, _, a) := p in (r, g, b, a)) <$> shadow_data in
  shadow ← lift (putdata shadow new_data);
  final_image ← creating (new_RGBA (size (image t)) (0, 0, 0, 0));
  final_image ← creating (alpha_composite final_image shadow);
  final_image ← creating (alpha_composite final_image (image t));
  mret (set_image t final_image).

Definition apply_border (t : BannerTransformer) (width_ : Z) (color : string)
  : M BannerTransformer :=
  '(r, g, b) ← lift (hex_rgb color);
  im ← lift (draw_rectangle_outline (image t) 0 0 (width t - 1) (height t - 1)
               (r, g, b, 255) width_);
  mret (set_image t im).

Definition apply_glow (t : BannerTransformer) (spread : Z) (intensity : float)
  : M BannerTransformer :=
  glow ← creating (GaussianBlur spread (image t));
  glow ← creating (Brightness_enhance intensity glow);
  im ← creating (alpha_composite glow (image t));
  mret (set_image t im).

End WithFilters.
End Transformers.

(* ===================================================================== *)
(** * Dynamic dispatch: keyword arguments, effect tables, presets *)
(* ===================================================================== *)

Module Dispatch.
Import Py PIL World Transformers.

(** Arguments arrive as dynamic values; the methods above are typed as
    their annotations say.  A value of another type is [IllTyped]. *)
Definition as_int (param : string) (v : pyval) : res Z :=
  match v with PInt z => ret z | _ => raise (IllTyped param) end.

Definition as_float (param : string) (v : pyval) : res float :=
  match v with PFloat f => ret f | _ => raise (IllTyped param) end.

Definition as_str (param : string) (v : pyval) : res string :=
  match v with PStr s => ret s | _ => raise (IllTyped param) end.

Definition as_offset (param : string) (v : pyval) : res (Z * Z) :=
  match v with
  | PTuple [PInt dx; PInt dy] => ret (dx, dy)
  | _ => raise (IllTyped param)
  end.

(** [params.get(key, default)]: only a dict has the method. *)
Definition params_get (params : pyval) (key : string) (dflt : pyval) : res pyval :=
  match params with
  | PDict d => ret (dict_get_default key dflt d)
  | _ => raise (AttributeError "object has no attribute 'get'")
  end.

(** A call [f( **kwargs )] for a method whose parameters after [self] are
    [params], each with its default if it has one: the arguments in the
    order of the parameters. *)
Fixpoint bind_params (fname : string) (params : list (string * option pyval)) (d : pydict)
  : res (list pyval) :=
  match params with
  | [] => ret []
  | (p, dflt) :: params' =>
      v ← match dict_get p d, dflt with
          | Some v, _ => ret v
          | None, Some v => ret v
          | None, None =>
              raise (TypeError (fname ++ "() missing 1 required positional argument: '" ++ p ++ "'"))
          end;
      vs ← bind_params fname params' d;
      mret (v :: vs)
  end.

Definition bind_kwargs (fname : string) (params : list (string * option pyval)) (kwargs : pyval)
  : res (list pyval) :=
  match kwargs with
  | PDict d =>
      match List.find (fun kv : string * pyval => negb (existsb (String.eqb (fst kv)) (fst <$> params))) d with
      | Some (k, _) =>
          raise (TypeError (fname ++ "() got an unexpected keyword argument '" ++ k ++ "'"))
      | None => bind_params fname params d
      end
  | _ => raise (TypeError "argument after ** must be a mapping")
  end.

Section WithFilters.
Context {F : Filters}.

(** [transformer.apply_gradient] called with the entries of [kwargs] as keyword arguments *)
Definition apply_gradient_kw (t : BannerTransformer) (kwargs : pyval) : M BannerTransformer :=
  args ← lift (bind_kwargs "apply_gradient"
                 [("start_color", None); ("end_color", None);
                  ("direction", Some (PStr "horizontal"))] kwargs);
  match args with
  | [a; b; c] =>
      start_color ← lift (as_str "start_color" a);
      end_color ← lift (as_str "end_color" b);
      direction ← lift (as_str "direction" c);
      apply_gradient t start_color end_color direction
  | _ => lift (raise (IllTyped "apply_gradient"))
  end.

(** [transformer.apply_texture] called with the entries of [kwargs] as keyword arguments *)
Definition apply_texture_kw (t : BannerTransformer) (kwargs : pyval) : M BannerTransformer :=
  args ← lift (bind_kwargs "apply_texture"
                 [("texture_type", Some (PStr "noise")); ("opacity", Some (PFloat 0.2))] kwargs);
  match args with
  | [a; b] =>
      texture_type ← lift (as_str "texture_type" a);
      opacity ← lift (as_float "opacity" b);
      apply_texture t texture_type opacity
  | _ => lift (raise (IllTyped "apply_texture"))
  end.

(** [transformer.apply_overlay] called with the entries of [kwargs] as keyword arguments *)
Definition apply_overlay_kw (t : BannerTransformer) (kwargs : pyval) : M BannerTransformer :=
  args ← lift (bind_kwargs "apply_overlay"
                 [("color", None); ("opacity", Some (PFloat 0.3))] kwargs);
  match args with
  | [a; b] =>
      color ← lift (as_str "color" a);
      opacity ← lift (as_float "opacity" b);
      apply_overlay t color opacity
  | _ => lift (raise (IllTyped "apply_overlay"))
  end.

(** One turn of the loop of [apply_effects]. *)
Definition apply_effect (t : BannerTransformer) (entry : string * pyval) : M BannerTransformer :=
  let '(effect, params) := entry in
  if String.eqb effect "blur" then
    radius ← lift (params_get params "radius" (PInt 2));
    radius ← lift (as_int "radius" radius);
    apply_blur t radius
  else if String.eqb effect "shadow" then
    offset ← lift (params_get params "offset" (PTuple [PInt 5; PInt 5]));
    shadow_color ← lift (params_get params "shadow_color" (PStr "#000000"));
    blur_radius ← lift (params_get params "blur_radius" (PInt 3));
    offset ← lift (as_offset "offset" offset);
    shadow_color ← lift (as_str "shadow_color" shadow_color);
    blur_radius ← lift (as_int "blur_radius" blur_radius);
    apply_drop_shadow t offset shadow_color blur_radius
  else if String.eqb effect "border" then
    width_ ← lift (params_get params "width" (PInt 2));
    color ← lift (params_get params "color" (PStr "#000000"));
    width_ ← lift (as_int "width" width_);
    color ← lift (as_str "color" color);
    apply_border t width_ color
  else if String.eqb effect "glow" then
    spread ← lift (params_get params "spread" (PInt 20));
    intensity ← lift (params_get params "intensity" (PFloat 0.5));
    spread ← lift (as_int "spread" spread);
    intensity ← lift (as_float "intensity" intensity);
    apply_glow t spread intensity
  else mret t.

(** [apply_effects]: the entries of the dict in insertion order. *)
Definition apply_effects (t : BannerTransformer) (effects : pydict) : M BannerTransformer :=
  forM effects apply_effect t.

End WithFilters.

(** ** [StylePresets] *)

Definition modern : pydict :=
  [("gradient", PDict [("start_color", PStr "#4361ee");
                       ("end_color", PStr "#3f37c9");
                       ("direction", PStr "horizontal")]);
   ("effects", PDict [("shadow", PDict [("offset", PTuple [PInt 5; PInt 5]);
                                        ("blur_radius", PInt 3)]);
                      ("border", PDict [("width", PInt 0)])])].

Definition vintage : pydict :=
  [("overlay", PDict [("color", PStr "#f4a261"); ("opacity", PFloat 0.3)]);
   ("texture", PDict [("type", PStr "paper"); ("opacity", PFloat 0.2)]);
   ("effects", PDict [("border", PDict [("width", PInt 5); ("color", PStr "#e76f51")])])].

Definition minimalist : pydict :=
  [("gradient", PDict [("start_color", PStr "#ffffff");
                       ("end_color", PStr "#f8f9fa");
                       ("direction", PStr "vertical")]);
   ("effects", PDict [("border", PDict [("width", PInt 2); ("color", PStr "#2b2d42")])])].

Definition bold : pydict :=
  [("gradient", PDict [("start_color", PStr "#2b2d42");
                       ("end_color", PStr "#8d99ae");
                       ("direction", PStr "horizontal")]);
   ("effects", PDict [("glow", PDict [("spread", PInt 20); ("intensity", PFloat 0.6)])])].

(** What [getattr(StylePresets, name)] can find. *)
Inductive attribute :=
| StaticMethod (body : pydict)   (* a function of no argument returning the dict *)
| Data (v : pyval)               (* an object that cannot be called *)
| Builtin (result : res pyval).  (* a callable, with what calling it with no argument does *)

Definition needs_argument : attribute :=
  Builtin (raise (TypeError "descriptor needs an argument")).

(** The namespace of the class: the four static methods and the
    docstring of the class statement, and the attributes every class has
    from [object] and [type] in CPython 3 (those added by particular
    releases are not listed). *)
Definition StylePresets : list (string * attribute) :=
  [("modern", StaticMethod modern);
   ("vintage", StaticMethod vintage);
   ("minimalist", StaticMethod minimalist);
   ("bold", StaticMethod bold);
   ("__doc__", Data (PStr "
    Predefined style presets for banners
    "));
   ("__module__", Data (PStr "utils.transformers"));
   ("__name__", Data (PStr "StylePresets"));
   ("__qualname__", Data (PStr "StylePresets"));
   ("__dict__", Data (PObject "mappingproxy"));
   ("__weakref__", Data (PObject "getset_descriptor"));
   ("__mro__", Data (PTuple [PObject "StylePresets"; PObject "object"]));
   ("__bases__", Data (PTuple [PObject "object"]));
   ("mro", Builtin (ret (PList [PObject "StylePresets"; PObject "object"])));
   ("__subclasses__", Builtin (ret (PList [])));
   ("__init_subclass__", Builtin (ret PNone));
   ("__subclasshook__", Builtin (ret (PObject "NotImplemented")));
   ("__base__", Builtin (ret (PObject "object()")));
   ("__call__", Builtin (ret (PObject "StylePresets()")));
   ("__class__", Builtin (raise (TypeError "type() takes 1 or 3 arguments")));
   ("__new__", Builtin (raise (TypeError "object.__new__(): not enough arguments")));
   ("__init__", needs_argument); ("__repr__", needs_argument);
   ("__str__", needs_argument); ("__hash__", needs_argument);
   ("__eq__", needs_argument); ("__ne__", needs_argument);
   ("__lt__", needs_argument); ("__le__", needs_argument);
   ("__gt__", needs_argument); ("__ge__", needs_argument);
   ("__setattr__", needs_argument); ("__delattr__", needs_argument);
   ("__getattribute__", needs_argument); ("__format__", needs_argument);
   ("__reduce__", needs_argument); ("__reduce_ex__", needs_argument);
   ("__sizeof__", needs_argument); ("__dir__", needs_argument);
   ("__instancecheck__", needs_argument); ("__subclasscheck__", needs_argument)].

Fixpoint class_lookup (name : string) (cls : list (string * attribute)) : option attribute :=
  match cls with
  | [] => None
  | (k, a) :: cls' => if String.eqb k name then Some a else class_lookup name cls'
  end.

(** [getattr(cls, name, default)]: the name has to be a string. *)
Definition getattr (cls : list (string * attribute)) (name : pyval) (dflt : attribute)
  : res attribute :=
  match name with
  | PStr s => ret (default dflt (class_lookup s cls))
  | _ => raise (TypeError "attribute name must be string")
  end.

(** [a()] *)
Definition call (a : attribute) : res pyval :=
  match a with
  | StaticMethod body => ret (PDict body)
  | Data _ => raise (TypeError "object is not callable")
  | Builtin r => r
  end.

(** [key in v] for a string [key] *)
Definition contains (key : string) (v : pyval) : res bool :=
  let is_key (x : pyval) := match x with PStr s => String.eqb s key | _ => false end in
  match v with
  | PDict d => ret (bool_decide (is_Some (dict_get key d)))
  | PList l => ret (existsb is_key l)
  | PTuple l => ret (existsb is_key l)
  | PStr _ => raise (IllTyped "in")
  | _ => raise (TypeError "argument is not iterable")
  end.

(** [v[key]] for a string [key] *)
Definition subscript (v : pyval) (key : string) : res pyval :=
  match v with
  | PDict d => dict_item key d
  | _ => raise (TypeError "indices must be integers")
  end.

(** [v.items()] *)
Definition items (v : pyval) : res pydict :=
  match v with
  | PDict d => ret d
  | _ => raise (AttributeError "object has no attribute 'items'")
  end.

End Dispatch.

(* ===================================================================== *)
(** * [src/helpers.py]: colour interpolation and the style table *)
(* ===================================================================== *)

Module Helpers.
Import Py.

(** [int(c1 + factor * (c2 - c1))] *)
Definition interpolate_channel (c1 c2 : Z) (factor : float) : res Z :=
  int_of_float (float_of_Z c1 + factor * float_of_Z (c2 - c1))%float.

Definition hex_digit (d : Z) : ascii :=
  ascii_of_nat (Z.to_nat (if d <? 10 then 48 + d else 87 + d)).

Fixpoint hex_digits (fuel : nat) (n : Z) (acc : string) : string :=
  match fuel with
  | O => acc
  | S fuel' =>
      let acc' := String (hex_digit (n mod 16)) acc in
      if n <? 16 then acc' else hex_digits fuel' (n / 16) acc'
  end.

(** [format(n, '02x')] *)
Definition format_02x (n : Z) : string :=
  let body := hex_digits (S (Z.to_nat (Z.log2 (Z.abs n)))) (Z.abs n) "" in
  if n <? 0 then String "-" body
  else if (String.length body <? 2)%nat then String "0" body
  else body.

Definition _interpolate_color (color1 color2 : string) (factor : float) : res string :=
  r1 ← int_of_str 16 (substring 1 2 color1);
  g1 ← int_of_str 16 (substring 3 2 color1);
  b1 ← int_of_str 16 (substring 5 2 color1);
  r2 ← int_of_str 16 (substring 1 2 color2);
  g2 ← int_of_str 16 (substring 3 2 color2);
  b2 ← int_of_str 16 (substring 5 2 color2);
  r ← interpolate_channel r1 r2 factor;
  g ← interpolate_channel g1 g2 factor;
  b ← interpolate_channel b1 b2 factor;
  mret ("#" +:+ format_02x r +:+ format_02x g +:+ format_02x b).

Definition styles : pydict :=
  [("modern", PDict [("background_color", PStr "#4361ee");
                     ("gradient", PBool true);
                     ("gradient_colors", PList [PStr "#4361ee"; PStr "#3f37c9"]);
                     ("shadow", PBool true);
                     ("border_radius", PInt 10)]);
   ("vintage", PDict [("background_color", PStr "#f4a261");
                      ("texture", PBool true);
                      ("border", PBool true);
                      ("border_color", PStr "#e76f51");
                      ("border_width", PInt 5)]);
   ("minimalist", PDict [("background_color", PStr "#ffffff");
                         ("stroke", PBool true);
                         ("stroke_color", PStr "#2b2d42");
                         ("stroke_width", PInt 2)]);
   ("bold", PDict [("background_color", PStr "#2b2d42");
                   ("gradient", PBool true);
                   ("gradient_colors", PList [PStr "#2b2d42"; PStr "#8d99ae"]);
                   ("shadow", PBool true)])].

(** [styles.get(style, styles['modern'])] *)
Definition get_banner_style_config (style : string) : res pyval :=
  dflt ← dict_item "modern" styles;
  mret (dict_get_default style dflt styles).

End Helpers.

(* ===================================================================== *)
(** * [src/app.py]: the route [generate_banner] *)
(* ===================================================================== *)

Module App.
Import Py PIL World Transformers Dispatch.

Definition required_fields : list string := ["width"; "height"; "style"].

Definition field (request_data : gmap string pyval) (name : string) : res pyval :=
  match request_data !! name with
  | Some v => ret v
  | None => raise (KeyError name)
  end.

Definition validate_banner_request (request_data : gmap string pyval) : res (Z * Z * pyval) :=
  _ ← for_ required_fields (fun _ name =>
         match request_data !! name with
         | Some _ => ret tt
         | None => raise (ValueError ("Missing required field: " ++ name))
         end) tt;
  width ← field request_data "width" ≫= int_;
  height ← field request_data "height" ≫= int_;
  if (width <=? 0) || (height <=? 0)
  then raise (ValueError "Width and height must be positive numbers")
  else if (4000 <? width) || (4000 <? height)
  then raise (ValueError "Maximum dimensions exceeded (4000x4000)")
  else ret (width, height, default (PStr "modern") (request_data !! "style")).

(** What the route answers.  Past [transformer.get_image()] the banner
    goes to the file system, which is outside this development: a
    successful answer carries the image itself.  [Unmodelled] is the
    answer to a run that met an [IllTyped] value. *)
Inductive response :=
| Ok200 (banner : Image) (width height : Z)
| Error400 (error : string)
| Error500
| Unmodelled.

Section WithFilters.
Context {F : Filters}.

(** [getattr(StylePresets, style, StylePresets.modern)()] *)
Definition resolve_preset (style : pyval) : res pyval :=
  getattr StylePresets style (StaticMethod modern) ≫= call.

(** One of the four guarded stages: [if key in style_preset: ...]. *)
Definition stage (key : string) (run : BannerTransformer -> pyval -> M BannerTransformer)
    (style_preset : pyval) (t : BannerTransformer) : M BannerTransformer :=
  present ← lift (contains key style_preset);
  if present : bool then
    arg ← lift (subscript style_preset key);
    run t arg
  else mret t.

(** Lines 72-80: the four stages, in this order whatever the order of
    the keys of the preset. *)
Definition apply_style_preset (style_preset : pyval) (transformer : BannerTransformer)
  : M BannerTransformer :=
  transformer ← stage "gradient" apply_gradient_kw style_preset transformer;
  transformer ← stage "texture" apply_texture_kw style_preset transformer;
  transformer ← stage "overlay" apply_overlay_kw style_preset transformer;
  stage "effects"
    (fun t effects => effects ← lift (items effects); apply_effects t effects)
    style_preset transformer.

(** Lines 63-90: from the base image to [transformer.get_image()]. *)
Definition render (width height : Z) (style : pyval) : M Image :=
  image ← creating (new_RGBA (width, height) (255, 255, 255, 0));
  let transformer := __init__ image in
  style_preset ← lift (resolve_preset style);
  transformer ← apply_style_preset style_preset transformer;
  mret (get_image transformer).

(** The body of the [try] block. *)
Definition run_pipeline (request_data : gmap string pyval) : M (Image * Z * Z) :=
  '(width, height, style) ← lift (validate_banner_request request_data);
  banner ← render width height style;
  mret (banner, width, height).

Definition generate_banner (request_data : gmap string pyval) (w : world) : response * world :=
  match run_pipeline request_data w with
  | (inr (banner, width, height), w') => (Ok200 banner width height, w')
  | (inl (ValueError msg), w') => (Error400 msg, w')
  | (inl (IllTyped _), w') => (Unmodelled, w')
  | (inl _, w') => (Error500, w')
  end.

End WithFilters.
End App.

(* ===================================================================== *)
(** * The vocabulary of the properties *)
(* ===================================================================== *)

Module Spec.
Import Py PIL World Transformers Dispatch App.

Section WithFilters.
Context {F : Filters}.

(** A float that is zero, or finite and below [2 ^ K] in magnitude. *)
Definition below (K : Z) (x : spec_float) : Prop :=
  match x with
  | S754_zero _ => True
  | S754_finite _ m e => e <= K /\ Z.pos m < 2 ^ (K - e)
  | _ => False
  end.

(** A float that is an infinity, or finite and at least [2 ^ L] in
    magnitude. *)
Definition above (L : Z) (x : spec_float) : Prop :=
  match x with
  | S754_finite _ m e => L < Zdigits2 (Z.pos m) + e
  | S754_infinity _ => True
  | _ => False
  end.

(** A float in the unit interval is below 2. *)
Definition unit_interval (f : float) : Prop :=
  PrimFloat.leb 0 f = true /\ PrimFloat.leb f 1 = true.

Definition is_byte (v : Z) : Prop := 0 <= v <= 255.

Definition known_effects : list string := ["blur"; "shadow"; "border"; "glow"].

(** The base image of line 64. *)
Definition base_image (width height : Z) : Image :=
  mkImage (width, height) (Rgba (replicate (Z.to_nat (width * height)) (255, 255, 255, 0))).

(** The band an opaque top pixel leaves: [coef1] is [255 * 128], [coef2]
    is 0 and the rounded division by 255 gives the top band back. *)
Definition opaque_band (s : Z) : Z :=
  u8 (Z.shiftr (shift_for_div255 (u32 (u32 (s * 32640 + 0) + 16384))) 7).

(** The image of a transformer is an RGBA image of the recorded size,
    with one stored pixel per pixel. *)
Definition canvas_ok (t : BannerTransformer) : Prop :=
  mode (image t) = RGBA /\ size (image t) = (width t, height t) /\ wf (image t).

(** Filters that hand the image back as it is: a model of the interface. *)
Definition still_filters : Filters := {|
  GaussianBlur := fun _ im => ret im;
  Brightness_enhance := fun _ im => ret im;
  paste := fun dst _ _ => ret dst;
  draw_rectangle_outline := fun im _ _ _ _ _ _ => ret im
|}.

Definition texture_kinds : list string := ["noise"; "grain"; "paper"].

(** The pixels of an RGBA image under a flat layer of one ink. *)
Definition flat_layer_over (top : rgba) (im : Image) : Image :=
  match data im with
  | Rgba px => mkImage (size im) (Rgba ((fun p => composite_pixel p top) <$> px))
  | Lum _ => im
  end.

(** An opaque white pixel, a generator whose every draw is 200. *)
Definition white_pixel : BannerTransformer :=
  __init__ (mkImage (1, 1) (Rgba [(255, 255, 255, 255)])).

Definition draws_200 : world := mkWorld [] (fun _ => 200) (fun _ => 0%float) 0.

(** The loops of [apply_gradient], over any rule that gives the ink of a
    pixel. *)
Definition raster_loop (w h : Z) (pixel : Z -> Z -> res rgba) (img : Image) : res Image :=
  for_ (seqZ 0 w) (fun img x =>
    for_ (seqZ 0 h) (fun img y => bind (pixel x y) (draw_point img x y)) img) img.

(** [img] has size [w] x [h], and the pixels of the columns before [k]
    and of the rows before [j] of column [k] satisfy [P]. *)
Definition drawn (w h : Z) (P : Z -> Z -> rgba -> Prop) (n : nat) (k j : Z) (img : Image) : Prop :=
  exists px, img = mkImage (w, h) (Rgba px) /\ length px = n /\
    forall x y, 0 <= x < w -> 0 <= y < h -> x < k \/ (x = k /\ y < j) ->
      exists c, px !! offset w x y = Some c /\ P x y c.

(** The ink of pixel [(x, y)]: the body of the inner loop before the
    point is drawn. *)
Definition gradient_pixel (start_rgb end_rgb : Z * Z * Z) (gradient : Np.ndarray float)
    (x y : Z) : res rgba :=
  let '(r0, g0, b0) := start_rgb in
  let '(r1, g1, b1) := end_rgb in
  factor ← Np.getitem gradient y x;
  r ← gradient_channel r0 r1 factor;
  g ← gradient_channel g0 g1 factor;
  b ← gradient_channel b0 b1 factor;
  mret (r, g, b, 255).

Definition alpha (p : rgba) : Z := snd p.

(** Every stored pixel has alpha 255. *)
Definition opaque (im : Image) : Prop :=
  match data im with
  | Rgba px => Forall (fun p => alpha p = 255) px
  | Lum _ => False
  end.

(** The image of one ink. *)
Definition flat_image (w h : Z) (ink : rgba) : Image :=
  mkImage (w, h) (Rgba (replicate (Z.to_nat (w * h)) ink)).

(** The size of the image is the recorded one. *)
Definition size_ok (t : BannerTransformer) : Prop :=
  size (image t) = (width t, height t).

(** [t'] comes from [t] by an operation that kept the recorded size and
    left an image of that size. *)
Definition keeps_size (t t' : BannerTransformer) : Prop :=
  size_ok t' /\ width t' = width t /\ height t' = height t.

(** One call of an operation of the class that returned. *)
Inductive call : BannerTransformer -> BannerTransformer -> Prop :=
| call_gradient t start_color end_color direction w t' w' :
    apply_gradient t start_color end_color direction w = (inr t', w') -> call t t'
| call_texture t texture_type opacity w t' w' :
    apply_texture t texture_type opacity w = (inr t', w') -> call t t'
| call_overlay t color opacity w t' w' :
    apply_overlay t color opacity w = (inr t', w') -> call t t'
| call_blur t radius w t' w' :
    apply_blur t radius w = (inr t', w') -> call t t'
| call_drop_shadow t offset shadow_color blur_radius w t' w' :
    apply_drop_shadow t offset shadow_color blur_radius w = (inr t', w') -> call t t'
| call_border t width_ color w t' w' :
    apply_border t width_ color w = (inr t', w') -> call t t'
| call_glow t spread intensity w t' w' :
    apply_glow t spread intensity w = (inr t', w') -> call t t'.

(** The transformers a program can hold: the one constructed on [im],
    and what calls leave. *)
Inductive reachable (im : Image) : BannerTransformer -> Prop :=
| reachable_init : reachable im (__init__ im)
| reachable_call t t' : reachable im t -> call t t' -> reachable im t'.

(** [z] is [q] with its fraction dropped. *)
Definition truncation_of (q : Q) (z : Z) : Prop :=
  ((0 <= q)%Q -> (inject_Z z <= q)%Q /\ (q < inject_Z z + 1)%Q) /\
  ((q <= 0)%Q -> (inject_Z z - 1 < q)%Q /\ (q <= inject_Z z)%Q).

Definition clamp_byte (z : Z) : Z := Z.max 0 (Z.min 255 z).

(** The interpolation as the specification words it: the value rounded
    to the nearest integer, then clamped to [0, 255]. *)
Definition spec_interpolate (c1 c2 : Z) (factor : float) : res Z :=
  z ← round_float (float_of_Z c1 * (1 - factor) + float_of_Z c2 * factor)%float;
  mret (clamp_byte z).

(** A request for [style] at the given size. *)
Definition request (width height : Z) (style : string) : gmap string pyval :=
  {[ "width" := PInt width; "height" := PInt height; "style" := PStr style ]}.

End WithFilters.
End Spec.

(* ===================================================================== *)
(** * [src/helpers.py]: [validate_banner_params] *)
(* ===================================================================== *)

Module Validation.
Import Py.

Definition required_params : list string :=
  ["text"; "width"; "height"; "fontSize"; "textColor"].

(** [params[key]] *)
Definition item (params : gmap string pyval) (key : string) : res pyval :=
  match params !! key with
  | Some v => ret v
  | None => raise (KeyError key)
  end.

(** [v.strip()]: a method of [str]. *)
Definition str_strip (v : pyval) : res string :=
  match v with
  | PStr s => ret (strip s)
  | PObject _ => raise (IllTyped "strip")
  | _ => raise (AttributeError "object has no attribute 'strip'")
  end.

(** [len(v)] *)
Definition len (v : pyval) : res Z :=
  match v with
  | PStr s => ret (Z.of_nat (String.length s))
  | PList l | PTuple l => ret (Z.of_nat (length l))
  | PDict d => ret (Z.of_nat (length d))
  | PObject _ => raise (IllTyped "len")
  | _ => raise (TypeError "object has no len()")
  end.

(** ** The pattern [^#(?:[0-9a-fA-F]{3}){1,2}$] *)

Definition is_hex_digit (c : ascii) : bool :=
  let n := Z.of_nat (nat_of_ascii c) in
  ((48 <=? n) && (n <=? 57)) || ((65 <=? n) && (n <=? 70)) || ((97 <=? n) && (n <=? 102)).

(** [[0-9a-fA-F]{3}] at the head of [s]: what follows the three digits. *)
Definition hex3 (s : string) : option string :=
  match s with
  | String a (String b (String c rest)) =>
      if is_hex_digit a && is_hex_digit b && is_hex_digit c then Some rest else None
  | _ => None
  end.

(** [$] without [re.MULTILINE]: the end of the string, or the newline
    that ends the string. *)
Definition at_dollar (s : string) : bool :=
  match s with
  | EmptyString => true
  | String c EmptyString => Ascii.eqb c "010"%char
  | _ => false
  end.

(** Whether the pattern matches at the start of [s]: the group is tried
    twice first, as [{1,2}] is greedy, and once if the end is not met
    after two. *)
Definition match_hex_color (s : string) : bool :=
  match s with
  | String "#" s1 =>
      match hex3 s1 with
      | Some s2 =>
          match hex3 s2 with
          | Some s3 => at_dollar s3 || at_dollar s2
          | None => at_dollar s2
          end
      | None => false
      end
  | _ => false
  end.

(** [re.match(pattern, v)]: the subject has to be text. *)
Definition re_match_color (v : pyval) : res bool :=
  match v with
  | PStr s => ret (match_hex_color s)
  | PObject _ => raise (IllTyped "re.match")
  | _ => raise (TypeError "expected string or bytes-like object")
  end.

(** Lines 48-58, the body of the [try]: [Some msg] is an early return
    with that message. *)
Definition check_dimensions (params : gmap string pyval) : res (option string) :=
  width ← item params "width" ≫= int_;
  height ← item params "height" ≫= int_;
  font_size ← item params "fontSize" ≫= int_;
  if negb ((300 <=? width) && (width <=? 2000))
  then ret (Some "Width must be between 300 and 2000 pixels")
  else if negb ((100 <=? height) && (height <=? 1000))
  then ret (Some "Height must be between 100 and 1000 pixels")
  else if negb ((12 <=? font_size) && (font_size <=? 120))
  then ret (Some "Font size must be between 12 and 120 pixels")
  else ret None.

(** Lines 63-73. *)
Definition check_text_and_color (params : gmap string pyval) : res (bool * string) :=
  stripped ← item params "text" ≫= str_strip;
  if String.eqb stripped ""
  then ret (false, "Banner text cannot be empty")
  else
    n ← item params "text" ≫= len;
    if 100 <? n
    then ret (false, "Banner text must be less than 100 characters")
    else
      m ← item params "textColor" ≫= re_match_color;
      if negb m
      then ret (false, "Invalid color format. Use hex color (e.g., #FF0000)")
      else ret (true, "").

Definition validate_banner_params (params : gmap string pyval) : res (bool * string) :=
  match List.find (fun param => bool_decide (params !! param = None)) required_params with
  | Some param => ret (false, "Missing required parameter: " +:+ param)
  | None =>
      match check_dimensions params with
      | inr (Some msg) => ret (false, msg)
      | inr None => check_text_and_color params
      | inl (ValueError _) =>
          ret (false, "Invalid numeric values for dimensions or font size")
      | inl e => raise e
      end
  end.

End Validation.

(* ===================================================================== *)
(** * [src/helpers.py]: [clean_text] *)
(* ===================================================================== *)

Module Text.
Import Py.

(** [\w] on ASCII text: a letter, a digit or the underscore. *)
Definition is_word (c : ascii) : bool :=
  let n := Z.of_nat (nat_of_ascii c) in
  ((48 <=? n) && (n <=? 57)) || ((65 <=? n) && (n <=? 90)) ||
  ((97 <=? n) && (n <=? 122)) || (n =? 95).

(** The punctuation the class [[^\w\s.,!?-]] lists. *)
Definition is_punct (c : ascii) : bool :=
  existsb (Ascii.eqb c) ["."; ","; "!"; "?"; "-"]%char.

(** The characters the second substitution leaves: those that are not in
    the negated class.  [\s] is the white space of [Py.is_space]. *)
Definition is_kept (c : ascii) : bool := is_word c || is_space c || is_punct c.

(** The number of characters before the first ['>'], if there is one. *)
Fixpoint before_gt (s : list ascii) : option nat :=
  match s with
  | [] => None
  | c :: s' => if Ascii.eqb c ">" then Some O else S <$> before_gt s'
  end.

(** [re.sub(r'<[^>]+>', '', text)].  A match starts at a ['<'] that is
    followed by at least one character other than ['>'] and then, after
    the characters that are not ['>'], by a ['>']; the scan goes on after
    the match.  [skip] counts the characters of a match still to
    drop. *)
Fixpoint sub_tags (skip : nat) (s : list ascii) : list ascii :=
  match s, skip with
  | [], _ => []
  | _ :: s', S k => sub_tags k s'
  | c :: s', O =>
      if Ascii.eqb c "<" then
        match before_gt s' with
        | Some (S n) => sub_tags (S (S n)) s'
        | _ => c :: sub_tags 0 s'
        end
      else c :: sub_tags 0 s'
  end.

(** [text.split()]: the maximal runs of characters that are not white
    space; [word] is the run being read. *)
Fixpoint split (word : list ascii) (s : list ascii) : list (list ascii) :=
  match s with
  | [] => match word with [] => [] | _ => [word] end
  | c :: s' =>
      if is_space c
      then match word with [] => split [] s' | _ => word :: split [] s' end
      else split (word ++ [c]) s'
  end.

(** [' '.join(words)] *)
Fixpoint join (words : list (list ascii)) : list ascii :=
  match words with
  | [] => []
  | w :: ws => match ws with [] => w | _ => w ++ " "%char :: join ws end
  end.

(** Lines 86, 89 and 92, on ASCII text. *)
Definition clean_text (text : string) : string :=
  let text := sub_tags 0 (list_ascii_of_string text) in
  let text := List.filter is_kept text in
  string_of_list_ascii (join (split [] text)).

End Text.

(* ===================================================================== *)
(** * [src/helpers.py]: [apply_style_effects] *)
(* ===================================================================== *)

Module StyleEffects.
Import Py PIL Dispatch.

(** The two calls of [ImageDraw] whose pixel arithmetic is left open:
    [draw.line([p, q], fill=color)] and
    [draw.rectangle([p, q], outline=color, width=width)], each as the
    image drawn on after the call. *)
Class Drawing := {
  draw_line : Image -> Z * Z -> Z * Z -> string -> res Image;
  draw_outline : Image -> Z * Z -> Z * Z -> pyval -> pyval -> res Image
}.

(** Images are objects: the function draws on one through [draw] and
    returns a reference.  A store is the list of the images alive, a
    reference a position in it; [load] is the image a reference
    denotes. *)
Definition load (h : list Image) (r : nat) : res Image :=
  match h !! r with
  | Some im => ret im
  | None => raise (IllTyped "image")
  end.

(** The truth value of [config.get(key)]. *)
Definition truth (v : option pyval) : res bool :=
  match v with
  | None | Some PNone => ret false
  | Some (PBool b) => ret b
  | Some (PInt z) => ret (negb (z =? 0))
  | Some (PFloat f) => ret (negb (PrimFloat.eqb f 0))
  | Some (PStr s) => ret (negb (String.eqb s ""))
  | Some (PTuple l) | Some (PList l) => ret (match l with [] => false | _ => true end)
  | Some (PDict d) => ret (match d with [] => false | _ => true end)
  | Some (PObject _) => raise (IllTyped "config")
  end.

(** [v[i]] for a position [i] that is not negative. *)
Definition subscript_at (v : pyval) (i : nat) : res pyval :=
  match v with
  | PList l | PTuple l =>
      match l !! i with
      | Some x => ret x
      | None => raise IndexError
      end
  | PStr s =>
      match String.get i s with
      | Some c => ret (PStr (String c ""))
      | None => raise IndexError
      end
  | PDict _ | PObject _ => raise (IllTyped "gradient_colors")
  | _ => raise (TypeError "object is not subscriptable")
  end.

(** [i / height] on two integers: both are converted exactly (they are
    far below 2^53), so the quotient of the floats is the correctly
    rounded quotient; the divisor is not 0 where the loop body runs. *)
Definition true_div (i height : Z) : float := (float_of_Z i / float_of_Z height)%float.

Section WithDrawing.
Context {D : Drawing}.

(** A call of [draw.line] or [draw.rectangle]: the image behind [draw]
    is drawn on in place. *)
Definition drawing_on (h : list Image) (draw : nat) (paint : Image -> res Image)
  : res (list Image) :=
  canvas ← load h draw;
  canvas' ← paint canvas;
  mret (<[draw := canvas']> h).

(** Lines 234-239: one turn of the loop. *)
Definition gradient_row (config : pydict) (draw : nat) (width height : Z)
    (h : list Image) (i : Z) : res (list Image) :=
  color1 ← dict_item "gradient_colors" config ≫= (fun colors => subscript_at colors 0);
  color2 ← dict_item "gradient_colors" config ≫= (fun colors => subscript_at colors 1);
  color1 ← as_str "color1" color1;
  color2 ← as_str "color2" color2;
  color ← Helpers._interpolate_color color1 color2 (true_div i height);
  drawing_on h draw (fun canvas => draw_line canvas (0, i) (width, i) color).

(** Lines 229-239. *)
Definition gradient_stage (draw image : nat) (config : pydict) (h : list Image)
  : res (list Image) :=
  set ← truth (dict_get "gradient" config);
  if set : bool then
    im ← load h image;
    let '(width, height) := size im in
    for_ (seqZ 0 height) (gradient_row config draw width height) h
  else mret h.

(** Lines 241-244: [image] is bound to a new image, the composite; the
    image behind [draw] is not touched. *)
Definition texture_stage (image : nat) (config : pydict) (h : list Image)
  : res (nat * list Image) :=
  set ← truth (dict_get "texture" config);
  if set : bool then
    im ← load h image;
    texture ← new_RGBA (size im) (255, 255, 255, 30);
    composite ← alpha_composite im texture;
    mret (S (length h), h ++ [texture; composite])
  else mret (image, h).

(** Lines 246-252. *)
Definition border_stage (draw image : nat) (config : pydict) (h : list Image)
  : res (list Image) :=
  set ← truth (dict_get "border" config);
  if set : bool then
    im ← load h image;
    color ← dict_item "border_color" config;
    width ← dict_item "border_width" config;
    drawing_on h draw (fun canvas => draw_outline canvas (0, 0) (size im) color width)
  else mret h.

(** [draw] is the reference of the image behind the [ImageDraw] object,
    [image] the reference passed as [image]; the result is the reference
    returned and the store after the call. *)
Definition apply_style_effects (draw image : nat) (config : pydict) (h : list Image)
  : res (nat * list Image) :=
  h ← gradient_stage draw image config h;
  '(image, h) ← texture_stage image config h;
  h ← border_stage draw image config h;
  mret (image, h).

End WithDrawing.
End StyleEffects.

(* ===================================================================== *)
(** * Further vocabulary: pixels and images *)
(* ===================================================================== *)

Module Notions.
Import Py PIL World Transformers Dispatch App Spec.

(** A pixel as Pillow stores it: four bytes. *)
Definition byte_pixel (p : rgba) : Prop :=
  let '(r, g, b, a) := p in is_byte r /\ is_byte g /\ is_byte b /\ is_byte a.

(** An RGBA image whose stored pixels are bytes. *)
Definition byte_image (im : Image) : Prop :=
  match data im with
  | Rgba px => Forall byte_pixel px
  | Lum _ => False
  end.

(** Every stored pixel has alpha 0. *)
Definition transparent (im : Image) : Prop :=
  match data im with
  | Rgba px => Forall (fun p => alpha p = 0) px
  | Lum _ => False
  end.

(** The filters return on every argument. *)
Record filters_return (F : Filters) : Prop := {
  GaussianBlur_returns : forall r im, exists im', GaussianBlur r im = inr im';
  Brightness_returns : forall f im, exists im', Brightness_enhance f im = inr im';
  paste_returns : forall dst src off, exists dst', paste dst src off = inr dst';
  outline_returns : forall im x0 y0 x1 y1 ink wd,
    exists im', draw_rectangle_outline im x0 y0 x1 y1 ink wd = inr im'
}.


(** A float that denotes a number from [lo] to [hi], two integers: a
    zero, or [m * 2 ^ e] of either sign with a negative exponent. *)
Definition between (lo hi : Z) (x : spec_float) : Prop :=
  match x with
  | S754_zero _ => lo <= 0 <= hi
  | S754_finite s m e =>
      e < 0 /\ lo * 2 ^ (- e) <= cond_Zopp s (Z.pos m) <= hi * 2 ^ (- e)
  | _ => False
  end.

(** The texts the pattern of [validate_banner_params] describes: a
    ['#'], three or six hexadecimal digits and, after them, nothing or
    one newline. *)
Definition hex_colour_text (s : string) : Prop :=
  exists (ds : list ascii) (tail : string),
    s = String "#" (string_of_list_ascii ds +:+ tail) /\
    (length ds = 3%nat \/ length ds = 6%nat) /\
    Forall (fun c => Validation.is_hex_digit c = true) ds /\
    (tail = "" \/ tail = String "010" "").

(** ASCII text: every character is below 128. *)
Definition ascii_text (s : string) : Prop :=
  Forall (fun c => (nat_of_ascii c < 128)%nat) (list_ascii_of_string s).

(** A word of a cleaned text: not empty, made of letters, digits,
    underscores and the punctuation [. , ! ? -]. *)
Definition clean_word (w : list ascii) : Prop :=
  w <> [] /\ Forall (fun c => Text.is_word c || Text.is_punct c = true) w.

(** A model of the drawing interface: nothing is drawn. *)
Definition still_drawing : StyleEffects.Drawing := {|
  StyleEffects.draw_line := fun im _ _ _ => ret im;
  StyleEffects.draw_outline := fun im _ _ _ _ => ret im
|}.

(** The first of the required fields that a request does not hold. *)
Definition first_missing (request_data : gmap string pyval) : option string :=
  List.find (fun name => bool_decide (request_data !! name = None)) required_fields.

End Notions.

(* ===================================================================== *)
(** * Properties *)
(* ===================================================================== *)

Module Proofs.
Import Py PIL World Transformers Dispatch App Spec.

(** ** The monads *)

Lemma bind_M {A B} (m : M A) (k : A -> M B) (w : world) :
  (m ≫= k) w =
  match m w with
  | (inl e, w') => (inl e, w')
  | (inr a, w') => k a w'
  end.
Proof. reflexivity. Qed.

Lemma bind_lift {A B} (r : res A) (k : A -> M B) (w : world) :
  (lift r ≫= k) w =
  match r with
  | inl e => (inl e, w)
  | inr a => k a w
  end.
Proof. by destruct r. Qed.

Lemma bind_creating {B} (im : Image) (k : Image -> M B) (w : world) :
  (creating (inr im) ≫= k) w = k im (allocate im w).
Proof. reflexivity. Qed.

Lemma new_RGBA_ok (width height : Z) (color : rgba) :
  0 <= width -> 0 <= height ->
  new_RGBA (width, height) color =
  inr (mkImage (width, height) (Rgba (replicate (Z.to_nat (width * height)) (getink color)))).
Proof.
  intros Hw Hh. unfold new_RGBA, check_size. cbn [fst snd].
  replace (width <? 0) with false by lia. replace (height <? 0) with false by lia.
  reflexivity.
Qed.

Lemma forM_cons {A S} (a : A) (l : list A) (body : S -> A -> M S) (s : S) (w : world) :
  forM (a :: l) body s w =
  match body s a w with
  | (inr s', w') => forM l body s' w'
  | (inl e, w') => (inl e, w')
  end.
Proof. simpl. unfold mbind, M_bind. by destruct (body s a w) as [[e|s'] w']. Qed.

Lemma forM_app {A S} (l1 l2 : list A) (body : S -> A -> M S) (s : S) (w : world) :
  forM (l1 ++ l2) body s w =
  match forM l1 body s w with
  | (inr s', w') => forM l2 body s' w'
  | (inl e, w') => (inl e, w')
  end.
Proof.
  revert s w. induction l1 as [|a l1 IH]; intros s w; simpl.
  - reflexivity.
  - unfold mbind, M_bind. destruct (body s a w) as [[e|s'] w']; [reflexivity|apply IH].
Qed.

(** ** Binary64 arithmetic that stays finite *)

(** The operations on floats are those of IEEE 754 binary64, as
    [SpecFloat] defines them: a result is rounded to 53 bits, and it is
    an infinity only when its magnitude leaves the range. *)

Lemma digits2_pos_bounds (p : positive) :
  2 ^ (Z.pos (digits2_pos p) - 1) <= Z.pos p < 2 ^ Z.pos (digits2_pos p).
Proof.
  induction p as [p IH|p IH|]; cbn [digits2_pos]; [| |cbn; lia].
  all: rewrite Pos2Z.inj_succ;
    replace (Z.succ (Z.pos (digits2_pos p)) - 1) with (Z.pos (digits2_pos p)) by lia;
    rewrite Z.pow_succ_r by lia;
    assert (He : 2 ^ Z.pos (digits2_pos p) = 2 * 2 ^ (Z.pos (digits2_pos p) - 1))
      by (rewrite <- Z.pow_succ_r by lia; f_equal; lia);
    lia.
Qed.

Lemma shr_1_m (r : shr_record) :
  0 <= shr_m r -> shr_m (shr_1 r) = shr_m r / 2.
Proof.
  destruct r as [m rb sb]. cbn [shr_m]. intros Hm. unfold shr_1.
  destruct m as [|[p|p|]|p]; cbn [shr_m]; try lia; try reflexivity.
  - apply Z.div_unique with 1; lia.
  - apply Z.div_unique with 0; lia.
Qed.

Lemma iter_shr_1_m (p : positive) (r : shr_record) :
  0 <= shr_m r -> shr_m (SpecFloat.iter_pos shr_1 p r) = shr_m r / 2 ^ Z.pos p.
Proof.
  revert r. induction p as [p IH|p IH|]; intros r Hr; cbn [SpecFloat.iter_pos].
  - assert (H1 : 0 <= shr_m (shr_1 r)) by (rewrite shr_1_m by done; apply Z.div_pos; lia).
    assert (H2 : 0 <= shr_m (SpecFloat.iter_pos shr_1 p (shr_1 r)))
      by (rewrite IH by done; apply Z.div_pos; [done|apply Z.pow_pos_nonneg; lia]).
    rewrite IH, IH, shr_1_m by done.
    rewrite !Z.div_div by (try apply Z.pow_pos_nonneg; lia).
    f_equal. rewrite Pos2Z.inj_xI, <- Z.pow_add_r, <- Z.pow_succ_r by lia. f_equal. lia.
  - assert (H2 : 0 <= shr_m (SpecFloat.iter_pos shr_1 p r))
      by (rewrite IH by done; apply Z.div_pos; [done|apply Z.pow_pos_nonneg; lia]).
    rewrite IH, IH by done.
    rewrite !Z.div_div by (try apply Z.pow_pos_nonneg; lia).
    f_equal. rewrite Pos2Z.inj_xO, <- Z.pow_add_r by lia. f_equal. lia.
  - rewrite shr_1_m by done. reflexivity.
Qed.

(** [shr_fexp] on a non-negative mantissa: the mantissa is divided by a
    power of two and the exponent grows by as much. *)
Lemma shr_fexp_spec (m e : Z) (l : location) :
  0 <= m ->
  let '(r, e') := shr_fexp 53 1024 m e l in
  let n := Z.max (Zdigits2 m + e - 53) (-1074) - e in
  (0 < n -> shr_m r = m / 2 ^ n /\ e' = e + n) /\
  (n <= 0 -> r = shr_record_of_loc m l /\ e' = e).
Proof.
  intros Hm. unfold shr_fexp, shr, fexp, SpecFloat.emin.
  change (3 - 1024 - 53) with (-1074).
  assert (Hrec : shr_m (shr_record_of_loc m l) = m) by (by destruct l as [|[]]).
  destruct (Z.max (Zdigits2 m + e - 53) (-1074) - e) as [|p|p] eqn:Hn.
  - split; [lia|]. done.
  - split; [|lia]. intros _. split; [|done]. rewrite iter_shr_1_m by lia. by rewrite Hrec.
  - split; [lia|]. done.
Qed.

Lemma shr_m_of_loc (m : Z) (l : location) : shr_m (shr_record_of_loc m l) = m.
Proof. by destruct l as [|[]]. Qed.

Lemma round_nearest_even_bounds (m : Z) (l : location) :
  m <= round_nearest_even m l <= m + 1.
Proof. unfold round_nearest_even. destruct l as [|[]]; try lia. destruct (Z.even m); lia. Qed.

Lemma Zdigits2_bounds (m : Z) : 0 <= m -> m < 2 ^ Zdigits2 m /\ (0 < m -> 2 ^ (Zdigits2 m - 1) <= m).
Proof.
  intros Hm. destruct m as [|p|p]; cbn [Zdigits2]; [split; [cbn|]; lia| |lia].
  pose proof (digits2_pos_bounds p). split; [lia|intros _; lia].
Qed.

Lemma Zdigits2_nonneg (m : Z) : 0 <= Zdigits2 m.
Proof. destruct m; cbn; lia. Qed.

Lemma Zdigits2_le (m k : Z) : 0 <= k -> 0 <= m < 2 ^ k -> Zdigits2 m <= k.
Proof.
  intros Hk Hm. destruct (Z.eq_dec m 0) as [->|Hne]; [cbn; lia|].
  destruct (Zdigits2_bounds m) as [_ Hlo]; [lia|]. specialize (Hlo ltac:(lia)).
  destruct (Z.le_gt_cases (Zdigits2 m) k) as [|Hgt]; [done|].
  assert (2 ^ k <= 2 ^ (Zdigits2 m - 1)) by (apply Z.pow_le_mono_r; lia). lia.
Qed.

Lemma Zdigits2_ge (m k : Z) : 2 ^ k <= m -> 0 <= k -> k + 1 <= Zdigits2 m.
Proof.
  intros Hm Hk. assert (0 < 2 ^ k) by (apply Z.pow_pos_nonneg; lia).
  destruct (Zdigits2_bounds m) as [Hhi _]; [lia|].
  destruct (Z.le_gt_cases (k + 1) (Zdigits2 m)) as [|Hgt]; [done|].
  assert (2 ^ Zdigits2 m <= 2 ^ k) by (apply Z.pow_le_mono_r; [lia|lia]). lia.
Qed.

Lemma pow2_split (a b : Z) : 0 <= a -> 0 <= b -> 2 ^ (a + b) = 2 ^ a * 2 ^ b.
Proof. intros. by rewrite Z.pow_add_r. Qed.

Lemma div_pow2_lt (m a n : Z) :
  0 <= a -> 0 <= n -> 0 <= m < 2 ^ (a + n) -> 0 <= m / 2 ^ n < 2 ^ a.
Proof.
  intros Ha Hn Hm. assert (0 < 2 ^ n) by (apply Z.pow_pos_nonneg; lia). split.
  - apply Z.div_pos; lia.
  - apply Z.div_lt_upper_bound; [done|]. rewrite Z.mul_comm, <- pow2_split by lia. lia.
Qed.

Lemma below_mono (K K' : Z) (x : spec_float) : K <= K' -> below K x -> below K' x.
Proof.
  intros HK. destruct x as [| | |s m e]; cbn; try done. intros [He Hm]. split; [lia|].
  eapply Z.lt_le_trans; [exact Hm|]. apply Z.pow_le_mono_r; lia.
Qed.

Lemma below_opp (K : Z) (x : spec_float) : below K x -> below K (SFopp x).
Proof. by destruct x. Qed.

(** Rounding a mantissa below [2 ^ K] gives a float below [2 ^ (K + 1)]:
    neither an infinity nor a NaN. *)
Lemma binary_round_aux_below (K : Z) (sx : bool) (mx ex : Z) (lx : location) :
  -1074 <= K <= 970 -> 0 <= mx -> ex <= K -> mx < 2 ^ (K - ex) ->
  below (K + 1) (binary_round_aux 53 1024 sx mx ex lx).
Proof.
  intros HK Hmx Hex Hlt. unfold binary_round_aux.
  pose proof (shr_fexp_spec mx ex lx Hmx) as Hs1.
  destruct (shr_fexp 53 1024 mx ex lx) as [r1 e1]. cbv zeta in Hs1.
  assert (Hd : Zdigits2 mx <= K - ex) by (apply Zdigits2_le; lia).
  set (n1 := Z.max (Zdigits2 mx + ex - 53) (-1074) - ex) in Hs1.
  assert (Hr1 : 0 <= shr_m r1 < 2 ^ (K - e1) /\ -1074 <= e1 <= K).
  { destruct (Z.lt_ge_cases 0 n1) as [Hpos|Hzero].
    - destruct Hs1 as [[-> ->] _]; [done|]. split; [|lia].
      apply div_pow2_lt; [lia|lia|]. replace (K - (ex + n1) + n1) with (K - ex) by lia. lia.
    - destruct Hs1 as [_ [-> ->]]; [lia|]. rewrite shr_m_of_loc. split; lia. }
  destruct Hr1 as [Hr1 He1].
  pose proof (round_nearest_even_bounds (shr_m r1) (loc_of_shr_record r1)) as Hrne.
  set (m2 := round_nearest_even (shr_m r1) (loc_of_shr_record r1)) in *.
  assert (Hm2 : 0 <= m2 < 2 ^ (K + 1 - e1)).
  { split; [lia|]. replace (K + 1 - e1) with (Z.succ (K - e1)) by lia.
    rewrite Z.pow_succ_r by lia. lia. }
  pose proof (shr_fexp_spec m2 e1 loc_Exact ltac:(lia)) as Hs2.
  destruct (shr_fexp 53 1024 m2 e1 loc_Exact) as [r2 e2]. cbv zeta in Hs2.
  assert (Hd2 : Zdigits2 m2 <= K + 1 - e1) by (apply Zdigits2_le; lia).
  set (n2 := Z.max (Zdigits2 m2 + e1 - 53) (-1074) - e1) in Hs2.
  assert (Hr2 : 0 <= shr_m r2 < 2 ^ (K + 1 - e2) /\ e2 <= K).
  { destruct (Z.lt_ge_cases 0 n2) as [Hpos|Hzero].
    - destruct Hs2 as [[-> ->] _]; [done|]. split; [|lia].
      apply div_pow2_lt; [lia|lia|].
      replace (K + 1 - (e1 + n2) + n2) with (K + 1 - e1) by lia. lia.
    - destruct Hs2 as [_ [-> ->]]; [lia|]. cbn [shr_m shr_record_of_loc]. split; lia. }
  destruct Hr2 as [Hr2 He2].
  destruct (shr_m r2) as [|p|p] eqn:Hp; [done| |lia].
  replace (e2 <=? 1024 - 53) with true by lia. cbn. split; lia.
Qed.

Lemma Zdigits2_mono (a b : Z) : 0 < a <= b -> Zdigits2 a <= Zdigits2 b.
Proof.
  intros Hab. destruct (Zdigits2_bounds a) as [_ Hlo]; [lia|]. specialize (Hlo ltac:(lia)).
  pose proof (Zdigits2_nonneg a). destruct (Z.eq_dec (Zdigits2 a) 0) as [->|Hne].
  - apply Zdigits2_nonneg.
  - pose proof (Zdigits2_ge b (Zdigits2 a - 1) ltac:(lia) ltac:(lia)). lia.
Qed.

Lemma Zdigits2_div (m n : Z) :
  0 < m -> 0 <= n <= Zdigits2 m - 1 -> 0 < m / 2 ^ n /\ Zdigits2 m - n <= Zdigits2 (m / 2 ^ n).
Proof.
  intros Hm Hn. destruct (Zdigits2_bounds m) as [_ Hlo]; [lia|]. specialize (Hlo Hm).
  assert (0 < 2 ^ n) by (apply Z.pow_pos_nonneg; lia).
  assert (Hq : 2 ^ (Zdigits2 m - 1 - n) <= m / 2 ^ n).
  { apply Z.div_le_lower_bound; [done|]. rewrite <- pow2_split by lia.
    replace (n + (Zdigits2 m - 1 - n)) with (Zdigits2 m - 1) by lia. done. }
  assert (0 < 2 ^ (Zdigits2 m - 1 - n)) by (apply Z.pow_pos_nonneg; lia).
  split; [lia|]. pose proof (Zdigits2_ge _ _ Hq ltac:(lia)). lia.
Qed.

(** Rounding does not lower the magnitude of a positive mantissa whose
    exponent is not below the least one. *)
Lemma binary_round_aux_above (L : Z) (sx : bool) (mx ex : Z) (lx : location) :
  0 < mx -> -1074 <= ex -> L < Zdigits2 mx + ex ->
  above L (binary_round_aux 53 1024 sx mx ex lx).
Proof.
  intros Hmx Hex HL. unfold binary_round_aux.
  pose proof (shr_fexp_spec mx ex lx ltac:(lia)) as Hs1.
  destruct (shr_fexp 53 1024 mx ex lx) as [r1 e1]. cbv zeta in Hs1.
  pose proof (Zdigits2_ge mx 0 ltac:(cbn; lia) ltac:(lia)) as Hd1.
  set (n1 := Z.max (Zdigits2 mx + ex - 53) (-1074) - ex) in Hs1.
  assert (Hr1 : 0 < shr_m r1 /\ -1074 <= e1 /\ L < Zdigits2 (shr_m r1) + e1).
  { destruct (Z.lt_ge_cases 0 n1) as [Hpos|Hzero].
    - destruct Hs1 as [[-> ->] _]; [done|].
      destruct (Zdigits2_div mx n1 Hmx ltac:(lia)). lia.
    - destruct Hs1 as [_ [-> ->]]; [lia|]. rewrite shr_m_of_loc. lia. }
  destruct Hr1 as (Hr1 & He1 & HL1).
  pose proof (round_nearest_even_bounds (shr_m r1) (loc_of_shr_record r1)) as Hrne.
  set (m2 := round_nearest_even (shr_m r1) (loc_of_shr_record r1)) in *.
  pose proof (Zdigits2_mono (shr_m r1) m2 ltac:(lia)) as Hmono.
  pose proof (shr_fexp_spec m2 e1 loc_Exact ltac:(lia)) as Hs2.
  destruct (shr_fexp 53 1024 m2 e1 loc_Exact) as [r2 e2]. cbv zeta in Hs2.
  pose proof (Zdigits2_ge m2 0 ltac:(cbn; lia) ltac:(lia)) as Hd2.
  set (n2 := Z.max (Zdigits2 m2 + e1 - 53) (-1074) - e1) in Hs2.
  assert (Hr2 : 0 < shr_m r2 /\ L < Zdigits2 (shr_m r2) + e2).
  { destruct (Z.lt_ge_cases 0 n2) as [Hpos|Hzero].
    - destruct Hs2 as [[-> ->] _]; [done|].
      destruct (Zdigits2_div m2 n2 ltac:(lia) ltac:(lia)). lia.
    - destruct Hs2 as [_ [-> ->]]; [lia|]. cbn [shr_m shr_record_of_loc]. lia. }
  destruct Hr2 as [Hr2 HL2].
  destruct (shr_m r2) as [|p|p]; [lia| |lia].
  by destruct (e2 <=? 1024 - 53).
Qed.

Lemma iter_xO_value (m d : positive) : Z.pos (Pos.iter xO m d) = Z.pos m * 2 ^ Z.pos d.
Proof.
  induction d as [|d IH] using Pos.peano_ind.
  - cbn. lia.
  - rewrite Pos.iter_succ, Pos2Z.inj_xO, IH, Pos2Z.inj_succ, Z.pow_succ_r by lia. lia.
Qed.

(** Aligning a mantissa to a smaller exponent keeps the number. *)
Lemma shl_align_value (m : positive) (e e' : Z) :
  let '(mz, ez) := shl_align m e e' in
  ez = Z.min e e' /\ Z.pos mz = Z.pos m * 2 ^ (e - ez).
Proof.
  unfold shl_align. destruct (e' - e) as [|d|d] eqn:Hd.
  - split; [lia|]. rewrite Z.sub_diag. cbn. lia.
  - split; [lia|]. rewrite Z.sub_diag. cbn. lia.
  - split; [lia|]. rewrite iter_xO_value. f_equal. f_equal. lia.
Qed.

Lemma shl_align_below (K : Z) (m : positive) (e e' : Z) :
  e <= K -> Z.pos m < 2 ^ (K - e) ->
  let '(mz, ez) := shl_align m e e' in ez <= K /\ Z.pos mz < 2 ^ (K - ez).
Proof.
  intros He Hm. pose proof (shl_align_value m e e') as Hv.
  destruct (shl_align m e e') as [mz ez]. destruct Hv as [-> ->]. split; [lia|].
  replace (K - Z.min e e') with ((K - e) + (e - Z.min e e')) by lia.
  rewrite pow2_split by lia.
  assert (0 < 2 ^ (e - Z.min e e')) by (apply Z.pow_pos_nonneg; lia). nia.
Qed.

Lemma binary_round_below (K : Z) (s : bool) (m : positive) (e : Z) :
  -1074 <= K <= 970 -> e <= K -> Z.pos m < 2 ^ (K - e) ->
  below (K + 1) (binary_round 53 1024 s m e).
Proof.
  intros HK He Hm. unfold binary_round.
  pose proof (shl_align_below K m e (fexp 53 1024 (Z.pos (digits2_pos m) + e)) He Hm) as Ha.
  destruct (shl_align m e _) as [mz ez]. destruct Ha as [Hez Hmz].
  apply binary_round_aux_below; [done|lia|done|done].
Qed.

Lemma binary_normalize_below (K m e : Z) (s : bool) :
  -1074 <= K <= 970 -> e <= K -> Z.abs m < 2 ^ (K - e) ->
  below (K + 1) (binary_normalize 53 1024 m e s).
Proof.
  intros HK He Hm. destruct m as [|p|p]; cbn [binary_normalize]; [done| |];
    apply binary_round_below; done || lia.
Qed.

Lemma SFmul_below (Kx Ky : Z) (x y : spec_float) :
  -1074 <= Kx + Ky <= 970 -> below Kx x -> below Ky y ->
  below (Kx + Ky + 1) (SFmul 53 1024 x y).
Proof.
  intros HK Hx Hy. destruct x as [sx| | |sx mx ex], y as [sy| | |sy my ey]; cbn in *; try done.
  destruct Hx as [Hex Hmx], Hy as [Hey Hmy].
  apply binary_round_aux_below; [done|lia|lia|].
  rewrite Pos2Z.inj_mul. replace (Kx + Ky - (ex + ey)) with ((Kx - ex) + (Ky - ey)) by lia.
  rewrite pow2_split by lia. nia.
Qed.

Lemma aligned_below (K : Z) (m : positive) (e ez : Z) :
  ez <= e -> e <= K -> Z.pos m < 2 ^ (K - e) ->
  Z.pos (fst (shl_align m e ez)) < 2 ^ (K - ez).
Proof.
  intros Hez He Hm. pose proof (shl_align_below K m e ez He Hm) as Ha.
  pose proof (shl_align_value m e ez) as Hv.
  destruct (shl_align m e ez) as [mz e']. destruct Hv as [-> _]. cbn [fst].
  replace (Z.min e ez) with ez in Ha by lia. tauto.
Qed.

Lemma SFadd_below (K : Z) (x y : spec_float) :
  -1074 <= K <= 968 -> below K x -> below K y -> below (K + 2) (SFadd 53 1024 x y).
Proof.
  intros HK Hx Hy.
  destruct x as [sx| | |sx mx ex], y as [sy| | |sy my ey]; try done.
  - by destruct sx, sy.
  - cbn [SFadd]. by apply below_mono with K; [lia|].
  - cbn [SFadd]. by apply below_mono with K; [lia|].
  - cbn [SFadd]. cbv zeta. destruct Hx as [Hex Hmx], Hy as [Hey Hmy].
    pose proof (aligned_below K mx ex (Z.min ex ey) ltac:(lia) Hex Hmx) as Ha.
    pose proof (aligned_below K my ey (Z.min ex ey) ltac:(lia) Hey Hmy) as Hb.
    replace (K + 2) with (K + 1 + 1) by lia.
    apply binary_normalize_below; [lia|lia|].
    replace (K + 1 - Z.min ex ey) with (Z.succ (K - Z.min ex ey)) by lia.
    rewrite Z.pow_succ_r by lia.
    revert Ha Hb. generalize (fst (shl_align mx ex (Z.min ex ey))) as a.
    generalize (fst (shl_align my ey (Z.min ex ey))) as b.
    intros b a Ha Hb. destruct sx, sy; cbn [cond_Zopp]; lia.
Qed.

Lemma SFsub_below (K : Z) (x y : spec_float) :
  -1074 <= K <= 968 -> below K x -> below K y -> below (K + 2) (SFsub 53 1024 x y).
Proof.
  intros HK Hx Hy.
  destruct x as [sx| | |sx mx ex], y as [sy| | |sy my ey]; try done.
  - by destruct sx, sy.
  - cbn [SFsub]. by apply below_mono with K; [lia|].
  - cbn [SFsub]. by apply below_mono with K; [lia|].
  - cbn [SFsub]. cbv zeta. destruct Hx as [Hex Hmx], Hy as [Hey Hmy].
    pose proof (aligned_below K mx ex (Z.min ex ey) ltac:(lia) Hex Hmx) as Ha.
    pose proof (aligned_below K my ey (Z.min ex ey) ltac:(lia) Hey Hmy) as Hb.
    replace (K + 2) with (K + 1 + 1) by lia.
    apply binary_normalize_below; [lia|lia|].
    replace (K + 1 - Z.min ex ey) with (Z.succ (K - Z.min ex ey)) by lia.
    rewrite Z.pow_succ_r by lia.
    revert Ha Hb. generalize (fst (shl_align mx ex (Z.min ex ey))) as a.
    generalize (fst (shl_align my ey (Z.min ex ey))) as b.
    intros b a Ha Hb. destruct sx, sy; cbn [cond_Zopp]; lia.
Qed.

(** The float operations on floats below a power of two. *)
Lemma mul_below (Kx Ky : Z) (x y : float) :
  -1074 <= Kx + Ky <= 970 -> below Kx (Prim2SF x) -> below Ky (Prim2SF y) ->
  below (Kx + Ky + 1) (Prim2SF (x * y)).
Proof. intros. rewrite mul_spec. by apply SFmul_below. Qed.

Lemma add_below (K : Z) (x y : float) :
  -1074 <= K <= 968 -> below K (Prim2SF x) -> below K (Prim2SF y) ->
  below (K + 2) (Prim2SF (x + y)).
Proof. intros. rewrite add_spec. by apply SFadd_below. Qed.

Lemma sub_below (K : Z) (x y : float) :
  -1074 <= K <= 968 -> below K (Prim2SF x) -> below K (Prim2SF y) ->
  below (K + 2) (Prim2SF (x - y)).
Proof. intros. rewrite sub_spec. by apply SFsub_below. Qed.

Lemma float_of_Z_below (z : Z) : below 64 (Prim2SF (float_of_Z z)).
Proof.
  unfold float_of_Z.
  assert (H : below 64 (Prim2SF (of_uint63 (Uint63.of_Z (Z.abs z))))).
  { rewrite of_uint63_spec.
    pose proof (Uint63.to_Z_bounded (Uint63.of_Z (Z.abs z))) as Hb.
    change Uint63.wB with (2 ^ 63) in Hb.
    apply (binary_normalize_below 63); [lia|lia|]. rewrite Z.sub_0_r. lia. }
  destruct (z <? 0); [|done]. rewrite opp_spec. by apply below_opp.
Qed.

(** [int(x)] is defined on every float below a power of two. *)
Lemma int_of_float_below (K : Z) (x : float) :
  0 <= K -> below K (Prim2SF x) -> exists z, int_of_float x = inr z /\ Z.abs z < 2 ^ K.
Proof.
  intros HK Hx. unfold int_of_float. destruct (Prim2SF x) as [s| | |s m e]; try done.
  - exists 0. split; [done|]. assert (0 < 2 ^ K) by (apply Z.pow_pos_nonneg; lia). lia.
  - destruct Hx as [He Hm]. eexists. split; [done|].
    assert (Hv : 0 <= (if 0 <=? e then Z.shiftl (Z.pos m) e else Z.shiftr (Z.pos m) (- e)) < 2 ^ K).
    { destruct (Z.leb_spec 0 e).
      - rewrite Z.shiftl_mul_pow2 by lia.
        assert (HKe : 2 ^ K = 2 ^ (K - e) * 2 ^ e) by (rewrite <- pow2_split by lia; f_equal; lia).
        assert (0 < 2 ^ e) by (apply Z.pow_pos_nonneg; lia). nia.
      - rewrite Z.shiftr_div_pow2 by lia. apply div_pow2_lt; [lia|lia|].
        replace (K + - e) with (K - e) by lia. lia. }
    destruct s; lia.
Qed.

Lemma unit_below (o : float) : unit_interval o -> below 1 (Prim2SF o).
Proof.
  intros [H0' H1']. revert H0' H1'. rewrite !leb_spec. pose proof (Prim2SF_valid o) as Hvalid.
  change (Prim2SF 0) with (S754_zero false).
  change (Prim2SF 1) with (S754_finite false 4503599627370496 (-52)).
  destruct (Prim2SF o) as [s| | |s m e]; [done| | |].
  - by destruct s.
  - done.
  - intros H0 H1. destruct s; [done|]. unfold SFleb, SFcompare in H1.
    unfold valid_binary, bounded, canonical_mantissa in Hvalid.
    apply andb_prop in Hvalid as [Hc He]. apply Z.eqb_eq in Hc.
    unfold fexp, SpecFloat.emin in Hc. change prec with 53 in Hc. change emax with 1024 in Hc.
    pose proof (digits2_pos_bounds m) as Hd.
    assert (He1 : e <= -52) by (destruct (Z.compare_spec e (-52)); [lia|lia|done]).
    assert (Hd53 : Z.pos (digits2_pos m) <= 53) by lia.
    split; [lia|]. eapply Z.lt_le_trans; [apply Hd|]. apply Z.pow_le_mono_r; lia.
Qed.

Lemma binary_round_above (L : Z) (s : bool) (m : positive) (e : Z) :
  -1074 <= e -> L < Zdigits2 (Z.pos m) + e -> above L (binary_round 53 1024 s m e).
Proof.
  intros He HL. unfold binary_round.
  pose proof (shl_align_value m e (fexp 53 1024 (Z.pos (digits2_pos m) + e))) as Hv.
  assert (Hf : -1074 <= fexp 53 1024 (Z.pos (digits2_pos m) + e)).
  { unfold fexp, SpecFloat.emin. change (3 - 1024 - 53) with (-1074). lia. }
  destruct (shl_align m e _) as [mz ez]. destruct Hv as [Hez Hmz].
  apply binary_round_aux_above; [lia|lia|].
  destruct (Zdigits2_bounds (Z.pos m)) as [_ Hlo]; [lia|]. specialize (Hlo ltac:(lia)).
  pose proof (Zdigits2_ge (Z.pos m) 0 ltac:(cbn; lia) ltac:(lia)).
  assert (Hge : 2 ^ (Zdigits2 (Z.pos m) - 1 + (e - ez)) <= Z.pos mz).
  { rewrite pow2_split, Hmz by lia.
    assert (0 < 2 ^ (e - ez)) by (apply Z.pow_pos_nonneg; lia). nia. }
  pose proof (Zdigits2_ge _ _ Hge ltac:(lia)). lia.
Qed.

(** A positive machine integer converts to a float that is at least 1. *)
Lemma float_of_Z_above (z : Z) : 1 <= z < 2 ^ 63 -> above 0 (Prim2SF (float_of_Z z)).
Proof.
  intros Hz. unfold float_of_Z. replace (z <? 0) with false by lia.
  rewrite of_uint63_spec, Uint63.of_Z_spec. change Uint63.wB with (2 ^ 63).
  rewrite Z.mod_small by lia. destruct (Z.abs z) as [|p|p] eqn:Hp; [lia| |lia].
  cbn [binary_normalize]. apply binary_round_above; [lia|].
  pose proof (Zdigits2_ge (Z.pos p) 0 ltac:(cbn; lia) ltac:(lia)). lia.
Qed.

(** A quotient is below the ratio of the bounds of its operands. *)
Lemma SFdiv_below (Kx L : Z) (x y : spec_float) :
  -1074 <= Kx - L <= 970 -> below Kx x -> above L y ->
  below (Kx - L + 1) (SFdiv 53 1024 x y).
Proof.
  intros HK Hx Hy. destruct x as [sx| | |sx mx ex], y as [sy|sy| |sy my ey]; try done.
  cbn [below above] in Hx, Hy. destruct Hx as [Hex Hmx]. cbn [SFdiv].
  unfold SFdiv_core_binary. cbv zeta.
  set (d1 := Zdigits2 (Z.pos mx)). set (d2 := Zdigits2 (Z.pos my)) in *.
  set (e' := Z.min (fexp 53 1024 (d1 + ex - (d2 + ey))) (ex - ey)).
  set (s := ex - ey - e').
  assert (Hd1 : d1 <= Kx - ex) by (apply Zdigits2_le; lia).
  assert (He' : e' <= Kx - L /\ e' <= ex - ey).
  { unfold e', fexp, SpecFloat.emin. change (3 - 1024 - 53) with (-1074). lia. }
  assert (Hs : 0 <= s) by (unfold s; lia).
  set (m' := match s with Z.pos _ => Z.shiftl (Z.pos mx) s | 0 => Z.pos mx | Z.neg _ => 0 end).
  assert (Hm' : m' = Z.pos mx * 2 ^ s).
  { unfold m'. destruct s as [|p|p] eqn:Hsp; [cbn; lia| |lia].
    by rewrite Z.shiftl_mul_pow2. }
  pose proof (Z_div_mod m' (Z.pos my) ltac:(lia)) as Hdiv.
  destruct (Z.div_eucl m' (Z.pos my)) as [q r]. destruct Hdiv as [Hq Hr].
  destruct (Zdigits2_bounds (Z.pos my)) as [_ Hlo]; [lia|]. specialize (Hlo ltac:(lia)).
  fold d2 in Hlo.
  assert (0 < 2 ^ s) by (apply Z.pow_pos_nonneg; lia).
  assert (Hq0 : 0 <= q) by nia.
  assert (Hm'lt : m' < 2 ^ (Kx - ey - e')).
  { rewrite Hm'. replace (Kx - ey - e') with ((Kx - ex) + s) by (unfold s; lia).
    rewrite pow2_split by lia. nia. }
  assert (Hqlt : q < 2 ^ (Kx - L - e')).
  { assert (Hle : 2 ^ (Kx - ey - e') <= Z.pos my * 2 ^ (Kx - L - e')).
    { assert (0 < 2 ^ (Kx - L - e')) by (apply Z.pow_pos_nonneg; lia).
      destruct (Z.le_gt_cases 0 (L - ey)) as [Hpos|Hneg].
      - replace (Kx - ey - e') with ((L - ey) + (Kx - L - e')) by lia.
        rewrite pow2_split by lia.
        assert (2 ^ (L - ey) <= 2 ^ (d2 - 1)) by (apply Z.pow_le_mono_r; lia). nia.
      - assert (2 ^ (Kx - ey - e') <= 2 ^ (Kx - L - e')) by (apply Z.pow_le_mono_r; lia).
        nia. }
    nia. }
  apply binary_round_aux_below; [done|done|lia|done].
Qed.

Lemma div_below (Kx L : Z) (x y : float) :
  -1074 <= Kx - L <= 970 -> below Kx (Prim2SF x) -> above L (Prim2SF y) ->
  below (Kx - L + 1) (Prim2SF (x / y)).
Proof. intros. rewrite div_spec. by apply SFdiv_below. Qed.

Lemma add_zero_below (K : Z) (x : float) : below K (Prim2SF x) -> below K (Prim2SF (x + 0)).
Proof.
  rewrite add_spec. change (Prim2SF 0) with (S754_zero false).
  destruct (Prim2SF x) as [[]| | |]; done.
Qed.

Lemma one_below : below 1 (Prim2SF 1).
Proof. change (Prim2SF 1) with (S754_finite false 4503599627370496 (-52)). cbn. lia. Qed.

(** Every sample of [np.linspace(0, 1, num)] is a finite float. *)
Lemma linspace01_below (num : Z) :
  num <= 2 ^ 63 ->
  num < 0 \/ exists l, Np.linspace01 num = inr l /\ length l = Z.to_nat num /\
    Forall (fun f => below 67 (Prim2SF f)) l.
Proof.
  intros Hnum. destruct (Z.lt_ge_cases num 0) as [Hneg|Hpos]; [by left|right].
  unfold Np.linspace01. replace (num <? 0) with false by lia.
  eexists. split; [done|].
  set (y0 := float_of_Z <$> seqZ 0 num).
  assert (Hy0 : Forall (fun f => below 64 (Prim2SF f)) y0).
  { apply Forall_fmap, Forall_forall. intros z _. apply float_of_Z_below. }
  assert (Hlen0 : length y0 = Z.to_nat num) by (unfold y0; by rewrite length_fmap, length_seqZ).
  change (1 - 0)%float with 1%float.
  set (y1 := if 0 <? num - 1 then _ else _).
  assert (Hy1 : Forall (fun f => below 67 (Prim2SF f)) y1 /\ length y1 = Z.to_nat num).
  { unfold y1. destruct (Z.ltb_spec 0 (num - 1)) as [Hdiv|Hdiv].
    - pose proof (float_of_Z_above (num - 1) ltac:(lia)) as Habove.
      pose proof (div_below 1 0 1 _ ltac:(lia) one_below Habove) as Hstep.
      destruct (PrimFloat.eqb _ 0).
      + split; [|by rewrite length_fmap]. apply Forall_fmap. eapply Forall_impl; [exact Hy0|].
        intros v Hv. cbn.
        pose proof (div_below 64 0 v _ ltac:(lia) Hv Habove) as Hq.
        exact (mul_below 65 1 _ _ ltac:(lia) Hq one_below).
      + split; [|by rewrite length_fmap]. apply Forall_fmap. eapply Forall_impl; [exact Hy0|].
        intros v Hv. cbn. exact (mul_below 64 2 _ _ ltac:(lia) Hv Hstep).
    - split; [|by rewrite length_fmap]. apply Forall_fmap. eapply Forall_impl; [exact Hy0|].
      intros v Hv. cbn. apply below_mono with (64 + 1 + 1); [lia|].
      exact (mul_below 64 1 _ _ ltac:(lia) Hv one_below). }
  destruct Hy1 as [Hy1 Hlen1].
  set (y2 := (fun v => (v + 0)%float) <$> y1).
  assert (Hy2 : Forall (fun f => below 67 (Prim2SF f)) y2).
  { apply Forall_fmap. eapply Forall_impl; [exact Hy1|]. intros v Hv. by apply add_zero_below. }
  assert (Hlen2 : length y2 = Z.to_nat num) by (unfold y2; by rewrite length_fmap).
  destruct (1 <? num).
  - split; [by rewrite length_insert|]. apply Forall_insert; [done|].
    apply below_mono with 1; [lia|apply one_below].
  - done.
Qed.

(** Both interpolations return on every finite factor. *)
Lemma gradient_channel_total (c1 c2 : Z) (f : float) :
  below 67 (Prim2SF f) -> exists z, gradient_channel c1 c2 f = inr z.
Proof.
  intros Hf. unfold gradient_channel.
  pose proof (sub_below 67 1 f ltac:(lia) (below_mono 1 67 _ ltac:(lia) one_below) Hf) as H1.
  pose proof (mul_below 64 69 _ _ ltac:(lia) (float_of_Z_below c1) H1) as H2.
  pose proof (mul_below 64 67 _ _ ltac:(lia) (float_of_Z_below c2) Hf) as H3.
  pose proof (add_below 134 _ _ ltac:(lia) H2 (below_mono 132 134 _ ltac:(lia) H3)) as H4.
  destruct (int_of_float_below 136 _ ltac:(lia) H4) as (z & Hz & _). by exists z.
Qed.

Lemma interpolate_channel_total (c1 c2 : Z) (f : float) :
  below 67 (Prim2SF f) -> exists z, Helpers.interpolate_channel c1 c2 f = inr z.
Proof.
  intros Hf. unfold Helpers.interpolate_channel.
  pose proof (mul_below 67 64 _ _ ltac:(lia) Hf (float_of_Z_below (c2 - c1))) as H1.
  pose proof (add_below 132 _ _ ltac:(lia)
    (below_mono 64 132 _ ltac:(lia) (float_of_Z_below c1)) H1) as H2.
  destruct (int_of_float_below 134 _ ltac:(lia) H2) as (z & Hz & _). by exists z.
Qed.

Lemma clip8_byte (v : Z) : is_byte v -> clip8 v = v.
Proof.
  unfold is_byte, clip8. intros Hv.
  destruct (Z.leb_spec v 0); [lia|]. destruct (Z.ltb_spec v 256); lia.
Qed.

(** A float in the unit interval is zero or a positive float that is at
    most 1. *)
Lemma unit_le_one (o : float) :
  unit_interval o ->
  match Prim2SF o with
  | S754_zero _ => True
  | S754_finite s m e => s = false /\ e <= -52 /\ Z.pos m <= 2 ^ (- e)
  | _ => False
  end.
Proof.
  intros [H0 H1]. revert H0 H1. rewrite !leb_spec. pose proof (Prim2SF_valid o) as Hvalid.
  change (Prim2SF 0) with (S754_zero false).
  change (Prim2SF 1) with (S754_finite false 4503599627370496 (-52)).
  destruct (Prim2SF o) as [s| | |s m e]; [done| | |].
  - by destruct s.
  - done.
  - intros H0 H1. destruct s; [done|]. unfold SFleb, SFcompare in H1.
    unfold valid_binary, bounded, canonical_mantissa in Hvalid.
    apply andb_prop in Hvalid as [Hc He]. apply Z.eqb_eq in Hc.
    unfold fexp, SpecFloat.emin in Hc. change prec with 53 in Hc. change emax with 1024 in Hc.
    pose proof (digits2_pos_bounds m) as Hd.
    split; [done|]. destruct (Z.compare_spec e (-52)) as [->|Hlt|Hgt]; [| |done].
    + split; [lia|].
      rewrite Pos.compare_cont_spec in H1.
      assert (Hp : 2 ^ (- (-52)) = 4503599627370496) by (vm_compute; reflexivity).
      rewrite Hp. clear Hd Hc Hp H0 He.
      destruct (m ?= 4503599627370496)%positive eqn:Hcmp.
      * apply Pos.compare_eq in Hcmp. rewrite Hcmp. apply Z.le_refl.
      * apply Pos.compare_lt_iff in Hcmp. apply Pos2Z.pos_lt_pos in Hcmp. apply Z.lt_le_incl, Hcmp.
      * discriminate H1.
    + split; [lia|].
      assert (2 ^ Z.pos (digits2_pos m) <= 2 ^ (- e)) by (apply Z.pow_le_mono_r; lia). lia.
Qed.

(** Rounding a mantissa that denotes at most the integer [c] gives a
    float below [c + 1], of the same sign. *)
Lemma binary_round_aux_int_bound (c K : Z) (sx : bool) (mx ex : Z) (lx : location) :
  0 <= K <= 52 -> 0 <= c < 2 ^ K -> 0 <= mx -> ex < 0 -> mx <= c * 2 ^ (- ex) ->
  match binary_round_aux 53 1024 sx mx ex lx with
  | S754_zero _ => True
  | S754_finite s m e => s = sx /\ e < 0 /\ Z.pos m < (c + 1) * 2 ^ (- e)
  | _ => False
  end.
Proof.
  intros HK Hc Hmx Hex Hle. unfold binary_round_aux.
  pose proof (shr_fexp_spec mx ex lx Hmx) as Hs1.
  destruct (shr_fexp 53 1024 mx ex lx) as [r1 e1]. cbv zeta in Hs1.
  assert (Hpow : forall e, e < 0 -> 2 <= 2 ^ (- e)).
  { intros e He. change 2 with (2 ^ 1) at 1. apply Z.pow_le_mono_r; lia. }
  assert (Hlt : forall m e, e < 0 -> m < (c + 1) * 2 ^ (- e) -> m < 2 ^ (K - e)).
  { intros m e He Hm. replace (K - e) with (K + - e) by lia. rewrite pow2_split by lia.
    pose proof (Hpow e He). nia. }
  assert (Hd : Zdigits2 mx <= K - ex).
  { apply Zdigits2_le; [lia|]. split; [done|]. apply Hlt; [done|]. pose proof (Hpow ex Hex). nia. }
  set (n1 := Z.max (Zdigits2 mx + ex - 53) (-1074) - ex) in Hs1.
  assert (Hr1 : 0 <= shr_m r1 <= c * 2 ^ (- e1) /\ -1074 <= e1 < 0).
  { destruct (Z.lt_ge_cases 0 n1) as [Hpos|Hzero].
    - destruct Hs1 as [[-> ->] _]; [done|]. split; [|lia].
      assert (0 < 2 ^ n1) by (apply Z.pow_pos_nonneg; lia).
      split; [apply Z.div_pos; lia|]. apply Z.div_le_upper_bound; [done|].
      replace (- ex) with (n1 + - (ex + n1)) in Hle by lia.
      rewrite pow2_split in Hle by lia. lia.
    - destruct Hs1 as [_ [-> ->]]; [lia|]. rewrite shr_m_of_loc. split; lia. }
  destruct Hr1 as [Hr1 He1].
  pose proof (round_nearest_even_bounds (shr_m r1) (loc_of_shr_record r1)) as Hrne.
  set (m2 := round_nearest_even (shr_m r1) (loc_of_shr_record r1)) in *.
  assert (Hm2 : 0 <= m2 < (c + 1) * 2 ^ (- e1)).
  { pose proof (Hpow e1 ltac:(lia)). split; [lia|nia]. }
  pose proof (shr_fexp_spec m2 e1 loc_Exact ltac:(lia)) as Hs2.
  destruct (shr_fexp 53 1024 m2 e1 loc_Exact) as [r2 e2]. cbv zeta in Hs2.
  assert (Hd2 : Zdigits2 m2 <= K - e1).
  { apply Zdigits2_le; [lia|]. split; [lia|]. apply Hlt; lia. }
  set (n2 := Z.max (Zdigits2 m2 + e1 - 53) (-1074) - e1) in Hs2.
  assert (Hr2 : 0 <= shr_m r2 < (c + 1) * 2 ^ (- e2) /\ e2 < 0).
  { destruct (Z.lt_ge_cases 0 n2) as [Hpos|Hzero].
    - destruct Hs2 as [[-> ->] _]; [done|]. split; [|lia].
      assert (0 < 2 ^ n2) by (apply Z.pow_pos_nonneg; lia).
      split; [apply Z.div_pos; lia|]. apply Z.div_lt_upper_bound; [done|].
      destruct Hm2 as [_ Hm2]. replace (- e1) with (n2 + - (e1 + n2)) in Hm2 by lia.
      rewrite pow2_split in Hm2 by lia. lia.
    - destruct Hs2 as [_ [-> ->]]; [lia|]. cbn [shr_m shr_record_of_loc]. split; lia. }
  destruct Hr2 as [Hr2 He2].
  destruct (shr_m r2) as [|p|p] eqn:Hp; [done| |lia].
  replace (e2 <=? 1024 - 53) with true by lia. cbn. repeat split; lia.
Qed.

(** [int(255 * opacity)] is a byte for every opacity in [0, 1]. *)
Lemma int_255_times_unit (o : float) :
  unit_interval o ->
  exists a, int_of_float (255 * o)%float = inr a /\ is_byte a.
Proof.
  intros Ho%unit_le_one. unfold int_of_float, is_byte. rewrite mul_spec.
  change (Prim2SF 255) with (S754_finite false 8972014882652160 (-45)).
  destruct (Prim2SF o) as [s| | |s m e]; [|done|done|].
  - exists 0. split; [done|lia].
  - destruct Ho as (-> & He & Hm). unfold SF64mul. cbn [SFmul xorb].
    change prec with 53. change emax with 1024.
    assert (H8 : 0 <= 255 < 2 ^ 8) by (split; [lia|reflexivity]).
    assert (Hmx : Z.pos (8972014882652160 * m) <= 255 * 2 ^ (- (-45 + e))).
    { rewrite Pos2Z.inj_mul.
      replace (- (-45 + e)) with (45 + - e) by lia. rewrite pow2_split by lia.
      assert (Hp : 2 ^ 45 = 35184372088832) by (vm_compute; reflexivity).
      rewrite Hp. lia. }
    pose proof (binary_round_aux_int_bound 255 8 false
                  (Z.pos (8972014882652160 * m)) (-45 + e) loc_Exact
                  ltac:(lia) H8 ltac:(lia) ltac:(lia) Hmx) as Hb.
    destruct (binary_round_aux 53 1024 false _ _ _) as [s'| | |s' m' e']; [|done|done|].
    + exists 0. split; [done|lia].
    + destruct Hb as (-> & He' & Hm').
      replace (0 <=? e') with false by lia. eexists. split; [done|].
      rewrite Z.shiftr_div_pow2 by lia.
      assert (0 < 2 ^ (- e')) by (apply Z.pow_pos_nonneg; lia).
      split; [apply Z.div_pos; lia|].
      assert (Z.pos m' / 2 ^ (- e') < 256); [|lia].
      apply Z.div_lt_upper_bound; [done|]. lia.
Qed.

Section WithFilters.
Context {F : Filters}.

Lemma eqb_known_false (name known : string) :
  name ∉ known_effects -> known ∈ known_effects -> String.eqb name known = false.
Proof.
  intros Hn Hk. apply String.eqb_neq. intros ->. contradiction.
Qed.

Lemma apply_effect_unknown (t : BannerTransformer) (name : string) (params : pyval) (w : world) :
  name ∉ known_effects -> apply_effect t (name, params) w = (inr t, w).
Proof.
  intros Hn. unfold apply_effect.
  rewrite !(eqb_known_false name) by (assumption || (unfold known_effects; repeat constructor)).
  reflexivity.
Qed.

(** Claim C10.  [apply_effects] skips an entry whose name is none of
    blur, shadow, border and glow: the turn of the loop for that entry
    raises nothing and returns the transformer and the world it was
    given, whatever the parameters of the entry are, so the whole loop
    does what it does on the dict without the entry. *)
Theorem apply_effects_skips_unknown_entry
    (t : BannerTransformer) (name : string) (params : pyval)
    (before after : pydict) (w : world) :
  name ∉ known_effects ->
  apply_effect t (name, params) w = (inr t, w) /\
  apply_effects t (before ++ (name, params) :: after) w = apply_effects t (before ++ after) w.
Proof.
  intros Hn. split; [by apply apply_effect_unknown|].
  unfold apply_effects. rewrite !forM_app.
  destruct (forM before apply_effect t w) as [[e|t'] w']; [reflexivity|].
  rewrite forM_cons. by rewrite apply_effect_unknown.
Qed.

(** ** Validation of a request *)

Lemma validate_banner_request_present
    (request_data : gmap string pyval) (wv hv sv : pyval) (width height : Z) :
  request_data !! "width" = Some wv ->
  request_data !! "height" = Some hv ->
  request_data !! "style" = Some sv ->
  int_ wv = inr width ->
  int_ hv = inr height ->
  validate_banner_request request_data =
    if (width <=? 0) || (height <=? 0)
    then inl (ValueError "Width and height must be positive numbers")
    else if (4000 <? width) || (4000 <? height)
    then inl (ValueError "Maximum dimensions exceeded (4000x4000)")
    else inr (width, height, sv).
Proof.
  intros Hw Hh Hs Hwi Hhi.
  unfold validate_banner_request, required_fields, field. cbn [for_].
  rewrite Hw, Hh, Hs. cbn [bind ret mbind res_bind default id].
  rewrite Hwi, Hhi. reflexivity.
Qed.

(** Claim C6.  A request whose width or height is at most 0 or above
    4000 is refused by [validate_banner_request] with a [ValueError] (the
    error the specification calls InvalidDimensionsError), which the route
    answers with status 400; the world is the one the route was entered
    with, so no image, the canvas included, has been created. *)
Theorem invalid_dimensions_fail_before_allocation
    (request_data : gmap string pyval) (wv hv : pyval) (width height : Z) (w : world) :
  request_data !! "width" = Some wv ->
  request_data !! "height" = Some hv ->
  is_Some (request_data !! "style") ->
  int_ wv = inr width ->
  int_ hv = inr height ->
  width <= 0 \/ height <= 0 \/ 4000 < width \/ 4000 < height ->
  exists msg : string,
    validate_banner_request request_data = inl (ValueError msg) /\
    generate_banner request_data w = (Error400 msg, w).
Proof.
  intros Hw Hh [sv Hs] Hwi Hhi Hbad.
  pose proof (validate_banner_request_present _ _ _ _ _ _ Hw Hh Hs Hwi Hhi) as Hv.
  unfold generate_banner, run_pipeline. unfold mbind at 1, M_bind at 1, lift at 1.
  rewrite Hv.
  destruct ((width <=? 0) || (height <=? 0)) eqn:Hneg; [by eexists|].
  destruct ((4000 <? width) || (4000 <? height)) eqn:Hbig; [by eexists|].
  apply orb_false_elim in Hneg as [? ?], Hbig as [? ?]. lia.
Qed.

(** ** The pipeline after validation *)

Lemma validate_banner_request_accepts
    (request_data : gmap string pyval) (wv hv sv : pyval) (width height : Z) :
  request_data !! "width" = Some wv ->
  request_data !! "height" = Some hv ->
  request_data !! "style" = Some sv ->
  int_ wv = inr width ->
  int_ hv = inr height ->
  0 < width <= 4000 -> 0 < height <= 4000 ->
  validate_banner_request request_data = inr (width, height, sv).
Proof.
  intros Hw Hh Hs Hwi Hhi Hwr Hhr.
  rewrite (validate_banner_request_present _ _ _ _ _ _ Hw Hh Hs Hwi Hhi).
  replace (width <=? 0) with false by lia. replace (height <=? 0) with false by lia.
  replace (4000 <? width) with false by lia. replace (4000 <? height) with false by lia.
  reflexivity.
Qed.

Lemma render_unfold (width height : Z) (style : pyval) (w : world) :
  0 <= width -> 0 <= height ->
  render width height style w =
  match resolve_preset style with
  | inl e => (inl e, allocate (base_image width height) w)
  | inr style_preset =>
      match apply_style_preset style_preset (__init__ (base_image width height))
              (allocate (base_image width height) w) with
      | (inl e, w') => (inl e, w')
      | (inr t, w') => (inr (get_image t), w')
      end
  end.
Proof.
  intros Hw Hh. unfold render. rewrite new_RGBA_ok by lia.
  rewrite bind_creating, bind_lift. fold (base_image width height).
  destruct (resolve_preset style) as [e|p]; [reflexivity|].
  rewrite bind_M. by destruct (apply_style_preset p _ _) as [[e|t] w'].
Qed.

Lemma generate_banner_unfold
    (request_data : gmap string pyval) (width height : Z) (style : pyval) (w : world) :
  validate_banner_request request_data = inr (width, height, style) ->
  generate_banner request_data w =
  match render width height style w with
  | (inr banner, w') => (Ok200 banner width height, w')
  | (inl (ValueError msg), w') => (Error400 msg, w')
  | (inl (IllTyped _), w') => (Unmodelled, w')
  | (inl _, w') => (Error500, w')
  end.
Proof.
  intros Hv. unfold generate_banner, run_pipeline.
  unfold mbind at 1, M_bind at 1, lift at 1. rewrite Hv.
  unfold mbind, M_bind. destruct (render width height style w) as [[e|b] w']; reflexivity.
Qed.

(** ** The preset [vintage] *)

Lemma apply_texture_kw_vintage (t : BannerTransformer) (w : world) :
  apply_texture_kw t (PDict [("type", PStr "paper"); ("opacity", PFloat 0.2)]) w =
  (inl (TypeError "apply_texture() got an unexpected keyword argument 'type'"), w).
Proof. reflexivity. Qed.

Lemma apply_style_preset_vintage (t : BannerTransformer) (w : world) :
  apply_style_preset (PDict vintage) t w =
  (inl (TypeError "apply_texture() got an unexpected keyword argument 'type'"), w).
Proof. reflexivity. Qed.

(** Claim C2, at the preset [vintage].  For every valid size the run of
    the preset [vintage] stops at its texture stage: the preset spells
    the kind of the texture [type], [apply_texture] names its parameter
    [texture_type], and the call with the entries of the dict as keyword
    arguments raises [TypeError].  Only the base image has been created;
    no overlay, texture or border is applied and the route answers with
    status 500. *)
Theorem vintage_preset_raises
    (request_data : gmap string pyval) (wv hv : pyval) (width height : Z) (w : world) :
  request_data !! "width" = Some wv ->
  request_data !! "height" = Some hv ->
  request_data !! "style" = Some (PStr "vintage") ->
  int_ wv = inr width ->
  int_ hv = inr height ->
  0 < width <= 4000 -> 0 < height <= 4000 ->
  render width height (PStr "vintage") w =
    (inl (TypeError "apply_texture() got an unexpected keyword argument 'type'"),
     allocate (base_image width height) w) /\
  generate_banner request_data w = (Error500, allocate (base_image width height) w).
Proof.
  intros Hw Hh Hs Hwi Hhi Hwr Hhr.
  assert (Hr : render width height (PStr "vintage") w =
    (inl (TypeError "apply_texture() got an unexpected keyword argument 'type'"),
     allocate (base_image width height) w)).
  { rewrite render_unfold by lia.
    change (resolve_preset (PStr "vintage")) with (inr (PDict vintage) : res pyval).
    cbv iota beta. by rewrite apply_style_preset_vintage. }
  split; [exact Hr|].
  rewrite (generate_banner_unfold _ width height (PStr "vintage")), Hr; [reflexivity|].
  by eapply validate_banner_request_accepts.
Qed.

(** ** Names that are attributes of the class but not presets *)


Lemma resolve_preset_doc :
  resolve_preset (PStr "__doc__") = inl (TypeError "object is not callable").
Proof. reflexivity. Qed.



(** The style table of [helpers.py] does fall back on every other name. *)
Lemma get_banner_style_config_fallback (style : string) :
  style ∉ ["modern"; "vintage"; "minimalist"; "bold"] ->
  Helpers.get_banner_style_config style = Helpers.get_banner_style_config "modern".
Proof.
  rewrite !not_elem_of_cons. intros (H1 & H2 & H3 & H4 & _).
  unfold Helpers.get_banner_style_config, dict_get_default, Helpers.styles.
  cbn [dict_item dict_get]. apply not_eq_sym, String.eqb_neq in H1, H2, H3, H4.
  by rewrite H1, H2, H3, H4.
Qed.

(** The name [mro] is found on the class as well: the call returns the
    list of the classes, none of the four stages finds its key in it, and
    the route answers with the untouched base image. *)
Lemma mro_style_gives_base_image (width height : Z) (w : world) :
  0 <= width -> 0 <= height ->
  render width height (PStr "mro") w =
  (inr (base_image width height), allocate (base_image width height) w).
Proof. intros Hw Hh. by rewrite render_unfold by lia. Qed.

(** Claim C1, at the style name [__doc__].  The name is none of the four
    presets, yet [getattr] finds it on the class (it is the docstring):
    the default [StylePresets.modern] is not used, calling the string
    raises [TypeError], and for every valid size the route answers with
    status 500, whereas the name [modern] resolves to the plan
    [modern]. *)
Theorem dunder_doc_style_raises
    (request_data : gmap string pyval) (wv hv : pyval) (width height : Z) (w : world) :
  request_data !! "width" = Some wv ->
  request_data !! "height" = Some hv ->
  request_data !! "style" = Some (PStr "__doc__") ->
  int_ wv = inr width ->
  int_ hv = inr height ->
  0 < width <= 4000 -> 0 < height <= 4000 ->
  ("__doc__" ∉ ["modern"; "vintage"; "minimalist"; "bold"]) /\
  resolve_preset (PStr "__doc__") = inl (TypeError "object is not callable") /\
  resolve_preset (PStr "modern") = inr (PDict modern) /\
  generate_banner request_data w = (Error500, allocate (base_image width height) w).
Proof.
  intros Hw Hh Hs Hwi Hhi Hwr Hhr.
  split; [rewrite !not_elem_of_cons; repeat split; (discriminate || apply not_elem_of_nil)|].
  split; [reflexivity|]. split; [reflexivity|].
  rewrite (generate_banner_unfold _ width height (PStr "__doc__"))
    by (by eapply validate_banner_request_accepts).
  rewrite render_unfold by lia. reflexivity.
Qed.

(** ** Compositing with a transparent or an opaque top pixel *)

Lemma byte_cases (P : Z -> bool) :
  forallb P (seqZ 0 256) = true -> forall z, 0 <= z <= 255 -> P z = true.
Proof.
  intros H z Hz. rewrite forallb_forall in H. apply H.
  apply list_elem_of_In, elem_of_seqZ. lia.
Qed.

Lemma composite_pixel_transparent (dst : rgba) (r g b : Z) :
  composite_pixel dst (r, g, b, 0) = dst.
Proof. by destruct dst as [[[dr dg] db] da]. Qed.

Lemma opaque_band_id (s : Z) : 0 <= s <= 255 -> opaque_band s = s.
Proof.
  intros Hs. apply Z.eqb_eq.
  apply (byte_cases (fun s => opaque_band s =? s)); [by vm_compute|done].
Qed.

Lemma composite_pixel_opaque (dst : rgba) (r g b : Z) :
  0 <= r <= 255 -> 0 <= g <= 255 -> 0 <= b <= 255 ->
  composite_pixel dst (r, g, b, 255) = (r, g, b, 255).
Proof.
  intros Hr Hg Hb. destruct dst as [[[dr dg] db] da].
  unfold composite_pixel. cbn [Z.eqb].
  replace (da * (255 - 255)) with 0 by lia.
  change (u32 0) with 0. change (u32 (255 * 255 + 0)) with 65025.
  change (u32 (255 * 255 * 255 * Z.shiftl 1 PRECISION_BITS) / 65025) with 32640.
  change (u32 (255 * Z.shiftl 1 PRECISION_BITS - 32640)) with 0.
  change (Z.shiftl 128 PRECISION_BITS) with 16384.
  change (u8 (shift_for_div255 (u32 (65025 + 128)))) with 255.
  rewrite !Z.mul_0_r.
  change PRECISION_BITS with 7.
  fold (opaque_band r). fold (opaque_band g). fold (opaque_band b).
  by rewrite !opaque_band_id.
Qed.

(** ** The invariant of the class and the flat overlay *)

Lemma canvas_ok_data (t : BannerTransformer) :
  canvas_ok t ->
  exists px, image t = mkImage (width t, height t) (Rgba px) /\
             0 <= width t /\ 0 <= height t /\
             Z.of_nat (length px) = width t * height t.
Proof.
  intros (Hm & Hs & Hw0 & Hh0 & Hn). destruct t as [[sz d] wd ht].
  cbn in *. subst sz. unfold mode, npixels in *. cbn in *.
  destruct d as [px|px]; [discriminate|]. by exists px.
Qed.

Lemma pixel_coordinates (w h : Z) (i : nat) :
  Z.of_nat i < w * h -> 0 <= w -> 0 <= h ->
  0 <= Z.of_nat i mod w < w /\ 0 <= Z.of_nat i / w < h.
Proof.
  intros Hi Hw Hh. assert (0 < w) by nia.
  split; [by apply Z.mod_pos_bound|].
  split; [apply Z.div_pos; lia|apply Z.div_lt_upper_bound; lia].
Qed.

Lemma draw_rectangle_fill_whole (w h : Z) (px : list rgba) (ink : rgba) :
  0 <= w -> 0 <= h -> Z.of_nat (length px) = w * h ->
  draw_rectangle_fill (mkImage (w, h) (Rgba px)) 0 0 w h ink =
  inr (mkImage (w, h) (Rgba (replicate (length px) (getink ink)))).
Proof.
  intros Hw Hh Hn. unfold draw_rectangle_fill. cbn [size data fst snd].
  replace (w <? 0) with false by lia. replace (h <? 0) with false by lia.
  unfold ret. do 3 f_equal.
  rewrite <- (const_fmap (fun _ => getink ink)) by done.
  rewrite <- imap_const. apply imap_ext. intros i p Hi.
  apply lookup_lt_Some in Hi.
  destruct (pixel_coordinates w h i) as [[? ?] [? ?]]; [lia..|].
  unfold const.
  replace (0 <=? Z.of_nat i mod w) with true by lia.
  replace (Z.of_nat i mod w <=? w) with true by lia.
  replace (0 <=? Z.of_nat i / w) with true by lia.
  replace (Z.of_nat i / w <=? h) with true by lia.
  reflexivity.
Qed.

Lemma alpha_composite_flat (sz : Z * Z) (px : list rgba) (top : rgba) :
  alpha_composite (mkImage sz (Rgba px)) (mkImage sz (Rgba (replicate (length px) top))) =
  inr (mkImage sz (Rgba ((fun p => composite_pixel p top) <$> px))).
Proof.
  unfold alpha_composite. cbn [data size]. rewrite decide_True by done.
  by rewrite zip_with_replicate_r_eq.
Qed.

Lemma int_of_float_255_0 : int_of_float (255 * 0)%float = inr 0.
Proof. reflexivity. Qed.

Lemma int_of_float_255_1 : int_of_float (255 * 1)%float = inr 255.
Proof. reflexivity. Qed.

Lemma apply_overlay_unfold (t : BannerTransformer) (color : string) (opacity : float)
    (r g b alpha : Z) (px : list rgba) (w : world) :
  image t = mkImage (width t, height t) (Rgba px) ->
  0 <= width t -> 0 <= height t -> Z.of_nat (length px) = width t * height t ->
  hex_rgb color = inr (r, g, b) ->
  int_of_float (255 * opacity)%float = inr alpha ->
  apply_overlay t color opacity w =
  (inr (set_image t (mkImage (width t, height t)
          (Rgba ((fun p => composite_pixel p (getink (r, g, b, alpha))) <$> px)))),
   allocate (image t) (allocate (image t) w)).
Proof.
  intros Him Hw Hh Hn Hc Ha. unfold apply_overlay.
  rewrite new_RGBA_ok by lia. rewrite bind_creating, bind_lift, Hc.
  cbv iota beta. rewrite bind_lift, Ha. cbv iota beta.
  replace (Z.to_nat (width t * height t)) with (length px) by lia.
  rewrite bind_lift.
  rewrite (draw_rectangle_fill_whole _ _ (replicate (length px) _))
    by (rewrite ?length_replicate; lia).
  rewrite length_replicate. rewrite Him, alpha_composite_flat.
  rewrite bind_creating. reflexivity.
Qed.

(** Claim C7.  On every canvas, an overlay of opacity 0 returns the
    transformer unchanged (every pixel is exactly what it was), and an
    overlay of opacity 1 leaves every pixel equal to the colour of the
    overlay at alpha 255. *)
Theorem overlay_opacity_zero_and_one
    (t : BannerTransformer) (color : string) (r g b : Z) (w : world) :
  canvas_ok t ->
  hex_rgb color = inr (r, g, b) ->
  0 <= r <= 255 -> 0 <= g <= 255 -> 0 <= b <= 255 ->
  (exists w', apply_overlay t color 0 w = (inr t, w')) /\
  (exists t' w', apply_overlay t color 1 w = (inr t', w') /\
     canvas_ok t' /\ width t' = width t /\ height t' = height t /\
     data (image t') = Rgba (replicate (npixels (image t)) (r, g, b, 255))).
Proof.
  intros Hok Hc Hr Hg Hb.
  destruct (canvas_ok_data t Hok) as (px & Him & Hw & Hh & Hn).
  split.
  - eexists. rewrite (apply_overlay_unfold t color 0 r g b 0 px) by done.
    f_equal. f_equal. destruct t as [im wd ht]. cbn in *. subst im.
    unfold set_image. cbn. do 3 f_equal.
    rewrite <- (list_fmap_id px) at 2. apply list_fmap_ext.
    intros i p _. apply composite_pixel_transparent.
  - do 2 eexists. rewrite (apply_overlay_unfold t color 1 r g b 255 px) by done.
    split; [reflexivity|].
    assert (Hpx : (fun p => composite_pixel p (getink (r, g, b, 255))) <$> px =
                  replicate (length px) (r, g, b, 255)).
    { apply const_fmap. intros i p _. unfold getink, clip8.
      replace (r <=? 0) with (r =? 0) by lia. replace (g <=? 0) with (g =? 0) by lia.
      replace (b <=? 0) with (b =? 0) by lia.
      replace (r <? 256) with true by lia. replace (g <? 256) with true by lia.
      replace (b <? 256) with true by lia. cbn [Z.leb Z.ltb Z.compare].
      replace (if r =? 0 then 0 else r) with r by (destruct (Z.eqb_spec r 0); lia).
      replace (if g =? 0 then 0 else g) with g by (destruct (Z.eqb_spec g 0); lia).
      replace (if b =? 0 then 0 else b) with b by (destruct (Z.eqb_spec b 0); lia).
      by apply composite_pixel_opaque. }
    rewrite Hpx. unfold canvas_ok, wf, mode, npixels, set_image. cbn.
    rewrite Him. cbn. rewrite length_replicate. repeat split; done.
Qed.

(** ** A texture kind that is none of the three *)

Lemma still_filters_keep_shape : filters_keep_shape still_filters.
Proof. split; cbn; unfold ret; intros; simplify_eq; done. Qed.

Lemma putalpha_flat (sz : Z * Z) (n : nat) (r g b a alpha : Z) :
  - 2 ^ 31 <= alpha < 2 ^ 31 ->
  putalpha (mkImage sz (Rgba (replicate n (r, g, b, a)))) alpha =
  inr (mkImage sz (Rgba (replicate n (r, g, b, clip8 alpha)))).
Proof.
  intros Ha. unfold putalpha.
  replace (alpha <? - 2 ^ 31) with false by lia.
  replace (2 ^ 31 <=? alpha) with false by lia.
  cbn. by rewrite fmap_replicate.
Qed.

Lemma apply_texture_unknown (t : BannerTransformer) (kind : string) (opacity : float)
    (alpha : Z) (w : world) :
  kind ∉ texture_kinds ->
  canvas_ok t ->
  int_of_float (255 * opacity)%float = inr alpha ->
  - 2 ^ 31 <= alpha < 2 ^ 31 ->
  apply_texture t kind opacity w =
  (inr (set_image t (flat_layer_over (0, 0, 0, clip8 alpha) (image t))),
   allocate (image t) (allocate (image t) (allocate (image t) w))).
Proof.
  intros Hk Hok Ha Hr.
  destruct (canvas_ok_data t Hok) as (px & Him & Hw & Hh & Hn).
  unfold apply_texture. rewrite new_RGBA_ok by lia. rewrite bind_creating.
  assert (Hne : forall k, k ∈ texture_kinds -> String.eqb kind k = false).
  { intros k Hin. apply String.eqb_neq. intros ->. contradiction. }
  rewrite !Hne by (unfold texture_kinds; repeat constructor).
  rewrite bind_M. cbn [mret M_ret]. unfold convert_RGBA. cbn [data].
  unfold ret. rewrite bind_creating, bind_lift, Ha. cbv iota beta.
  unfold getink. cbn [clip8 Z.leb Z.compare].
  rewrite bind_lift, putalpha_flat by done.
  replace (Z.to_nat (width t * height t)) with (length px) by lia.
  unfold flat_layer_over. rewrite Him. cbn [data size].
  rewrite alpha_composite_flat, bind_creating. reflexivity.
Qed.

(** Claim C5, amended.  For every texture kind other than noise, grain
    and paper, and every opacity in [0, 1], [apply_texture] does not
    fail and draws no random number: the texture is the image it starts
    from, black in every pixel, with alpha [int(255 * opacity)], a byte,
    composited over the canvas. *)
Theorem unknown_texture_kind_gives_flat_black_layer
    (t : BannerTransformer) (kind : string) (opacity : float) (w : world) :
  kind ∉ texture_kinds ->
  canvas_ok t ->
  unit_interval opacity ->
  exists (a : Z) (w' : world),
    int_of_float (255 * opacity)%float = inr a /\ is_byte a /\
    apply_texture t kind opacity w =
      (inr (set_image t (flat_layer_over (0, 0, 0, a) (image t))), w') /\
    rand_pos w' = rand_pos w.
Proof.
  intros Hk Hok Ho. destruct (int_255_times_unit opacity Ho) as (a & Ha & Hb).
  exists a. eexists. split; [done|]. split; [done|].
  split.
  - rewrite <- (clip8_byte a Hb) at 1.
    apply apply_texture_unknown; [done..|]. unfold is_byte in Hb. lia.
  - reflexivity.
Qed.

(** Claim C5 as stated fails: a kind that fell back to the noise
    generator would give what the kind [noise] gives; on an opaque white
    pixel, with a generator whose draws are all 200 and opacity 1, the
    kind [marble] leaves black and the kind [noise] leaves grey. *)
Lemma unknown_texture_kind_is_not_noise :
  ~ (forall (F' : Filters) (t : BannerTransformer) (kind : string) (opacity : float) (w : world),
       kind ∉ texture_kinds ->
       @apply_texture F' t kind opacity w = @apply_texture F' t "noise" opacity w).
Proof.
  assert (Hk : "marble" ∉ texture_kinds).
  { unfold texture_kinds. rewrite !not_elem_of_cons.
    repeat split; (discriminate || apply not_elem_of_nil). }
  intros H.
  specialize (H still_filters white_pixel "marble" 1%float draws_200 Hk).
  vm_compute in H. discriminate H.
Qed.

(** ** Loops *)

Lemma for_ext {A S} (l : list A) (body body' : S -> A -> res S) (s : S) :
  (forall s a, body s a = body' s a) -> for_ l body s = for_ l body' s.
Proof.
  intros Hb. revert s. induction l as [|a l IH]; intros s; cbn; [done|].
  rewrite Hb. destruct (body' s a); cbn; auto.
Qed.

Lemma for_snoc {A S} (l : list A) (a : A) (body : S -> A -> res S) (s : S) :
  for_ (l ++ [a]) body s = bind (for_ l body s) (fun s' => body s' a).
Proof.
  revert s. induction l as [|b l IH]; intros s; cbn.
  - by destruct (body s a).
  - destruct (body s b); cbn; auto.
Qed.

(** A loop over [0 .. n-1] that returns has kept an invariant indexed by
    the number of turns done. *)
Lemma for_range_invariant {S} (n : Z) (body : S -> Z -> res S) (Inv : Z -> S -> Prop)
    (s0 s : S) :
  0 <= n ->
  Inv 0 s0 ->
  (forall k s1 s2, 0 <= k < n -> Inv k s1 -> body s1 k = inr s2 -> Inv (k + 1) s2) ->
  for_ (seqZ 0 n) body s0 = inr s ->
  Inv n s.
Proof.
  intros Hn H0. revert s.
  pattern n. apply natlike_ind; [| |exact Hn].
  - intros s _. rewrite seqZ_nil by lia. cbn. by intros [= <-].
  - intros k Hk IH s Hstep'.
    replace (Z.succ k) with (k + 1) by lia.
    rewrite seqZ_app by lia. rewrite (seqZ_cons _ 1) by lia.
    rewrite (seqZ_nil _ (Z.pred 1)) by lia. rewrite for_snoc. cbn.
    destruct (for_ (seqZ 0 k) body s0) as [e|s1] eqn:Hl; cbn; [done|].
    intros Hb. apply (Hstep' k s1); [lia| |done].
    apply IH; [|done]. intros; eapply Hstep'; eauto with lia.
Qed.

(** A loop whose body returns whenever the invariant holds returns. *)
Lemma for_range_total {S} (n : Z) (body : S -> Z -> res S) (Inv : Z -> S -> Prop) (s0 : S) :
  0 <= n ->
  Inv 0 s0 ->
  (forall k s1, 0 <= k < n -> Inv k s1 -> exists s2, body s1 k = inr s2 /\ Inv (k + 1) s2) ->
  exists s, for_ (seqZ 0 n) body s0 = inr s /\ Inv n s.
Proof.
  intros Hn H0. pattern n. apply natlike_ind; [| |exact Hn].
  - intros _. exists s0. by rewrite seqZ_nil by lia.
  - intros k Hk IH Hstep.
    destruct IH as (s1 & Hl & HI); [intros; apply Hstep; auto with lia|].
    destruct (Hstep k s1) as (s2 & Hb & HI2); [lia|done|].
    exists s2. replace (Z.succ k) with (k + 1) by lia. split; [|done].
    rewrite seqZ_app by lia. rewrite (seqZ_cons _ 1) by lia.
    rewrite (seqZ_nil _ (Z.pred 1)) by lia. rewrite for_snoc, Hl. exact Hb.
Qed.

(** ** Drawing an image point by point *)

Lemma offset_inj (w x y x' y' : Z) :
  0 <= x < w -> 0 <= x' < w -> 0 <= y -> 0 <= y' ->
  offset w x y = offset w x' y' -> x = x' /\ y = y'.
Proof.
  unfold offset. intros Hx Hx' Hy Hy' Heq.
  assert (0 <= y * w) by (apply Z.mul_nonneg_nonneg; lia).
  assert (0 <= y' * w) by (apply Z.mul_nonneg_nonneg; lia).
  assert (He : y * w + x = y' * w + x') by lia.
  assert (y = y'); [|subst; lia].
  destruct (Z.lt_trichotomy y y') as [Hlt|[?|Hlt]]; [|done|].
  - assert ((y + 1) * w <= y' * w) by (apply Z.mul_le_mono_nonneg_r; lia). lia.
  - assert ((y' + 1) * w <= y * w) by (apply Z.mul_le_mono_nonneg_r; lia). lia.
Qed.

Lemma offset_lt (w h x y : Z) (n : nat) :
  0 <= x < w -> 0 <= y < h -> Z.of_nat n = w * h -> (offset w x y < n)%nat.
Proof.
  unfold offset. intros Hx Hy Hn.
  assert ((y + 1) * w <= h * w) by (apply Z.mul_le_mono_nonneg_r; lia).
  assert (0 <= y * w) by (apply Z.mul_nonneg_nonneg; lia). lia.
Qed.

Lemma drawn_next_column (w h : Z) P n k img :
  drawn w h P n k h img -> drawn w h P n (k + 1) 0 img.
Proof.
  intros (px & -> & Hn & Hpx). exists px. split; [done|]. split; [done|].
  intros x y Hx Hy Hc. apply Hpx; [done..|]. lia.
Qed.

Lemma draw_point_drawn (w h : Z) P n x y c img :
  Z.of_nat n = w * h -> 0 <= x < w -> 0 <= y < h ->
  P x y (getink c) ->
  drawn w h P n x y img ->
  exists img', draw_point img x y c = inr img' /\ drawn w h P n x (y + 1) img'.
Proof.
  intros Hn Hx Hy HP (px & -> & Hlen & Hpx).
  unfold draw_point, inside. cbn [data size fst snd].
  replace (0 <=? x) with true by lia. replace (x <? w) with true by lia.
  replace (0 <=? y) with true by lia. replace (y <? h) with true by lia.
  cbn [andb]. eexists. split; [reflexivity|].
  eexists. split; [reflexivity|]. split; [by rewrite length_insert|].
  intros x' y' Hx' Hy' Hc.
  destruct (decide (offset w x' y' = offset w x y)) as [Heq|Hne].
  - rewrite Heq, list_lookup_insert_eq by (rewrite Hlen; by eapply offset_lt).
    apply offset_inj in Heq as [-> ->]; [|lia..]. eauto.
  - rewrite list_lookup_insert_ne by done. apply Hpx; [done..|].
    destruct Hc as [?|[-> ?]]; [by left|]. right. split; [done|].
    assert (y' <> y) by congruence. lia.
Qed.

(** If the loops return, every pixel was drawn. *)
Lemma raster_loop_drawn (w h : Z) (pixel : Z -> Z -> res rgba) P (px0 : list rgba) img :
  0 <= w -> 0 <= h -> Z.of_nat (length px0) = w * h ->
  (forall x y c, 0 <= x < w -> 0 <= y < h -> pixel x y = inr c -> P x y (getink c)) ->
  raster_loop w h pixel (mkImage (w, h) (Rgba px0)) = inr img ->
  drawn w h P (length px0) w 0 img.
Proof.
  intros Hw Hh Hn HP. unfold raster_loop.
  apply (for_range_invariant w _ (fun k => drawn w h P (length px0) k 0)); [done| |].
  - exists px0. split; [done|]. split; [done|]. intros; lia.
  - intros k s1 s2 Hk Hs1 Hcol. apply drawn_next_column. revert Hcol.
    apply (for_range_invariant h _ (fun j => drawn w h P (length px0) k j)); [done..|].
    intros j i1 i2 Hj Hi1. destruct (pixel k j) as [e|c] eqn:Hc; cbn; [done|].
    destruct (draw_point_drawn w h P (length px0) k j c i1) as (i' & Hd & Hi');
      [done..|by eapply HP|done|].
    rewrite Hd. by intros [= <-].
Qed.

(** If the rule gives an ink to every pixel, the loops return. *)
Lemma raster_loop_total (w h : Z) (pixel : Z -> Z -> res rgba) P (px0 : list rgba) :
  0 <= w -> 0 <= h -> Z.of_nat (length px0) = w * h ->
  (forall x y, 0 <= x < w -> 0 <= y < h -> exists c, pixel x y = inr c /\ P x y (getink c)) ->
  exists img, raster_loop w h pixel (mkImage (w, h) (Rgba px0)) = inr img /\
              drawn w h P (length px0) w 0 img.
Proof.
  intros Hw Hh Hn HP. unfold raster_loop.
  apply (for_range_total w _ (fun k => drawn w h P (length px0) k 0)); [done| |].
  - exists px0. split; [done|]. split; [done|]. intros; lia.
  - intros k s1 Hk Hs1.
    destruct (for_range_total h
                (fun img y => bind (pixel k y) (draw_point img k y))
                (fun j => drawn w h P (length px0) k j) s1) as (s2 & Hl & Hs2);
      [done..| |].
    + intros j i1 Hj Hi1. destruct (HP k j) as (c & Hc & HPc); [done..|].
      rewrite Hc. cbn. by eapply draw_point_drawn.
    + exists s2. split; [done|]. by apply drawn_next_column.
Qed.

(** Every stored pixel of a drawn image, by its index. *)
Lemma drawn_all (w h : Z) P (n : nat) img :
  0 <= w -> 0 <= h -> Z.of_nat n = w * h ->
  drawn w h P n w 0 img ->
  exists px, img = mkImage (w, h) (Rgba px) /\ length px = n /\
    forall i c, px !! i = Some c -> P (Z.of_nat i mod w) (Z.of_nat i / w) c.
Proof.
  intros Hw Hh Hn (px & -> & Hlen & Hpx). exists px. split; [done|]. split; [done|].
  intros i c Hi. pose proof (lookup_lt_Some _ _ _ Hi) as Hlt.
  destruct (pixel_coordinates w h i) as [Hx Hy]; [lia..|].
  destruct (Hpx (Z.of_nat i mod w) (Z.of_nat i / w)) as (c' & Hc' & HP); [done..|lia|].
  assert (Hoff : offset w (Z.of_nat i mod w) (Z.of_nat i / w) = i).
  { unfold offset. rewrite Z.mul_comm, <- Z.div_mod by lia. lia. }
  rewrite Hoff in Hc'. congruence.
Qed.

(** ** Inversion of a run that returned *)

Lemma bind_M_inr {A B} (m : M A) (k : A -> M B) (w w' : world) (b : B) :
  (m ≫= k) w = (inr b, w') ->
  exists a w1, m w = (inr a, w1) /\ k a w1 = (inr b, w').
Proof.
  rewrite bind_M. destruct (m w) as [[e|a] w1]; [done|]. eauto.
Qed.

Lemma lift_inr {A} (r : res A) (w w' : world) (a : A) :
  lift r w = (inr a, w') -> r = inr a /\ w' = w.
Proof. unfold lift. by intros [= -> ->]. Qed.

Lemma creating_inr (r : res Image) (w w' : world) (im : Image) :
  creating r w = (inr im, w') -> r = inr im /\ w' = allocate im w.
Proof. unfold creating. destruct r; [done|]. by intros [= -> <-]. Qed.

Lemma mret_inr {A} (a b : A) (w w' : world) :
  (mret a : M A) w = (inr b, w') -> b = a /\ w' = w.
Proof. by intros [= -> ->]. Qed.

Ltac invert_run H :=
  repeat match type of H with
  | (_ ≫= _) _ = (inr _, _) =>
      let a := fresh "a" in let w1 := fresh "w" in let H1 := fresh "Hrun" in
      apply bind_M_inr in H as (a & w1 & H1 & H);
      first [ apply lift_inr in H1 as [H1 ->]
            | apply creating_inr in H1 as [H1 ->]
            | idtac ]
  | mret _ _ = (inr _, _) => apply mret_inr in H as [-> ->]
  end.

(** ** The gradient image *)

Lemma draw_gradient_raster (t : BannerTransformer) (start_rgb end_rgb : Z * Z * Z)
    (gradient : Np.ndarray float) (img : Image) :
  draw_gradient t start_rgb end_rgb gradient img =
  raster_loop (width t) (height t) (gradient_pixel start_rgb end_rgb gradient) img.
Proof.
  destruct start_rgb as [[r0 g0] b0], end_rgb as [[r1 g1] b1].
  unfold draw_gradient, raster_loop. apply for_ext. intros img1 x.
  apply for_ext. intros img2 y. unfold gradient_pixel.
  destruct (Np.getitem gradient y x) as [e|f]; cbn; [done|].
  destruct (gradient_channel r0 r1 f) as [e|r]; cbn; [done|].
  destruct (gradient_channel g0 g1 f) as [e|g]; cbn; [done|].
  by destruct (gradient_channel b0 b1 f) as [e|b].
Qed.

Lemma gradient_pixel_alpha start_rgb end_rgb gradient x y c :
  gradient_pixel start_rgb end_rgb gradient x y = inr c -> alpha (getink c) = 255.
Proof.
  destruct start_rgb as [[r0 g0] b0], end_rgb as [[r1 g1] b1]. unfold gradient_pixel.
  destruct (Np.getitem gradient y x) as [e|f]; cbn; [done|].
  destruct (gradient_channel r0 r1 f) as [e|r]; cbn; [done|].
  destruct (gradient_channel g0 g1 f) as [e|g]; cbn; [done|].
  destruct (gradient_channel b0 b1 f) as [e|b]; cbn; [done|].
  by intros [= <-].
Qed.

(** What [gradient_layer] returns is a full-canvas opaque image. *)
Lemma gradient_layer_shape (t : BannerTransformer) (start_color end_color direction : string)
    (w w1 : world) (g : Image) :
  0 <= width t -> 0 <= height t ->
  gradient_layer t start_color end_color direction w = (inr g, w1) ->
  mode g = RGBA /\ size g = (width t, height t) /\ wf g /\ opaque g.
Proof.
  intros Hw Hh Hrun. unfold gradient_layer in Hrun. invert_run Hrun.
  apply lift_inr in Hrun as [Hrun ->].
  rewrite new_RGBA_ok in Hrun3 by done. injection Hrun3 as <-.
  rewrite draw_gradient_raster in Hrun.
  apply (raster_loop_drawn _ _ _ (fun _ _ c => alpha c = 255)) in Hrun;
    [|done|done|rewrite length_replicate; lia|intros; by eapply gradient_pixel_alpha].
  apply drawn_all in Hrun as (px & -> & Hlen & Hpx);
    [|done|done|rewrite length_replicate; lia].
  rewrite length_replicate in Hlen.
  unfold mode, wf, npixels, opaque. cbn. repeat split; [lia..|].
  apply Forall_lookup. intros i c Hi. by eapply Hpx.
Qed.

Lemma alpha_composite_inr (im1 im2 im : Image) :
  alpha_composite im1 im2 = inr im ->
  exists dst src, data im1 = Rgba dst /\ data im2 = Rgba src /\ size im1 = size im2 /\
                  im = mkImage (size im1) (Rgba (zip_with composite_pixel dst src)).
Proof.
  unfold alpha_composite.
  destruct (data im1) as [?|dst]; [done|]. destruct (data im2) as [?|src]; [done|].
  case_decide; [|done]. intros [= <-]. eauto 10.
Qed.

(** What a run of [apply_gradient] that returned has done. *)
Lemma apply_gradient_inr
    (t t' : BannerTransformer) (start_color end_color direction : string) (w w' : world) :
  canvas_ok t ->
  apply_gradient t start_color end_color direction w = (inr t', w') ->
  exists (gradient_image : Image) (w1 : world),
    gradient_layer t start_color end_color direction w = (inr gradient_image, w1) /\
    size gradient_image = (width t, height t) /\ wf gradient_image /\
    opaque gradient_image /\
    alpha_composite gradient_image (image t) = inr (image t') /\
    canvas_ok t' /\ width t' = width t /\ height t' = height t.
Proof.
  intros Hok Hrun.
  destruct (canvas_ok_data t Hok) as (px & Him & Hw & Hh & Hn).
  unfold apply_gradient in Hrun. invert_run Hrun.
  destruct (gradient_layer_shape _ _ _ _ _ _ _ Hw Hh Hrun0) as (Hm & Hs & Hwf & Hop).
  pose proof Hrun1 as Hcomp.
  apply alpha_composite_inr in Hcomp as (dst & src & Hd & Hsrc & _ & ->).
  rewrite Him in Hsrc. cbn in Hsrc. injection Hsrc as <-.
  destruct Hwf as (_ & _ & Hg). unfold npixels in Hg. rewrite Hd, Hs in Hg. cbn in Hg.
  exists a, w0. cbn [set_image image width height].
  split; [done|]. split; [done|].
  split; [unfold wf, npixels; rewrite Hd, Hs; cbn; lia|].
  split; [done|]. split; [done|].
  split; [|done].
  unfold canvas_ok, wf, mode, npixels. cbn. rewrite Hs. cbn.
  rewrite length_zip_with. repeat split; (done || lia).
Qed.

(** ** The gradient is drawn on every canvas *)

(** The array of factors has a finite factor for every pixel. *)
Lemma gradient_array_below (t : BannerTransformer) (direction : string) :
  0 <= width t <= 2 ^ 63 -> 0 <= height t <= 2 ^ 63 ->
  exists g, gradient_array t direction = inr g /\
    forall x y, 0 <= x < width t -> 0 <= y < height t ->
      exists f, Np.getitem g y x = inr f /\ below 67 (Prim2SF f).
Proof.
  intros Hw Hh.
  assert (Hnth : forall (l : list float) (n i : Z),
             length l = Z.to_nat n -> Forall (fun f => below 67 (Prim2SF f)) l ->
             0 <= i < n -> below 67 (Prim2SF (nth (Z.to_nat i) l 0%float))).
  { intros l n i Hlen Hall Hi.
    assert (Hlt : (Z.to_nat i < length l)%nat) by lia.
    destruct (lookup_lt_is_Some_2 l (Z.to_nat i) Hlt) as [f Hf].
    rewrite (nth_lookup_Some _ _ _ _ Hf).
    exact (proj1 (Forall_lookup _ l) Hall _ _ Hf). }
  unfold gradient_array. destruct (String.eqb direction "horizontal").
  - destruct (linspace01_below (width t) ltac:(lia)) as [?|(l & -> & Hlen & Hall)]; [lia|].
    eexists. split; [reflexivity|]. intros x y Hx Hy.
    unfold Np.getitem, Np.index, Np.tile. cbn [Np.nrows Np.ncols Np.cell].
    replace (0 <=? y) with true by lia. replace (y <? Z.max 0 (height t)) with true by lia.
    replace (0 <=? x) with true by lia. replace (x <? Z.of_nat (length l)) with true by lia.
    eexists. split; [reflexivity|]. by eapply Hnth.
  - destruct (linspace01_below (height t) ltac:(lia)) as [?|(l & -> & Hlen & Hall)]; [lia|].
    eexists. split; [reflexivity|]. intros x y Hx Hy.
    unfold Np.getitem, Np.index, Np.tile, Np.T. cbn [Np.nrows Np.ncols Np.cell].
    replace (0 <=? y) with true by lia. replace (y <? Z.of_nat (length l)) with true by lia.
    replace (0 <=? x) with true by lia. replace (x <? Z.max 0 (width t)) with true by lia.
    eexists. split; [reflexivity|]. by eapply Hnth.
Qed.

Lemma gradient_pixel_total (start_rgb end_rgb : Z * Z * Z) (gradient : Np.ndarray float)
    (x y : Z) (f : float) :
  Np.getitem gradient y x = inr f -> below 67 (Prim2SF f) ->
  exists c, gradient_pixel start_rgb end_rgb gradient x y = inr c.
Proof.
  intros Hg Hf. destruct start_rgb as [[r0 g0] b0], end_rgb as [[r1 g1] b1].
  unfold gradient_pixel. rewrite Hg. cbn.
  destruct (gradient_channel_total r0 r1 f Hf) as [r ->].
  destruct (gradient_channel_total g0 g1 f Hf) as [g ->].
  destruct (gradient_channel_total b0 b1 f Hf) as [b ->].
  cbn. eauto.
Qed.

(** With two colours that parse, [gradient_layer] returns. *)
Lemma gradient_layer_total (t : BannerTransformer) (start_color end_color direction : string)
    (start_rgb end_rgb : Z * Z * Z) (w : world) :
  0 <= width t <= 2 ^ 63 -> 0 <= height t <= 2 ^ 63 ->
  hex_rgb start_color = inr start_rgb -> hex_rgb end_color = inr end_rgb ->
  exists g w1, gradient_layer t start_color end_color direction w = (inr g, w1).
Proof.
  intros Hw Hh Hs He.
  destruct (gradient_array_below t direction Hw Hh) as (arr & Harr & Hcells).
  unfold gradient_layer.
  rewrite bind_lift, Hs. cbv iota beta. rewrite bind_lift, He. cbv iota beta.
  rewrite bind_lift, Harr. cbv iota beta.
  rewrite new_RGBA_ok by lia. rewrite bind_creating.
  rewrite draw_gradient_raster.
  destruct (raster_loop_total (width t) (height t)
              (gradient_pixel start_rgb end_rgb arr) (fun _ _ _ => True)
              (replicate (Z.to_nat (width t * height t)) (getink (0, 0, 0, 0))))
    as (img & Himg & _); [lia|lia|rewrite length_replicate; lia| |].
  - intros x y Hx Hy. destruct (Hcells x y Hx Hy) as (f & Hf & Hb).
    destruct (gradient_pixel_total start_rgb end_rgb arr x y f Hf Hb) as [c Hc]. eauto.
  - unfold lift. rewrite Himg. eauto.
Qed.

(** With two colours that parse, [apply_gradient] returns. *)
Lemma apply_gradient_total (t : BannerTransformer) (start_color end_color direction : string)
    (start_rgb end_rgb : Z * Z * Z) (w : world) :
  canvas_ok t -> width t <= 2 ^ 63 -> height t <= 2 ^ 63 ->
  hex_rgb start_color = inr start_rgb -> hex_rgb end_color = inr end_rgb ->
  exists t' w', apply_gradient t start_color end_color direction w = (inr t', w').
Proof.
  intros Hok Hw63 Hh63 Hs He.
  destruct (canvas_ok_data t Hok) as (px & Him & Hw & Hh & Hn).
  destruct (gradient_layer_total t start_color end_color direction start_rgb end_rgb w
              ltac:(lia) ltac:(lia) Hs He) as (g & w1 & Hg).
  destruct (gradient_layer_shape _ _ _ _ _ _ _ Hw Hh Hg) as (Hm & Hsz & Hwf & Hop).
  unfold apply_gradient. rewrite bind_M, Hg.
  assert (Hc : exists im, alpha_composite g (image t) = inr im).
  { unfold alpha_composite. unfold mode in Hm. rewrite Him. cbn [data size].
    destruct (data g) as [?|dst]; [done|]. rewrite Hsz.
    rewrite decide_True by done. eauto. }
  destruct Hc as [im Hc]. rewrite Hc, bind_creating. cbn. eauto.
Qed.

(** Claim C3, amended.  On every canvas, with two colours that parse,
    [apply_gradient] returns; it has built a gradient image of the size
    of the canvas with alpha 255 in every pixel, and the new canvas is
    [Image.alpha_composite(gradient_image, image)]: the existing canvas
    composited over the gradient image, which is the bottom operand. *)
Theorem apply_gradient_composites_canvas_over_gradient
    (t : BannerTransformer) (start_color end_color direction : string)
    (start_rgb end_rgb : Z * Z * Z) (w : world) :
  canvas_ok t -> width t <= 2 ^ 63 -> height t <= 2 ^ 63 ->
  hex_rgb start_color = inr start_rgb -> hex_rgb end_color = inr end_rgb ->
  exists (t' : BannerTransformer) (w' : world) (gradient_image : Image) (w1 : world),
    apply_gradient t start_color end_color direction w = (inr t', w') /\
    gradient_layer t start_color end_color direction w = (inr gradient_image, w1) /\
    size gradient_image = (width t, height t) /\ wf gradient_image /\
    opaque gradient_image /\
    alpha_composite gradient_image (image t) = inr (image t') /\
    canvas_ok t' /\ width t' = width t /\ height t' = height t.
Proof.
  intros Hok Hw Hh Hs He.
  destruct (apply_gradient_total t start_color end_color direction start_rgb end_rgb w
              Hok Hw Hh Hs He) as (t' & w' & Hrun).
  destruct (apply_gradient_inr t t' start_color end_color direction w w' Hok Hrun)
    as (g & w1 & Hfacts).
  exists t', w', g, w1. split; [exact Hrun|exact Hfacts].
Qed.

(** Claim C3 as stated fails: with the gradient image as the top
    operand an opaque canvas would be covered by the gradient; the opaque
    pixel (10, 20, 30, 255) is kept under a white gradient. *)
Lemma gradient_is_not_the_top_operand :
  ~ (forall (t t' : BannerTransformer) (start_color end_color direction : string)
            (w w' w1 : world) (gradient_image : Image),
       canvas_ok t ->
       apply_gradient t start_color end_color direction w = (inr t', w') ->
       gradient_layer t start_color end_color direction w = (inr gradient_image, w1) ->
       alpha_composite (image t) gradient_image = inr (image t')).
Proof.
  intros H.
  pose (t := __init__ (mkImage (1, 1) (Rgba [(10, 20, 30, 255)]))).
  pose (w := mkWorld [] (fun _ => 0) (fun _ => 0%float) 0).
  specialize (H t t "#ffffff" "#ffffff" "horizontal" w
                (allocate (image t) (allocate (image t) w)) (allocate (image t) w)
                (mkImage (1, 1) (Rgba [(255, 255, 255, 255)]))).
  assert (Hok : canvas_ok t).
  { unfold canvas_ok, wf, mode, npixels. cbn. repeat split; (done || lia). }
  specialize (H Hok eq_refl eq_refl). vm_compute in H. discriminate H.
Qed.

(** ** A gradient along a single column or row *)

Lemma getink_bytes (r g b a : Z) :
  is_byte r -> is_byte g -> is_byte b -> is_byte a -> getink (r, g, b, a) = (r, g, b, a).
Proof. intros. unfold getink. by rewrite !clip8_byte. Qed.

Lemma linspace01_single : Np.linspace01 1 = inr [0%float].
Proof. reflexivity. Qed.

(** At factor 0 the channel is the start channel, whatever the end. *)
Lemma gradient_channel_factor_0 (s e : Z) :
  is_byte s -> is_byte e -> gradient_channel s e 0 = inr s.
Proof.
  intros Hs He.
  pose (ok := fun s e => match gradient_channel s e 0 with inr z => z =? s | inl _ => false end).
  assert (Hok : ok s e = true).
  { apply (byte_cases (fun e => ok s e)); [|done].
    apply (byte_cases (fun s => forallb (fun e => ok s e) (seqZ 0 256))); [by vm_compute|done]. }
  unfold ok in Hok. destruct (gradient_channel s e 0) as [?|z]; [done|].
  apply Z.eqb_eq in Hok. by subst.
Qed.

Lemma gradient_array_single_column (t : BannerTransformer) (y : Z) :
  width t = 1 -> 0 <= y < height t ->
  exists g, gradient_array t "horizontal" = inr g /\ Np.getitem g y 0 = inr 0%float.
Proof.
  intros Hw Hy. unfold gradient_array. cbn [String.eqb Ascii.eqb Bool.eqb].
  rewrite Hw, linspace01_single. eexists. split; [reflexivity|].
  unfold Np.getitem, Np.index, Np.tile. cbn [Np.nrows Np.ncols Np.cell length].
  replace (0 <=? y) with true by lia. replace (y <? Z.max 0 (height t)) with true by lia.
  reflexivity.
Qed.

Lemma gradient_array_single_row (t : BannerTransformer) (direction : string) (x : Z) :
  direction <> "horizontal" -> height t = 1 -> 0 <= x < width t ->
  exists g, gradient_array t direction = inr g /\ Np.getitem g 0 x = inr 0%float.
Proof.
  intros Hd Hh Hx. unfold gradient_array.
  apply String.eqb_neq in Hd. rewrite Hd, Hh, linspace01_single.
  eexists. split; [reflexivity|].
  unfold Np.getitem, Np.index, Np.tile, Np.T. cbn [Np.nrows Np.ncols Np.cell length].
  replace (0 <=? x) with true by lia. replace (x <? Z.max 0 (width t)) with true by lia.
  reflexivity.
Qed.

Lemma gradient_pixel_factor_0 (r0 g0 b0 r1 g1 b1 : Z) (gradient : Np.ndarray float) (x y : Z) :
  is_byte r0 -> is_byte g0 -> is_byte b0 -> is_byte r1 -> is_byte g1 -> is_byte b1 ->
  Np.getitem gradient y x = inr 0%float ->
  gradient_pixel (r0, g0, b0) (r1, g1, b1) gradient x y = inr (r0, g0, b0, 255).
Proof.
  intros ? ? ? ? ? ? Hf. unfold gradient_pixel. rewrite Hf. cbn.
  by rewrite !gradient_channel_factor_0.
Qed.

Lemma gradient_layer_flat (t : BannerTransformer) (start_color end_color direction : string)
    (r0 g0 b0 r1 g1 b1 : Z) (w : world) :
  0 <= width t -> 0 <= height t ->
  (direction = "horizontal" /\ width t = 1) \/ (direction <> "horizontal" /\ height t = 1) ->
  hex_rgb start_color = inr (r0, g0, b0) ->
  hex_rgb end_color = inr (r1, g1, b1) ->
  is_byte r0 -> is_byte g0 -> is_byte b0 -> is_byte r1 -> is_byte g1 -> is_byte b1 ->
  gradient_layer t start_color end_color direction w =
  (inr (flat_image (width t) (height t) (r0, g0, b0, 255)),
   allocate (flat_image (width t) (height t) (0, 0, 0, 0)) w).
Proof.
  intros Hw Hh Hcase Hs He ? ? ? ? ? ?.
  assert (Hg : exists g, gradient_array t direction = inr g /\
                 forall x y, 0 <= x < width t -> 0 <= y < height t ->
                   Np.getitem g y x = inr 0%float).
  { destruct Hcase as [[-> Hw1]|[Hd Hh1]].
    - destruct (decide (0 < height t)) as [Hpos|Hz].
      + destruct (gradient_array_single_column t 0 Hw1) as (g & Hg & _); [lia|].
        exists g. split; [done|]. intros x y Hx Hy.
        destruct (gradient_array_single_column t y Hw1 Hy) as (g' & Hg' & Hget).
        replace x with 0 by lia. congruence.
      + unfold gradient_array. cbn [String.eqb Ascii.eqb Bool.eqb].
        rewrite Hw1, linspace01_single. eexists. split; [reflexivity|]. intros; lia.
    - destruct (decide (0 < width t)) as [Hpos|Hz].
      + destruct (gradient_array_single_row t direction 0 Hd Hh1) as (g & Hg & _); [lia|].
        exists g. split; [done|]. intros x y Hx Hy.
        destruct (gradient_array_single_row t direction x Hd Hh1 Hx) as (g' & Hg' & Hget).
        replace y with 0 by lia. congruence.
      + unfold gradient_array. apply String.eqb_neq in Hd.
        rewrite Hd, Hh1, linspace01_single. eexists. split; [reflexivity|]. intros; lia. }
  destruct Hg as (g & Hg & Hget).
  unfold gradient_layer. rewrite bind_lift, Hs. cbv iota beta.
  rewrite bind_lift, He. cbv iota beta. rewrite bind_lift, Hg. cbv iota beta.
  rewrite new_RGBA_ok by done. rewrite bind_creating.
  rewrite draw_gradient_raster.
  destruct (raster_loop_total (width t) (height t)
              (gradient_pixel (r0, g0, b0) (r1, g1, b1) g)
              (fun _ _ c => c = (r0, g0, b0, 255))
              (replicate (Z.to_nat (width t * height t)) (getink (0, 0, 0, 0))))
    as (img & Himg & Hdrawn); [done|done|rewrite length_replicate; nia| |].
  - intros x y Hx Hy. eexists. split.
    + apply gradient_pixel_factor_0; auto.
    + by apply getink_bytes.
  - rewrite Himg. unfold lift, flat_image. do 2 f_equal.
    apply drawn_all in Hdrawn as (px & -> & Hlen & Hpx);
      [|done|done|rewrite length_replicate; nia].
    rewrite length_replicate in Hlen. do 2 f_equal.
    symmetry. apply replicate_as_Forall. split; [done|].
    apply Forall_lookup. intros i c Hi. symmetry. by eapply Hpx.
Qed.

(** Claim C8.  [np.linspace(0, 1, 1)] is the single factor 0, computed
    without a division; a horizontal gradient on a canvas of width 1, and
    a vertical one on a canvas of height 1, is the start colour in every
    pixel; and [apply_gradient] on the fresh canvas of size 1 x 1 leaves
    exactly the start colour at alpha 255, in either direction. *)
Theorem gradient_on_single_column_or_row
    (start_color end_color : string) (r0 g0 b0 r1 g1 b1 : Z) :
  hex_rgb start_color = inr (r0, g0, b0) ->
  hex_rgb end_color = inr (r1, g1, b1) ->
  is_byte r0 -> is_byte g0 -> is_byte b0 -> is_byte r1 -> is_byte g1 -> is_byte b1 ->
  Np.linspace01 1 = inr [0%float] /\
  (forall (t : BannerTransformer) (direction : string) (w : world),
     0 <= width t -> 0 <= height t ->
     (direction = "horizontal" /\ width t = 1) \/ (direction <> "horizontal" /\ height t = 1) ->
     exists w',
       gradient_layer t start_color end_color direction w =
       (inr (flat_image (width t) (height t) (r0, g0, b0, 255)), w')) /\
  (forall (direction : string) (w : world),
     exists w',
       apply_gradient (__init__ (base_image 1 1)) start_color end_color direction w =
       (inr (__init__ (flat_image 1 1 (r0, g0, b0, 255))), w')).
Proof.
  intros Hs He ? ? ? ? ? ?. split; [reflexivity|]. split.
  - intros t direction w Hw Hh Hcase. eexists. by eapply gradient_layer_flat.
  - intros direction w. eexists. unfold apply_gradient.
    assert (Hcase : (direction = "horizontal" /\ width (__init__ (base_image 1 1)) = 1) \/
                    (direction <> "horizontal" /\ height (__init__ (base_image 1 1)) = 1)).
    { destruct (decide (direction = "horizontal")); [left|right]; done. }
    rewrite bind_M.
    rewrite (gradient_layer_flat _ _ _ direction r0 g0 b0 r1 g1 b1) by done.
    reflexivity.
Qed.

(** ** The size recorded at construction *)

Lemma set_image_keeps_size (t : BannerTransformer) (im : Image) :
  size_ok t -> size im = size (image t) -> keeps_size t (set_image t im).
Proof. unfold keeps_size, size_ok. cbn. intros -> ->. done. Qed.

Lemma alpha_composite_size (im1 im2 im : Image) :
  alpha_composite im1 im2 = inr im -> size im = size im1 /\ size im = size im2.
Proof. intros (dst & src & _ & _ & Hs & ->)%alpha_composite_inr. cbn. by rewrite Hs. Qed.

Lemma new_RGBA_size (sz : Z * Z) (color : rgba) (im : Image) :
  new_RGBA sz color = inr im -> size im = sz.
Proof.
  unfold new_RGBA. destruct (check_size sz); cbn; [done|]. by intros [= <-].
Qed.

Lemma apply_gradient_keeps_size t start_color end_color direction w t' w' :
  size_ok t ->
  apply_gradient t start_color end_color direction w = (inr t', w') -> keeps_size t t'.
Proof.
  intros Hok Hrun. unfold apply_gradient in Hrun. invert_run Hrun.
  apply set_image_keeps_size; [done|]. by apply alpha_composite_size in Hrun1 as [_ ?].
Qed.

Lemma apply_texture_keeps_size t texture_type opacity w t' w' :
  size_ok t ->
  apply_texture t texture_type opacity w = (inr t', w') -> keeps_size t t'.
Proof.
  intros Hok Hrun. unfold apply_texture in Hrun. invert_run Hrun.
  apply set_image_keeps_size; [done|]. by apply alpha_composite_size in Hrun5 as [? _].
Qed.

Lemma apply_overlay_keeps_size t color opacity w t' w' :
  size_ok t ->
  apply_overlay t color opacity w = (inr t', w') -> keeps_size t t'.
Proof.
  intros Hok Hrun. unfold apply_overlay in Hrun. invert_run Hrun.
  destruct a0 as [[r g] b]. invert_run Hrun.
  apply set_image_keeps_size; [done|]. by apply alpha_composite_size in Hrun4 as [? _].
Qed.

Section Contract.
Hypothesis contract : filters_keep_shape F.

Lemma apply_blur_keeps_size t radius w t' w' :
  size_ok t ->
  apply_blur t radius w = (inr t', w') -> keeps_size t t'.
Proof.
  intros Hok Hrun. unfold apply_blur in Hrun. invert_run Hrun.
  apply set_image_keeps_size; [done|].
  by apply (GaussianBlur_shape _ contract) in Hrun0 as (_ & ? & _).
Qed.

Lemma apply_drop_shadow_keeps_size t offset shadow_color blur_radius w t' w' :
  size_ok t ->
  apply_drop_shadow t offset shadow_color blur_radius w = (inr t', w') -> keeps_size t t'.
Proof.
  intros Hok Hrun. unfold apply_drop_shadow in Hrun. invert_run Hrun.
  destruct a2 as [[r g] b]. invert_run Hrun.
  apply set_image_keeps_size; [done|]. by apply alpha_composite_size in Hrun8 as [_ ?].
Qed.

Lemma apply_border_keeps_size t width_ color w t' w' :
  size_ok t ->
  apply_border t width_ color w = (inr t', w') -> keeps_size t t'.
Proof.
  intros Hok Hrun. unfold apply_border in Hrun. invert_run Hrun.
  destruct a as [[r g] b]. invert_run Hrun.
  apply set_image_keeps_size; [done|].
  by apply (outline_shape _ contract) in Hrun1 as (_ & ? & _).
Qed.

Lemma apply_glow_keeps_size t spread intensity w t' w' :
  size_ok t ->
  apply_glow t spread intensity w = (inr t', w') -> keeps_size t t'.
Proof.
  intros Hok Hrun. unfold apply_glow in Hrun. invert_run Hrun.
  apply set_image_keeps_size; [done|]. by apply alpha_composite_size in Hrun2 as [_ ?].
Qed.

Lemma call_keeps_size (t t' : BannerTransformer) :
  size_ok t -> call t t' -> keeps_size t t'.
Proof.
  intros Hok Hcall. destruct Hcall;
    eauto using apply_gradient_keeps_size, apply_texture_keeps_size,
      apply_overlay_keeps_size, apply_blur_keeps_size, apply_drop_shadow_keeps_size,
      apply_border_keeps_size, apply_glow_keeps_size.
Qed.

End Contract.

(** Claim C9.  Provided the Pillow filters return images of the size
    they are given, every transformer obtained from [BannerTransformer(im)]
    by calls of apply_gradient, apply_texture, apply_overlay, apply_blur,
    apply_drop_shadow, apply_border and apply_glow holds an image whose
    size is the recorded (width, height), which is the size of [im]. *)
Theorem operations_preserve_size (im : Image) (t : BannerTransformer) :
  filters_keep_shape F ->
  reachable im t ->
  size (image t) = size im /\ (width t, height t) = size im.
Proof.
  intros contract Hreach.
  assert (H : size_ok t /\ (width t, height t) = size im).
  { induction Hreach as [|t t' Hreach [IH1 IH2] Hcall].
    - split; [unfold size_ok|]; cbn; by destruct (size im).
    - destruct (call_keeps_size contract t t' IH1 Hcall) as (Hs & Hw & Hh).
      split; [done|]. by rewrite Hw, Hh. }
  destruct H as [H1 H2]. split; [|done]. by rewrite <- H2.
Qed.

(** ** Truncation *)

Lemma int_of_float_truncates (x : float) (z : Z) :
  int_of_float x = inr z ->
  exists q, float_value x = Some q /\ truncation_of q z.
Proof.
  unfold int_of_float, float_value.
  destruct (Prim2SF x) as [s|s| |s m e]; try done.
  - intros [= <-]. exists 0%Q. split; [done|]. unfold truncation_of. split; intros _; split; done.
  - unfold ret. intros [= <-]. eexists. split; [reflexivity|].
    unfold Qpow2. destruct (Z.leb_spec 0 e) as [He|He].
    + rewrite Z.shiftl_mul_pow2 by done.
      assert (0 < 2 ^ e) by (apply Z.pow_pos_nonneg; lia).
      destruct s; unfold truncation_of, Qle, Qlt, Qminus, Qplus, Qopp, Qmult, inject_Z;
        cbn [Qnum Qden]; rewrite ?Pos.mul_1_r; split; intros Hq; split; nia.
    + rewrite Z.shiftr_div_pow2 by lia.
      assert (Hd : 0 < 2 ^ (- e)) by (apply Z.pow_pos_nonneg; lia).
      destruct (2 ^ (- e)) as [|p|p] eqn:Hp; [lia| |lia].
      pose proof (Z.div_mod (Z.pos m) (Z.pos p) ltac:(lia)) as Hdm.
      pose proof (Z.mod_pos_bound (Z.pos m) (Z.pos p) ltac:(lia)) as Hmod.
      assert (0 <= Z.pos m / Z.pos p) by (apply Z.div_pos; lia).
      destruct s; unfold truncation_of, Qle, Qlt, Qminus, Qplus, Qopp, Qmult, Qinv, inject_Z;
        cbn [Qnum Qden]; rewrite ?Pos.mul_1_r, ?Pos.mul_1_l; split; intros Hq; split; nia.
Qed.

(** Rounding to the nearest integer gives the truncation or the next
    integer away from zero. *)
Lemma round_float_near_truncation (x : float) (z : Z) :
  int_of_float x = inr z ->
  exists r, round_float x = inr r /\ (r = z \/ Z.abs r = Z.abs z + 1).
Proof.
  unfold int_of_float, round_float.
  destruct (Prim2SF x) as [s|s| |s m e]; try done.
  - intros [= <-]. exists 0. auto.
  - unfold ret. intros [= <-]. eexists. split; [reflexivity|].
    destruct (Z.leb_spec 0 e) as [He|He]; [by left|].
    rewrite Z.shiftr_div_pow2 by lia.
    assert (Hd : 0 < 2 ^ (- e)) by (apply Z.pow_pos_nonneg; lia).
    assert (0 <= Z.pos m / 2 ^ (- e)) by (apply Z.div_pos; lia).
    destruct (2 * (Z.pos m mod 2 ^ (- e)) <? 2 ^ (- e)); [by left|].
    destruct (2 ^ (- e) <? 2 * (Z.pos m mod 2 ^ (- e))); [right; destruct s; lia|].
    destruct (Z.even (Z.pos m / 2 ^ (- e))); [by left|right; destruct s; lia].
Qed.

(** ** Interpolation of a colour channel *)

(** Claim C4 as stated fails: at factor 1/4 between the channels 0 and
    3 the value is 0.75, which rounds to 1; both interpolations of the
    source give 0. *)
Lemma interpolation_does_not_round :
  ~ (forall (c1 c2 : Z) (f : float),
       is_byte c1 -> is_byte c2 -> unit_interval f ->
       gradient_channel c1 c2 f = spec_interpolate c1 c2 f) /\
  ~ (forall (c1 c2 : Z) (f : float),
       is_byte c1 -> is_byte c2 -> unit_interval f ->
       Helpers.interpolate_channel c1 c2 f = spec_interpolate c1 c2 f).
Proof.
  assert (Hf : unit_interval 0.25) by (split; reflexivity).
  assert (H0 : is_byte 0) by (unfold is_byte; lia).
  assert (H3 : is_byte 3) by (unfold is_byte; lia).
  split; intros H; specialize (H 0 3 0.25%float H0 H3 Hf);
    vm_compute in H; discriminate H.
Qed.

Lemma interpolation_endpoints (c1 c2 : Z) :
  is_byte c1 -> is_byte c2 ->
  gradient_channel c1 c2 0 = inr c1 /\ gradient_channel c1 c2 1 = inr c2 /\
  Helpers.interpolate_channel c1 c2 0 = inr c1 /\
  Helpers.interpolate_channel c1 c2 1 = inr c2.
Proof.
  intros H1 H2.
  pose (is_ (r : res Z) (z : Z) := match r with inr v => v =? z | inl _ => false end).
  pose (ok := fun c1 c2 =>
    is_ (gradient_channel c1 c2 0) c1 && is_ (gradient_channel c1 c2 1) c2 &&
    is_ (Helpers.interpolate_channel c1 c2 0) c1 &&
    is_ (Helpers.interpolate_channel c1 c2 1) c2).
  assert (Hok : ok c1 c2 = true).
  { apply (byte_cases (fun c2 => ok c1 c2)); [|done].
    apply (byte_cases (fun c1 => forallb (fun c2 => ok c1 c2) (seqZ 0 256))); [by vm_compute|done]. }
  unfold ok in Hok. rewrite !andb_true_iff in Hok. destruct Hok as [[[Ha Hb] Hc] Hd].
  assert (Hdec : forall r z, is_ r z = true -> r = inr z).
  { intros [?|v] z; cbn; [done|]. by intros ->%Z.eqb_eq. }
  auto.
Qed.

(** Claim C4, amended.  For channels in [0, 255] and every factor in
    [0, 1], both interpolations return a channel: the binary64 value of
    [c1 * (1 - factor) + c2 * factor] (of [c1 + factor * (c2 - c1)] in
    [helpers.py]) with its fraction dropped, as [int] does.  It is not
    rounded to the nearest integer (the rounded value is the channel or
    the next integer away from zero) and no clamp is applied.  At factor
    0 the channel is [c1] and at factor 1 it is [c2]. *)
Theorem interpolation_truncates (c1 c2 : Z) (f : float) :
  is_byte c1 -> is_byte c2 -> unit_interval f ->
  (exists z, gradient_channel c1 c2 f = inr z /\
     let x := (float_of_Z c1 * (1 - f) + float_of_Z c2 * f)%float in
     (exists q, float_value x = Some q /\ truncation_of q z) /\
     (exists r, round_float x = inr r /\ (r = z \/ Z.abs r = Z.abs z + 1))) /\
  (exists z, Helpers.interpolate_channel c1 c2 f = inr z /\
     let x := (float_of_Z c1 + f * float_of_Z (c2 - c1))%float in
     (exists q, float_value x = Some q /\ truncation_of q z) /\
     (exists r, round_float x = inr r /\ (r = z \/ Z.abs r = Z.abs z + 1))) /\
  gradient_channel c1 c2 0 = inr c1 /\ gradient_channel c1 c2 1 = inr c2 /\
  Helpers.interpolate_channel c1 c2 0 = inr c1 /\
  Helpers.interpolate_channel c1 c2 1 = inr c2.
Proof.
  intros H1 H2 Hf%unit_below. apply (below_mono 1 67) in Hf; [|lia].
  split.
  { destruct (gradient_channel_total c1 c2 f Hf) as [z Hz]. exists z.
    split; [done|]. split; [by apply int_of_float_truncates|by apply round_float_near_truncation]. }
  split.
  { destruct (interpolate_channel_total c1 c2 f Hf) as [z Hz]. exists z.
    split; [done|]. split; [by apply int_of_float_truncates|by apply round_float_near_truncation]. }
  by apply interpolation_endpoints.
Qed.

End WithFilters.

(** ** The theorems at concrete inputs *)

Lemma white_pixel_ok : canvas_ok white_pixel.
Proof.
  unfold canvas_ok, wf, mode, npixels. cbn.
  split; [reflexivity|]. split; [reflexivity|]. split; [lia|]. split; [lia|reflexivity].
Defined.

Lemma sparkle_unknown : "sparkle" ∉ known_effects.
Proof.
  unfold known_effects. rewrite !not_elem_of_cons.
  repeat split; (discriminate || apply not_elem_of_nil).
Defined.

Lemma marble_unknown : "marble" ∉ texture_kinds.
Proof.
  unfold texture_kinds. rewrite !not_elem_of_cons.
  repeat split; (discriminate || apply not_elem_of_nil).
Defined.

Lemma dunder_doc_style_raises_witness :
  ("__doc__" ∉ ["modern"; "vintage"; "minimalist"; "bold"]) /\
  @resolve_preset (PStr "__doc__") = inl (TypeError "object is not callable") /\
  @resolve_preset (PStr "modern") = inr (PDict modern) /\
  @generate_banner still_filters (request 800 400 "__doc__") draws_200 =
    (Error500, allocate (base_image 800 400) draws_200).
Proof.
  apply (dunder_doc_style_raises (F := still_filters) (request 800 400 "__doc__")
           (PInt 800) (PInt 400) 800 400 draws_200);
    [reflexivity | reflexivity | reflexivity | reflexivity | reflexivity | lia | lia].
Defined.

Lemma vintage_preset_raises_witness :
  @render still_filters 800 400 (PStr "vintage") draws_200 =
    (inl (TypeError "apply_texture() got an unexpected keyword argument 'type'"),
     allocate (base_image 800 400) draws_200) /\
  @generate_banner still_filters (request 800 400 "vintage") draws_200 =
    (Error500, allocate (base_image 800 400) draws_200).
Proof.
  apply (vintage_preset_raises (F := still_filters) (request 800 400 "vintage")
           (PInt 800) (PInt 400) 800 400 draws_200);
    [reflexivity | reflexivity | reflexivity | reflexivity | reflexivity | lia | lia].
Defined.

Lemma apply_gradient_composites_witness :
  exists (t' : BannerTransformer) (w' : world) (gradient_image : Image) (w1 : world),
    apply_gradient white_pixel "#4361ee" "#3f37c9" "horizontal" draws_200 = (inr t', w') /\
    gradient_layer white_pixel "#4361ee" "#3f37c9" "horizontal" draws_200 =
      (inr gradient_image, w1) /\
    size gradient_image = (width white_pixel, height white_pixel) /\ wf gradient_image /\
    opaque gradient_image /\
    alpha_composite gradient_image (image white_pixel) = inr (image t') /\
    canvas_ok t' /\ width t' = width white_pixel /\ height t' = height white_pixel.
Proof.
  apply (apply_gradient_composites_canvas_over_gradient white_pixel
           "#4361ee" "#3f37c9" "horizontal" (67, 97, 238) (63, 55, 201) draws_200);
    [exact white_pixel_ok | vm_compute; discriminate | vm_compute; discriminate
    | reflexivity | reflexivity].
Defined.

Lemma interpolation_truncates_witness :
  (exists z, gradient_channel 0 3 0.25 = inr z /\
     let x := (float_of_Z 0 * (1 - 0.25) + float_of_Z 3 * 0.25)%float in
     (exists q, float_value x = Some q /\ truncation_of q z) /\
     (exists r, round_float x = inr r /\ (r = z \/ Z.abs r = Z.abs z + 1))) /\
  (exists z, Helpers.interpolate_channel 0 3 0.25 = inr z /\
     let x := (float_of_Z 0 + 0.25 * float_of_Z (3 - 0))%float in
     (exists q, float_value x = Some q /\ truncation_of q z) /\
     (exists r, round_float x = inr r /\ (r = z \/ Z.abs r = Z.abs z + 1))) /\
  gradient_channel 0 3 0 = inr 0 /\ gradient_channel 0 3 1 = inr 3 /\
  Helpers.interpolate_channel 0 3 0 = inr 0 /\
  Helpers.interpolate_channel 0 3 1 = inr 3.
Proof.
  apply (interpolation_truncates 0 3 0.25);
    [unfold is_byte; lia | unfold is_byte; lia | split; reflexivity].
Defined.

Lemma unknown_texture_kind_witness :
  exists (a : Z) (w' : world),
    int_of_float (255 * 0.5)%float = inr a /\ is_byte a /\
    @apply_texture still_filters white_pixel "marble" 0.5 draws_200 =
      (inr (set_image white_pixel (flat_layer_over (0, 0, 0, a) (image white_pixel))), w') /\
    rand_pos w' = rand_pos draws_200.
Proof.
  apply (unknown_texture_kind_gives_flat_black_layer (F := still_filters)
           white_pixel "marble" 0.5 draws_200);
    [exact marble_unknown | exact white_pixel_ok | split; reflexivity].
Defined.

Lemma invalid_dimensions_witness :
  exists msg : string,
    validate_banner_request (request 0 5000 "modern") = inl (ValueError msg) /\
    @generate_banner still_filters (request 0 5000 "modern") draws_200 = (Error400 msg, draws_200).
Proof.
  apply (invalid_dimensions_fail_before_allocation (F := still_filters)
           (request 0 5000 "modern") (PInt 0) (PInt 5000) 0 5000 draws_200);
    [reflexivity | reflexivity | eexists; reflexivity | reflexivity | reflexivity | lia].
Defined.

Lemma overlay_opacity_witness :
  (exists w', apply_overlay white_pixel "#f4a261" 0 draws_200 = (inr white_pixel, w')) /\
  (exists t' w', apply_overlay white_pixel "#f4a261" 1 draws_200 = (inr t', w') /\
     canvas_ok t' /\ width t' = width white_pixel /\ height t' = height white_pixel /\
     data (image t') = Rgba (replicate (npixels (image white_pixel)) (244, 162, 97, 255))).
Proof.
  apply (overlay_opacity_zero_and_one white_pixel "#f4a261" 244 162 97 draws_200);
    [exact white_pixel_ok | reflexivity | lia | lia | lia].
Defined.

Lemma gradient_single_witness :
  Np.linspace01 1 = inr [0%float] /\
  (forall (t : BannerTransformer) (direction : string) (w : world),
     0 <= width t -> 0 <= height t ->
     (direction = "horizontal" /\ width t = 1) \/ (direction <> "horizontal" /\ height t = 1) ->
     exists w',
       gradient_layer t "#4361ee" "#3f37c9" direction w =
       (inr (flat_image (width t) (height t) (67, 97, 238, 255)), w')) /\
  (forall (direction : string) (w : world),
     exists w',
       apply_gradient (__init__ (base_image 1 1)) "#4361ee" "#3f37c9" direction w =
       (inr (__init__ (flat_image 1 1 (67, 97, 238, 255))), w')).
Proof.
  apply (gradient_on_single_column_or_row "#4361ee" "#3f37c9" 67 97 238 63 55 201);
    [reflexivity | reflexivity | unfold is_byte; lia ..].
Defined.

Lemma blurred_once_reachable :
  @reachable still_filters (image white_pixel) white_pixel.
Proof.
  apply (reachable_call (image white_pixel) (__init__ (image white_pixel)) white_pixel).
  - apply reachable_init.
  - apply (call_blur (__init__ (image white_pixel)) 2 draws_200 white_pixel
             (allocate (image white_pixel) draws_200)).
    reflexivity.
Defined.

Lemma operations_preserve_size_witness :
  size (image white_pixel) = size (image white_pixel) /\
  (width white_pixel, height white_pixel) = size (image white_pixel).
Proof.
  apply (operations_preserve_size (F := still_filters) (image white_pixel) white_pixel
           still_filters_keep_shape blurred_once_reachable).
Defined.

Lemma apply_effects_skips_witness :
  @apply_effect still_filters white_pixel ("sparkle", PNone) draws_200 = (inr white_pixel, draws_200) /\
  @apply_effects still_filters white_pixel ([("blur", PDict [])] ++ ("sparkle", PNone) :: []) draws_200 =
  @apply_effects still_filters white_pixel ([("blur", PDict [])] ++ []) draws_200.
Proof.
  apply (apply_effects_skips_unknown_entry (F := still_filters) white_pixel "sparkle" PNone
           [("blur", PDict [])] [] draws_200 sparkle_unknown).
Defined.

End Proofs.

(* ===================================================================== *)
(** * Further properties of [src/transformers.py] *)
(* ===================================================================== *)

Module TransformersProperties.
Import Py PIL World Transformers Dispatch App Spec Notions Proofs.

(** ** Colour strings *)

Lemma int_of_str_raises (base : Z) (s : string) (e : exn) :
  int_of_str base s = inl e -> exists msg, e = ValueError msg.
Proof.
  unfold int_of_str. destruct (match strip s with String _ _ => _ | _ => _ end); [done|].
  intros [= <-]. eauto.
Qed.

Lemma hex_rgb_raises (color : string) (e : exn) :
  hex_rgb color = inl e -> exists msg, e = ValueError msg.
Proof.
  unfold hex_rgb.
  destruct (int_of_str 16 (slice2 color 1)) as [e1|r] eqn:H1; cbn.
  { intros [= <-]. by eapply int_of_str_raises. }
  destruct (int_of_str 16 (slice2 color 3)) as [e2|g] eqn:H2; cbn.
  { intros [= <-]. by eapply int_of_str_raises. }
  destruct (int_of_str 16 (slice2 color 5)) as [e3|b] eqn:H3; cbn; [|done].
  intros [= <-]. by eapply int_of_str_raises.
Qed.

Lemma substring_short (n m : nat) (s : string) :
  (String.length s <= n)%nat -> substring n m s = "".
Proof.
  revert n. induction s as [|c s IH]; intros n Hn.
  - by destruct n, m.
  - destruct n as [|n]; [cbn in Hn; lia|]. cbn. apply IH. cbn in Hn. lia.
Qed.

(** A colour string of fewer than six characters has no blue band:
    [hex_rgb] raises [ValueError]. *)
Lemma hex_rgb_short (color : string) :
  (String.length color <= 5)%nat -> exists msg, hex_rgb color = inl (ValueError msg).
Proof.
  intros Hlen. destruct (hex_rgb color) as [e|[[r g] b]] eqn:Hc.
  - destruct (hex_rgb_raises _ _ Hc) as [msg ->]. eauto.
  - exfalso. unfold hex_rgb in Hc.
    destruct (int_of_str 16 (slice2 color 1)) as [e1|r'] eqn:H1; [done|]. cbn in Hc.
    destruct (int_of_str 16 (slice2 color 3)) as [e2|g'] eqn:H2; [done|]. cbn in Hc.
    unfold slice2 in Hc. rewrite (substring_short 5 2 color Hlen) in Hc. done.
Qed.

(** The colours are parsed before the gradient image is created: with a
    colour string of fewer than six characters [apply_gradient] raises
    [ValueError] and no image has been created. *)
Theorem apply_gradient_rejects_short_colour
    (t : BannerTransformer) (start_color end_color direction : string) (w : world) :
  (String.length start_color <= 5 \/ String.length end_color <= 5)%nat ->
  exists msg,
    apply_gradient t start_color end_color direction w = (inl (ValueError msg), w).
Proof.
  intros Hshort. unfold apply_gradient, gradient_layer. rewrite bind_M, bind_lift.
  destruct (hex_rgb start_color) as [e|start_rgb] eqn:Hs.
  { destruct (hex_rgb_raises _ _ Hs) as [msg ->]. eauto. }
  rewrite bind_lift.
  destruct (hex_rgb end_color) as [e|end_rgb] eqn:He.
  { destruct (hex_rgb_raises _ _ He) as [msg ->]. eauto. }
  exfalso. destruct Hshort as [H|H].
  - destruct (hex_rgb_short _ H) as [msg Hm]. congruence.
  - destruct (hex_rgb_short _ H) as [msg Hm]. congruence.
Qed.

Lemma apply_gradient_rejects_short_colour_witness :
  exists msg,
    apply_gradient white_pixel "#fff" "#3f37c9" "horizontal" draws_200 =
      (inl (ValueError msg), draws_200).
Proof.
  apply (apply_gradient_rejects_short_colour white_pixel "#fff" "#3f37c9" "horizontal" draws_200).
  left. cbn. lia.
Defined.

(** ** Formatting a colour and parsing it back *)

(** [format(n, '02x')] of a byte is two characters that [int(_, 16)]
    reads back as the byte. *)
Lemma format_02x_byte (n : Z) :
  is_byte n ->
  exists a b, Helpers.format_02x n = String a (String b "") /\
              int_of_str 16 (String a (String b "")) = inr n.
Proof.
  intros Hn.
  pose (check := fun n =>
    match Helpers.format_02x n with
    | String a (String b "") =>
        match int_of_str 16 (String a (String b "")) with
        | inr z => z =? n
        | inl _ => false
        end
    | _ => false
    end).
  assert (Hc : check n = true).
  { apply (byte_cases check); [by vm_compute|exact Hn]. }
  unfold check in Hc.
  destruct (Helpers.format_02x n) as [|a [|b [|c rest]]]; try discriminate Hc.
  exists a, b. split; [done|].
  destruct (int_of_str 16 (String a (String b ""))) as [e|z]; [discriminate Hc|].
  apply Z.eqb_eq in Hc. by subst.
Qed.

(** The string [_interpolate_color] formats from three bytes is read
    back by [hex_rgb] as the three bytes. *)
Theorem formatted_colour_parses_back (r g b : Z) :
  is_byte r -> is_byte g -> is_byte b ->
  hex_rgb ("#" +:+ Helpers.format_02x r +:+ Helpers.format_02x g +:+ Helpers.format_02x b) =
  inr (r, g, b).
Proof.
  intros Hr Hg Hb.
  destruct (format_02x_byte r Hr) as (r1 & r2 & -> & Hr').
  destruct (format_02x_byte g Hg) as (g1 & g2 & -> & Hg').
  destruct (format_02x_byte b Hb) as (b1 & b2 & -> & Hb').
  unfold hex_rgb, slice2. cbv [String.append]. cbn [substring].
  by rewrite Hr', Hg', Hb'.
Qed.

Lemma formatted_colour_parses_back_witness :
  hex_rgb ("#" +:+ Helpers.format_02x 67 +:+ Helpers.format_02x 97 +:+ Helpers.format_02x 238) =
  inr (67, 97, 238).
Proof. apply (formatted_colour_parses_back 67 97 238); unfold is_byte; lia. Defined.

(** ** The overlay at any opacity *)

(** For every opacity in [0, 1] and every colour that parses,
    [apply_overlay] returns: every pixel of the canvas is composited
    under one and the same ink, the colour of the overlay with alpha
    [int(255 * opacity)], a byte; the call creates two images and draws
    no random number. *)
Theorem apply_overlay_blends_one_ink
    (t : BannerTransformer) (color : string) (r g b : Z) (opacity : float) (w : world) :
  canvas_ok t ->
  hex_rgb color = inr (r, g, b) ->
  unit_interval opacity ->
  exists a : Z,
    int_of_float (255 * opacity)%float = inr a /\ is_byte a /\
    apply_overlay t color opacity w =
      (inr (set_image t (flat_layer_over (clip8 r, clip8 g, clip8 b, a) (image t))),
       allocate (image t) (allocate (image t) w)).
Proof.
  intros Hok Hc Ho.
  destruct (canvas_ok_data t Hok) as (px & Him & Hw & Hh & Hn).
  destruct (int_255_times_unit opacity Ho) as (a & Ha & Hb).
  exists a. split; [done|]. split; [done|].
  rewrite (apply_overlay_unfold t color opacity r g b a px) by done.
  unfold flat_layer_over. rewrite Him. cbn [data size getink].
  by rewrite (clip8_byte a Hb).
Qed.

Lemma apply_overlay_blends_one_ink_witness :
  exists a : Z,
    int_of_float (255 * 0.3)%float = inr a /\ is_byte a /\
    apply_overlay white_pixel "#f4a261" 0.3 draws_200 =
      (inr (set_image white_pixel
              (flat_layer_over (clip8 244, clip8 162, clip8 97, a) (image white_pixel))),
       allocate (image white_pixel) (allocate (image white_pixel) draws_200)).
Proof.
  apply (apply_overlay_blends_one_ink white_pixel "#f4a261" 244 162 97 0.3 draws_200);
    [exact white_pixel_ok | reflexivity | split; reflexivity].
Defined.

(** ** The gradient under a transparent and under an opaque canvas *)

Ltac invert_run H :=
  repeat match type of H with
  | (_ ≫= _) _ = (inr _, _) =>
      let a := fresh "a" in let w1 := fresh "w" in let H1 := fresh "Hrun" in
      apply bind_M_inr in H as (a & w1 & H1 & H);
      first [ apply lift_inr in H1 as [H1 ->]
            | apply creating_inr in H1 as [H1 ->]
            | idtac ]
  | mret _ _ = (inr _, _) => apply mret_inr in H as [-> ->]
  end.

Lemma clip8_is_byte (v : Z) : is_byte (clip8 v).
Proof.
  unfold clip8, is_byte. destruct (Z.leb_spec v 0); [lia|]. destruct (Z.ltb_spec v 256); lia.
Qed.

Lemma getink_byte_pixel (c : rgba) : byte_pixel (getink c).
Proof. destruct c as [[[r g] b] a]. cbn. repeat split; apply clip8_is_byte. Qed.

(** The gradient image holds bytes. *)
Lemma gradient_layer_bytes (t : BannerTransformer) (start_color end_color direction : string)
    (w w1 : world) (g : Image) :
  0 <= width t -> 0 <= height t ->
  gradient_layer t start_color end_color direction w = (inr g, w1) ->
  byte_image g.
Proof.
  intros Hw Hh Hrun. unfold gradient_layer in Hrun. invert_run Hrun.
  apply lift_inr in Hrun as [Hrun ->].
  rewrite new_RGBA_ok in Hrun3 by done. injection Hrun3 as <-.
  rewrite draw_gradient_raster in Hrun.
  apply (raster_loop_drawn _ _ _ (fun _ _ c => byte_pixel c)) in Hrun;
    [|done|done|rewrite length_replicate; lia|intros; apply getink_byte_pixel].
  apply drawn_all in Hrun as (px & -> & Hlen & Hpx);
    [|done|done|rewrite length_replicate; lia].
  unfold byte_image. cbn. apply Forall_lookup. intros i c Hi. by eapply Hpx.
Qed.

Lemma zip_with_composite_transparent (dst src : list rgba) :
  length dst = length src -> Forall (fun p => alpha p = 0) src ->
  zip_with composite_pixel dst src = dst.
Proof.
  revert src. induction dst as [|d dst IH]; intros [|s src] Hlen Hall; try done.
  cbn. inversion Hall as [|? ? Hs Hsrc]; subst. f_equal.
  - destruct s as [[[r g] b] a]. cbn in Hs. subst a. apply composite_pixel_transparent.
  - apply IH; [by injection Hlen|done].
Qed.

Lemma zip_with_composite_opaque (dst src : list rgba) :
  length dst = length src -> Forall (fun p => alpha p = 255) src -> Forall byte_pixel src ->
  zip_with composite_pixel dst src = src.
Proof.
  revert src. induction dst as [|d dst IH]; intros [|s src] Hlen Hall Hbytes; try done.
  cbn. inversion Hall as [|? ? Hs Hsrc]; inversion Hbytes as [|? ? Hb Hbs]; subst. f_equal.
  - destruct s as [[[r g] b] a]. cbn in Hs, Hb. subst a.
    destruct Hb as (? & ? & ? & _). by apply composite_pixel_opaque.
  - apply IH; [by injection Hlen|done|done].
Qed.

(** Over an opaque pixel the result is opaque, whatever the top pixel. *)
Lemma composite_pixel_over_opaque (dr dg db sr sg sb sa : Z) :
  is_byte sa -> alpha (composite_pixel (dr, dg, db, 255) (sr, sg, sb, sa)) = 255.
Proof.
  intros Ha. unfold composite_pixel. destruct (sa =? 0); [done|]. cbn [alpha snd].
  pose (f := fun sa =>
    u8 (shift_for_div255 (u32 (u32 (sa * 255 + u32 (255 * (255 - sa))) + 128))) =? 255).
  apply Z.eqb_eq. apply (byte_cases f); [by vm_compute|exact Ha].
Qed.

Lemma u8_is_byte (v : Z) : is_byte (u8 v).
Proof. unfold is_byte, u8. pose proof (Z.mod_pos_bound v (2 ^ 8) ltac:(lia)). change (2 ^ 8) with 256 in *. lia. Qed.

(** Compositing two pixels of bytes gives a pixel of bytes. *)
Lemma composite_pixel_bytes (dst src : rgba) :
  byte_pixel dst -> byte_pixel (composite_pixel dst src).
Proof.
  intros Hd. destruct dst as [[[dr dg] db] da], src as [[[sr sg] sb] sa].
  unfold composite_pixel. destruct (sa =? 0); [done|].
  cbn [byte_pixel]. repeat split; apply u8_is_byte.
Qed.

(** What [apply_gradient] leaves on a canvas that parses its colours. *)
Lemma apply_gradient_result
    (t : BannerTransformer) (start_color end_color direction : string)
    (start_rgb end_rgb : Z * Z * Z) (w : world) :
  canvas_ok t -> width t <= 2 ^ 63 -> height t <= 2 ^ 63 ->
  hex_rgb start_color = inr start_rgb -> hex_rgb end_color = inr end_rgb ->
  exists (t' : BannerTransformer) (w' : world) (g : Image) (w1 : world) (dst src : list rgba),
    apply_gradient t start_color end_color direction w = (inr t', w') /\
    gradient_layer t start_color end_color direction w = (inr g, w1) /\
    g = mkImage (width t, height t) (Rgba dst) /\
    image t = mkImage (width t, height t) (Rgba src) /\
    length dst = length src /\
    Forall byte_pixel dst /\ Forall (fun p => alpha p = 255) dst /\
    t' = set_image t (mkImage (width t, height t) (Rgba (zip_with composite_pixel dst src))).
Proof.
  intros Hok Hw63 Hh63 Hs He.
  destruct (canvas_ok_data t Hok) as (src & Him & Hw & Hh & Hn).
  destruct (apply_gradient_total t start_color end_color direction start_rgb end_rgb w
              Hok Hw63 Hh63 Hs He) as (t' & w' & Hrun).
  destruct (apply_gradient_inr t t' start_color end_color direction w w' Hok Hrun)
    as (g & w1 & Hg & Hsz & Hwf & Hop & Hcomp & _).
  pose proof (gradient_layer_bytes _ _ _ _ _ _ _ Hw Hh Hg) as Hbytes.
  exists t', w', g, w1.
  destruct g as [gsz [gpx|dst]]; [done|]. cbn in Hsz. subst gsz.
  exists dst, src. split; [done|]. split; [done|]. split; [done|]. split; [done|].
  destruct Hwf as (_ & _ & Hlen). unfold npixels in Hlen. cbn in Hlen.
  split; [lia|]. split; [exact Hbytes|]. split; [exact Hop|].
  unfold apply_gradient in Hrun. rewrite bind_M, Hg in Hrun.
  rewrite Him in Hrun. unfold alpha_composite in Hrun. cbn [data size] in Hrun.
  rewrite decide_True in Hrun by done. rewrite bind_creating in Hrun.
  by injection Hrun as <- _.
Qed.

Lemma set_image_same (t : BannerTransformer) (im : Image) : im = image t -> set_image t im = t.
Proof. intros ->. by destruct t. Qed.

(** On a canvas that is transparent in every pixel (as the base image
    of the route is), [apply_gradient] leaves exactly the gradient
    image. *)
Theorem apply_gradient_on_transparent_canvas
    (t : BannerTransformer) (start_color end_color direction : string)
    (start_rgb end_rgb : Z * Z * Z) (w : world) :
  canvas_ok t -> width t <= 2 ^ 63 -> height t <= 2 ^ 63 ->
  hex_rgb start_color = inr start_rgb -> hex_rgb end_color = inr end_rgb ->
  transparent (image t) ->
  exists (t' : BannerTransformer) (w' : world) (gradient_image : Image) (w1 : world),
    apply_gradient t start_color end_color direction w = (inr t', w') /\
    gradient_layer t start_color end_color direction w = (inr gradient_image, w1) /\
    image t' = gradient_image.
Proof.
  intros Hok Hw Hh Hs He Htr.
  destruct (apply_gradient_result t start_color end_color direction start_rgb end_rgb w
              Hok Hw Hh Hs He)
    as (t' & w' & g & w1 & dst & src & Hrun & Hg & -> & Him & Hlen & _ & _ & ->).
  eexists _, w', _, w1. split; [exact Hrun|]. split; [exact Hg|].
  cbn [set_image image]. unfold transparent in Htr. rewrite Him in Htr. cbn in Htr.
  by rewrite zip_with_composite_transparent.
Qed.

(** On a canvas that is opaque in every pixel, [apply_gradient] changes
    nothing: the canvas is the top operand of the composite and hides
    the gradient. *)
Theorem apply_gradient_on_opaque_canvas
    (t : BannerTransformer) (start_color end_color direction : string)
    (start_rgb end_rgb : Z * Z * Z) (w : world) :
  canvas_ok t -> width t <= 2 ^ 63 -> height t <= 2 ^ 63 ->
  hex_rgb start_color = inr start_rgb -> hex_rgb end_color = inr end_rgb ->
  opaque (image t) -> byte_image (image t) ->
  exists w' : world, apply_gradient t start_color end_color direction w = (inr t, w').
Proof.
  intros Hok Hw Hh Hs He Hop Hby.
  destruct (apply_gradient_result t start_color end_color direction start_rgb end_rgb w
              Hok Hw Hh Hs He)
    as (t' & w' & g & w1 & dst & src & Hrun & Hg & -> & Him & Hlen & _ & _ & ->).
  exists w'. rewrite Hrun. do 2 f_equal. apply set_image_same.
  unfold opaque in Hop. unfold byte_image in Hby. rewrite Him in Hop, Hby |- *. cbn in Hop, Hby.
  by rewrite zip_with_composite_opaque.
Qed.

Lemma zip_with_composite_over_opaque (dst src : list rgba) :
  Forall (fun p => alpha p = 255) dst -> Forall byte_pixel dst -> Forall byte_pixel src ->
  Forall (fun p => alpha p = 255) (zip_with composite_pixel dst src) /\
  Forall byte_pixel (zip_with composite_pixel dst src).
Proof.
  revert src. induction dst as [|d dst IH]; intros [|s src] Hop Hd Hs; cbn; try done.
  inversion Hop as [|? ? Ha Hop']; inversion Hd as [|? ? Hbd Hd'];
    inversion Hs as [|? ? Hbs Hs']; subst.
  destruct (IH src Hop' Hd' Hs') as [IH1 IH2].
  split; constructor; try done.
  - destruct d as [[[dr dg] db] da], s as [[[sr sg] sb] sa]. cbn in Ha. subst da.
    apply composite_pixel_over_opaque. by destruct Hbs as (_ & _ & _ & ?).
  - by apply composite_pixel_bytes.
Qed.

(** After [apply_gradient] every pixel of the canvas is opaque: whatever
    the alpha of the canvas was, the gradient image under it has alpha
    255. *)
Theorem apply_gradient_leaves_opaque_canvas
    (t : BannerTransformer) (start_color end_color direction : string)
    (start_rgb end_rgb : Z * Z * Z) (w : world) :
  canvas_ok t -> width t <= 2 ^ 63 -> height t <= 2 ^ 63 ->
  hex_rgb start_color = inr start_rgb -> hex_rgb end_color = inr end_rgb ->
  byte_image (image t) ->
  exists (t' : BannerTransformer) (w' : world),
    apply_gradient t start_color end_color direction w = (inr t', w') /\
    canvas_ok t' /\ opaque (image t') /\ byte_image (image t').
Proof.
  intros Hok Hw Hh Hs He Hby.
  destruct (apply_gradient_result t start_color end_color direction start_rgb end_rgb w
              Hok Hw Hh Hs He)
    as (t' & w' & g & w1 & dst & src & Hrun & Hg & -> & Him & Hlen & Hbd & Hop & ->).
  eexists _, w'. split; [exact Hrun|].
  destruct (canvas_ok_data t Hok) as (px & Him' & Hw0 & Hh0 & Hn).
  rewrite Him in Him'. injection Him' as <-.
  unfold byte_image in Hby. rewrite Him in Hby. cbn in Hby.
  destruct (zip_with_composite_over_opaque dst src Hop Hbd Hby) as [H1 H2].
  split; [|split; [exact H1|exact H2]].
  unfold canvas_ok, wf, mode, npixels. cbn. rewrite length_zip_with.
  repeat split; (done || lia).
Qed.

(** ** Glow and drop shadow on an opaque canvas *)

Section WithFilters.
Context {F : Filters}.

(** An image of the shape of an RGBA image of [n] pixels. *)
Lemma same_shape_rgba (sz : Z * Z) (px : list rgba) (im' : Image) :
  same_shape (mkImage sz (Rgba px)) im' ->
  exists px', im' = mkImage sz (Rgba px') /\ length px' = length px.
Proof.
  intros (Hm & Hs & Hn). destruct im' as [sz' [l|px']]; [done|].
  cbn in Hs. subst sz'. unfold npixels in Hn. cbn in Hn. eauto.
Qed.

Lemma alpha_composite_under_opaque (sz : Z * Z) (dst src : list rgba) :
  length dst = length src -> Forall (fun p => alpha p = 255) src -> Forall byte_pixel src ->
  alpha_composite (mkImage sz (Rgba dst)) (mkImage sz (Rgba src)) = inr (mkImage sz (Rgba src)).
Proof.
  intros Hlen Hop Hby. unfold alpha_composite. cbn [data size].
  rewrite decide_True by done. by rewrite zip_with_composite_opaque.
Qed.

Lemma apply_glow_opaque_run
    (t : BannerTransformer) (spread : Z) (intensity : float) (w : world)
    (src : list rgba) (g1 g2 : Image) :
  filters_keep_shape F ->
  image t = mkImage (width t, height t) (Rgba src) ->
  Forall (fun p => alpha p = 255) src -> Forall byte_pixel src ->
  GaussianBlur spread (image t) = inr g1 ->
  Brightness_enhance intensity g1 = inr g2 ->
  exists w', apply_glow t spread intensity w = (inr t, w').
Proof.
  intros HF Him Hop Hby Hg1 Hg2.
  unfold apply_glow. rewrite Hg1, bind_creating, Hg2, bind_creating.
  rewrite Him in Hg1.
  apply (GaussianBlur_shape F HF), same_shape_rgba in Hg1 as (px1 & -> & Hl1).
  apply (Brightness_shape F HF), same_shape_rgba in Hg2 as (px2 & -> & Hl2).
  rewrite Him, alpha_composite_under_opaque by (done || congruence).
  rewrite bind_creating. eexists. unfold mret, M_ret.
  rewrite set_image_same by (by rewrite Him). reflexivity.
Qed.

(** On an opaque canvas [apply_glow] changes nothing: the canvas is
    composited over its own blurred copy and hides it. *)
Theorem apply_glow_on_opaque_canvas
    (t : BannerTransformer) (spread : Z) (intensity : float) (w : world) :
  filters_keep_shape F ->
  canvas_ok t -> opaque (image t) -> byte_image (image t) ->
  (forall t' w', apply_glow t spread intensity w = (inr t', w') -> t' = t) /\
  (filters_return F -> exists w', apply_glow t spread intensity w = (inr t, w')).
Proof.
  intros HF Hok Hop Hby.
  destruct (canvas_ok_data t Hok) as (src & Him & Hw & Hh & Hn).
  unfold opaque in Hop. unfold byte_image in Hby. rewrite Him in Hop, Hby. cbn in Hop, Hby.
  split.
  - intros t' w' Hrun. pose proof Hrun as Hrun'.
    unfold apply_glow in Hrun. invert_run Hrun.
    destruct (apply_glow_opaque_run t spread intensity w src _ _ HF Him Hop Hby Hrun0 Hrun1)
      as [w'' Hw'']. congruence.
  - intros HR.
    destruct (GaussianBlur_returns F HR spread (image t)) as [g1 Hg1].
    destruct (Brightness_returns F HR intensity g1) as [g2 Hg2].
    by eapply apply_glow_opaque_run.
Qed.

Lemma apply_drop_shadow_opaque_run
    (t : BannerTransformer) (offset : Z * Z) (shadow_color : string) (blur_radius : Z)
    (w : world) (src : list rgba) (s1 s2 : Image) (rgb : Z * Z * Z) :
  filters_keep_shape F ->
  image t = mkImage (width t, height t) (Rgba src) ->
  0 <= width t -> 0 <= height t -> Z.of_nat (length src) = width t * height t ->
  Forall (fun p => alpha p = 255) src -> Forall byte_pixel src ->
  paste (mkImage (width t, height t) (Rgba (replicate (length src) (0, 0, 0, 0))))
    (image t) offset = inr s1 ->
  GaussianBlur blur_radius s1 = inr s2 ->
  hex_rgb shadow_color = inr rgb ->
  exists w', apply_drop_shadow t offset shadow_color blur_radius w = (inr t, w').
Proof.
  intros HF Him Hw Hh Hn Hop Hby Hs1 Hs2 Hc. destruct rgb as [[r g] b].
  assert (Hnew : new_RGBA (size (image t)) (0, 0, 0, 0) =
                 inr (mkImage (width t, height t)
                        (Rgba (replicate (length src) (0, 0, 0, 0))))).
  { rewrite Him. cbn [size]. rewrite new_RGBA_ok by lia. do 4 f_equal. lia. }
  unfold apply_drop_shadow. rewrite Hnew, bind_creating, bind_lift, Hs1. cbv iota beta.
  apply (paste_shape F HF), same_shape_rgba in Hs1 as (px1 & -> & Hl1).
  rewrite length_replicate in Hl1.
  rewrite Hs2, bind_creating.
  apply (GaussianBlur_shape F HF), same_shape_rgba in Hs2 as (px2 & -> & Hl2).
  rewrite bind_lift, Hc. cbv iota beta. rewrite bind_lift. cbn [getdata data]. unfold ret. cbv iota beta.
  rewrite bind_lift. unfold putdata, ret. cbn [data size]. rewrite length_fmap.
  replace (length px2 <? length px2)%nat with false by (symmetry; apply Nat.ltb_irrefl).
  cbv iota beta. rewrite bind_creating.
  unfold alpha_composite at 2. cbn [data size]. rewrite decide_True by done.
  rewrite bind_creating. rewrite Him. unfold alpha_composite. cbn [data size].
  rewrite decide_True by done. rewrite bind_creating.
  eexists. unfold mret, M_ret.
  rewrite zip_with_composite_opaque;
    [|rewrite length_zip_with, length_replicate, length_app, length_drop, !length_fmap; lia
     |done|done].
  rewrite set_image_same by (by rewrite Him). reflexivity.
Qed.

(** On an opaque canvas [apply_drop_shadow] changes nothing: the canvas
    is composited last, over the shadow, and hides it. *)
Theorem apply_drop_shadow_on_opaque_canvas
    (t : BannerTransformer) (offset : Z * Z) (shadow_color : string) (blur_radius : Z)
    (w : world) :
  filters_keep_shape F ->
  canvas_ok t -> opaque (image t) -> byte_image (image t) ->
  (forall t' w', apply_drop_shadow t offset shadow_color blur_radius w = (inr t', w') -> t' = t) /\
  (filters_return F -> (exists rgb, hex_rgb shadow_color = inr rgb) ->
   exists w', apply_drop_shadow t offset shadow_color blur_radius w = (inr t, w')).
Proof.
  intros HF Hok Hop Hby.
  destruct (canvas_ok_data t Hok) as (src & Him & Hw & Hh & Hn).
  unfold opaque in Hop. unfold byte_image in Hby. rewrite Him in Hop, Hby. cbn in Hop, Hby.
  assert (Hnew : new_RGBA (size (image t)) (0, 0, 0, 0) =
                 inr (mkImage (width t, height t)
                        (Rgba (replicate (length src) (0, 0, 0, 0))))).
  { rewrite Him. cbn [size]. rewrite new_RGBA_ok by lia. do 4 f_equal. lia. }
  split.
  - intros t' w' Hrun. pose proof Hrun as Hrun'.
    unfold apply_drop_shadow in Hrun. invert_run Hrun.
    rewrite Hnew in Hrun0. injection Hrun0 as <-.
    destruct (apply_drop_shadow_opaque_run t offset shadow_color blur_radius w src
                _ _ _ HF Him Hw Hh Hn Hop Hby Hrun1 Hrun2 Hrun3) as [w'' Hw''].
    congruence.
  - intros HR [rgb Hc].
    destruct (paste_returns F HR (mkImage (width t, height t)
                (Rgba (replicate (length src) (0, 0, 0, 0)))) (image t) offset) as [s1 Hs1].
    destruct (GaussianBlur_returns F HR blur_radius s1) as [s2 Hs2].
    by eapply apply_drop_shadow_opaque_run.
Qed.

End WithFilters.
(** ** The theorems at concrete inputs *)


Lemma white_pixel_opaque : opaque (image white_pixel).
Proof. unfold opaque. cbn. by repeat constructor. Qed.

Lemma white_pixel_bytes : byte_image (image white_pixel).
Proof. unfold byte_image, byte_pixel, is_byte. cbn. repeat constructor; lia. Qed.

Lemma two_columns_ok : canvas_ok (__init__ (base_image 2 1)).
Proof.
  unfold canvas_ok, wf, mode, npixels. cbn.
  split; [reflexivity|]. split; [reflexivity|]. split; [lia|]. split; [lia|reflexivity].
Qed.

Lemma two_columns_transparent : transparent (image (__init__ (base_image 2 1))).
Proof. unfold transparent. cbn. by repeat constructor. Qed.

Lemma apply_gradient_on_transparent_canvas_witness :
  exists (t' : BannerTransformer) (w' : world) (gradient_image : Image) (w1 : world),
    apply_gradient (__init__ (base_image 2 1)) "#4361ee" "#3f37c9" "horizontal" draws_200 =
      (inr t', w') /\
    gradient_layer (__init__ (base_image 2 1)) "#4361ee" "#3f37c9" "horizontal" draws_200 =
      (inr gradient_image, w1) /\
    image t' = gradient_image.
Proof.
  apply (apply_gradient_on_transparent_canvas (__init__ (base_image 2 1))
           "#4361ee" "#3f37c9" "horizontal" (67, 97, 238) (63, 55, 201) draws_200);
    [exact two_columns_ok | vm_compute; discriminate | vm_compute; discriminate
    | reflexivity | reflexivity | exact two_columns_transparent].
Defined.

Lemma apply_gradient_on_opaque_canvas_witness :
  exists w' : world,
    apply_gradient white_pixel "#4361ee" "#3f37c9" "horizontal" draws_200 = (inr white_pixel, w').
Proof.
  apply (apply_gradient_on_opaque_canvas white_pixel
           "#4361ee" "#3f37c9" "horizontal" (67, 97, 238) (63, 55, 201) draws_200);
    [exact white_pixel_ok | vm_compute; discriminate | vm_compute; discriminate
    | reflexivity | reflexivity | exact white_pixel_opaque | exact white_pixel_bytes].
Defined.

Lemma apply_gradient_leaves_opaque_canvas_witness :
  exists (t' : BannerTransformer) (w' : world),
    apply_gradient (__init__ (base_image 2 1)) "#4361ee" "#3f37c9" "vertical" draws_200 =
      (inr t', w') /\
    canvas_ok t' /\ opaque (image t') /\ byte_image (image t').
Proof.
  apply (apply_gradient_leaves_opaque_canvas (__init__ (base_image 2 1))
           "#4361ee" "#3f37c9" "vertical" (67, 97, 238) (63, 55, 201) draws_200);
    [exact two_columns_ok | vm_compute; discriminate | vm_compute; discriminate
    | reflexivity | reflexivity
    | unfold byte_image, byte_pixel, is_byte; cbn; repeat constructor; lia].
Defined.

Lemma apply_glow_on_opaque_canvas_witness :
  (forall t' w', @apply_glow still_filters white_pixel 20 0.6 draws_200 = (inr t', w') ->
     t' = white_pixel) /\
  (filters_return still_filters ->
   exists w', @apply_glow still_filters white_pixel 20 0.6 draws_200 = (inr white_pixel, w')).
Proof.
  apply (apply_glow_on_opaque_canvas (F := still_filters) white_pixel 20 0.6 draws_200
           still_filters_keep_shape white_pixel_ok white_pixel_opaque white_pixel_bytes).
Defined.

Lemma apply_drop_shadow_on_opaque_canvas_witness :
  (forall t' w',
     @apply_drop_shadow still_filters white_pixel (5, 5) "#000000" 3 draws_200 = (inr t', w') ->
     t' = white_pixel) /\
  (filters_return still_filters -> (exists rgb, hex_rgb "#000000" = inr rgb) ->
   exists w',
     @apply_drop_shadow still_filters white_pixel (5, 5) "#000000" 3 draws_200 =
       (inr white_pixel, w')).
Proof.
  apply (apply_drop_shadow_on_opaque_canvas (F := still_filters) white_pixel (5, 5) "#000000" 3
           draws_200 still_filters_keep_shape white_pixel_ok white_pixel_opaque
           white_pixel_bytes).
Defined.

End TransformersProperties.

(* ===================================================================== *)
(** * Further properties of [src/app.py] *)
(* ===================================================================== *)

Module AppProperties.
Import Py PIL World Transformers Dispatch App Spec Notions Proofs TransformersProperties.

Section WithFilters.
Context {F : Filters}.

(** ** The presets that complete *)





(** What validation returns is within the limits, and is what the
    request holds. *)
Lemma validate_banner_request_inr
    (request_data : gmap string pyval) (width height : Z) (style : pyval) :
  validate_banner_request request_data = inr (width, height, style) ->
  0 < width <= 4000 /\ 0 < height <= 4000 /\
  request_data !! "style" = Some style /\
  (exists wv, request_data !! "width" = Some wv /\ int_ wv = inr width) /\
  (exists hv, request_data !! "height" = Some hv /\ int_ hv = inr height).
Proof.
  unfold validate_banner_request, required_fields, field. cbn [for_].
  destruct (request_data !! "width") as [wv|] eqn:Hw; [|done].
  destruct (request_data !! "height") as [hv|] eqn:Hh; [|done].
  destruct (request_data !! "style") as [sv|] eqn:Hs; [|done].
  cbn [bind ret mbind res_bind default id].
  destruct (int_ wv) as [e|wd] eqn:Hwi; [done|].
  destruct (int_ hv) as [e|ht] eqn:Hhi; [done|]. cbn.
  destruct ((wd <=? 0) || (ht <=? 0)) eqn:Hneg; [done|].
  destruct ((4000 <? wd) || (4000 <? ht)) eqn:Hbig; [done|].
  intros [= <- <- <-]. apply orb_false_elim in Hneg as [? ?], Hbig as [? ?].
  repeat split; try lia; eauto.
Qed.











(** ** Requests that validation refuses, and how the route answers *)

(** A request without one of the three required fields is refused with
    a [ValueError] that names the first missing field in the order
    width, height, style; the route answers 400 and no image has been
    created. *)
Theorem missing_field_is_refused (request_data : gmap string pyval) (name : string) (w : world) :
  first_missing request_data = Some name ->
  validate_banner_request request_data =
    inl (ValueError ("Missing required field: " ++ name)) /\
  generate_banner request_data w = (Error400 ("Missing required field: " ++ name), w).
Proof.
  intros Hmiss.
  assert (Hv : validate_banner_request request_data =
               inl (ValueError ("Missing required field: " ++ name))).
  { unfold first_missing, required_fields in Hmiss. cbn [List.find] in Hmiss.
    unfold validate_banner_request, required_fields. cbn [for_].
    destruct (request_data !! "width") as [wv|]; [|by injection Hmiss as <-].
    rewrite bool_decide_eq_false_2 in Hmiss by done.
    destruct (request_data !! "height") as [hv|]; [|by injection Hmiss as <-].
    rewrite bool_decide_eq_false_2 in Hmiss by done.
    destruct (request_data !! "style") as [sv|]; [|by injection Hmiss as <-].
    by rewrite bool_decide_eq_false_2 in Hmiss. }
  split; [exact Hv|].
  unfold generate_banner, run_pipeline. unfold mbind at 1, M_bind at 1, lift at 1.
  by rewrite Hv.
Qed.

(** When [int()] rejects the width or the height, the route answers 400
    with the message of [int] if the error is a [ValueError] (text that
    is not a number, a NaN) and 500 otherwise (null, a list or an object:
    [TypeError]; an infinite number: [OverflowError]); in both cases no
    image has been created. *)
Theorem unconvertible_size_is_refused
    (request_data : gmap string pyval) (wv hv : pyval) (e : exn) (w : world) :
  request_data !! "width" = Some wv ->
  request_data !! "height" = Some hv ->
  is_Some (request_data !! "style") ->
  int_ wv = inl e \/ ((exists width, int_ wv = inr width) /\ int_ hv = inl e) ->
  validate_banner_request request_data = inl e /\
  generate_banner request_data w =
    (match e with
     | ValueError msg => Error400 msg
     | IllTyped _ => Unmodelled
     | _ => Error500
     end, w).
Proof.
  intros Hw Hh [sv Hs] He.
  assert (Hv : validate_banner_request request_data = inl e).
  { unfold validate_banner_request, required_fields, field. cbn [for_].
    rewrite Hw, Hh, Hs. cbn [bind ret mbind res_bind].
    destruct He as [->|[[width ->] ->]]; reflexivity. }
  split; [exact Hv|].
  unfold generate_banner, run_pipeline. unfold mbind at 1, M_bind at 1, lift at 1.
  rewrite Hv. by destruct e.
Qed.

(** A style that is not a string is not refused by validation: the base
    image is created, then [getattr] raises [TypeError] and the route
    answers 500. *)
Theorem style_that_is_not_a_string
    (request_data : gmap string pyval) (width height : Z) (style : pyval) (w : world) :
  validate_banner_request request_data = inr (width, height, style) ->
  (forall name, style <> PStr name) ->
  generate_banner request_data w = (Error500, allocate (base_image width height) w).
Proof.
  intros Hv Hstyle.
  destruct (validate_banner_request_inr _ _ _ _ Hv) as (Hw & Hh & _).
  rewrite (generate_banner_unfold _ _ _ _ _ Hv), render_unfold by lia.
  destruct style; try reflexivity. by destruct (Hstyle s).
Qed.



End WithFilters.
(** ** The theorems at concrete inputs *)




Lemma missing_field_is_refused_witness :
  validate_banner_request {[ "width" := PInt 800; "style" := PStr "bold" ]} =
    inl (ValueError ("Missing required field: " ++ "height")) /\
  @generate_banner still_filters {[ "width" := PInt 800; "style" := PStr "bold" ]} draws_200 =
    (Error400 ("Missing required field: " ++ "height"), draws_200).
Proof.
  apply (missing_field_is_refused (F := still_filters)
           {[ "width" := PInt 800; "style" := PStr "bold" ]} "height" draws_200).
  reflexivity.
Defined.

Lemma unconvertible_size_is_refused_witness :
  validate_banner_request
    {[ "width" := PNone; "height" := PInt 400; "style" := PStr "bold" ]} =
    inl (TypeError "int() argument must be a string or a real number") /\
  @generate_banner still_filters
    {[ "width" := PNone; "height" := PInt 400; "style" := PStr "bold" ]} draws_200 =
    (Error500, draws_200).
Proof.
  apply (unconvertible_size_is_refused (F := still_filters)
           {[ "width" := PNone; "height" := PInt 400; "style" := PStr "bold" ]}
           PNone (PInt 400) (TypeError "int() argument must be a string or a real number")
           draws_200);
    [reflexivity | reflexivity | eexists; reflexivity | left; reflexivity].
Defined.

Lemma style_that_is_not_a_string_witness :
  @generate_banner still_filters
    {[ "width" := PInt 800; "height" := PInt 400; "style" := PInt 3 ]} draws_200 =
    (Error500, allocate (base_image 800 400) draws_200).
Proof.
  apply (style_that_is_not_a_string (F := still_filters)
           {[ "width" := PInt 800; "height" := PInt 400; "style" := PInt 3 ]}
           800 400 (PInt 3) draws_200);
    [reflexivity | discriminate].
Defined.


End AppProperties.

(* ===================================================================== *)
(** * Further properties of the textures and of the effect table *)
(* ===================================================================== *)

Module TextureProperties.
Import Py PIL World Transformers Dispatch App Spec Notions Proofs TransformersProperties.

(** ** The cells of an array in row-major order *)

Lemma ravel_row_major {A} (draw : Z -> Z -> A) (rows : nat) (cols : Z) :
  0 <= cols ->
  Np.ravel (Np.Ndarray (Z.of_nat rows) cols draw) =
  (fun k => draw (k / cols) (k mod cols)) <$> seqZ 0 (Z.of_nat rows * cols).
Proof.
  intros Hc. unfold Np.ravel. cbn [Np.nrows Np.ncols Np.cell].
  induction rows as [|rows IH].
  - reflexivity.
  - rewrite seqZ_S, bind_app, IH. cbn [mbind list_bind]. rewrite app_nil_r.
    replace (Z.of_nat (S rows) * cols) with (Z.of_nat rows * cols + cols) by lia.
    rewrite seqZ_app by lia. rewrite fmap_app. f_equal.
    replace (0 + Z.of_nat rows * cols) with (Z.of_nat rows * cols + 0) by lia.
    rewrite <- (fmap_add_seqZ (Z.of_nat rows * cols) 0 cols), <- list_fmap_compose.
    apply list_fmap_ext. intros i j Hj. apply lookup_seqZ in Hj as [-> Hi]. cbn.
    replace (Z.of_nat rows * cols + (0 + Z.of_nat i))
      with (Z.of_nat i + Z.of_nat rows * cols) by lia.
    rewrite Z.div_add, Z.mod_add, Z.div_small, Z.mod_small by lia.
    by rewrite !Z.add_0_l.
Qed.

Lemma zip_with_seqZ {A B C} (f : A -> B -> C) (g : Z -> B) (l : list A) (m : Z) :
  zip_with f l (g <$> seqZ m (Z.of_nat (length l))) =
  imap (fun i a => f a (g (m + Z.of_nat i))) l.
Proof.
  revert m. induction l as [|a l IH]; intros m; [reflexivity|].
  cbn [length]. rewrite seqZ_cons by lia. rewrite imap_cons. cbn [fmap list_fmap zip_with].
  rewrite Z.add_0_r. f_equal.
  replace (Z.pred (Z.of_nat (S (length l)))) with (Z.of_nat (length l)) by lia.
  rewrite IH. apply imap_ext. intros i x _. cbn. do 2 f_equal. lia.
Qed.


(** ** The texture [paper] *)

(** A loop in [M] whose body returns whenever the invariant holds
    returns, and the invariant holds at its end. *)
Lemma forM_range_total {S} (n : Z) (body : S -> Z -> M S) (Inv : Z -> S -> world -> Prop)
    (s0 : S) (w0 : world) :
  0 <= n ->
  Inv 0 s0 w0 ->
  (forall k s1 w1, 0 <= k < n -> Inv k s1 w1 ->
     exists s2 w2, body s1 k w1 = (inr s2, w2) /\ Inv (k + 1) s2 w2) ->
  exists s w', forM (seqZ 0 n) body s0 w0 = (inr s, w') /\ Inv n s w'.
Proof.
  intros Hn H0. pattern n. apply natlike_ind; [| |exact Hn].
  - intros _. exists s0, w0. by rewrite seqZ_nil by lia.
  - intros k Hk IH Hstep.
    destruct IH as (s1 & w1 & Hl & HI); [intros; apply Hstep; auto with lia|].
    destruct (Hstep k s1 w1) as (s2 & w2 & Hb & HI2); [lia|done|].
    exists s2, w2. replace (Z.succ k) with (k + 1) by lia. split; [|done].
    rewrite seqZ_app by lia. rewrite (seqZ_cons _ 1) by lia.
    rewrite (seqZ_nil _ (Z.pred 1)) by lia. rewrite forM_app, Hl, forM_cons.
    rewrite Z.add_0_l, Hb. reflexivity.
Qed.

Section WithFilters.
Context {F : Filters}.

(** ** The texture [noise] *)

(** For the kind [noise] and every opacity in [0, 1], [apply_texture]
    returns and consumes one draw of the generator per pixel, in
    row-major order: pixel [i] is composited under the grey
    [(v, v, v, int(255 * opacity))] where [v] is draw [i] reduced to
    [0 .. 254] (the upper bound 255 of [np.random.randint] is
    excluded). *)
Theorem noise_texture_uses_one_draw_per_pixel
    (t : BannerTransformer) (opacity : float) (w : world) :
  canvas_ok t -> unit_interval opacity ->
  exists (a : Z) (px : list rgba) (w' : world),
    int_of_float (255 * opacity)%float = inr a /\ is_byte a /\
    data (image t) = Rgba px /\
    apply_texture t "noise" opacity w =
      (inr (set_image t (mkImage (width t, height t)
              (Rgba (imap (fun i p =>
                       let v := rand_int w (rand_pos w + i) mod 255 in
                       composite_pixel p (v, v, v, a)) px)))), w') /\
    rand_pos w' = (rand_pos w + Z.to_nat (width t * height t))%nat.
Proof.
  intros Hok Ho.
  destruct (canvas_ok_data t Hok) as (px & Him & Hw & Hh & Hn).
  destruct (int_255_times_unit opacity Ho) as (a & Ha & Hb).
  exists a, px. eexists. split; [done|]. split; [done|].
  split; [by rewrite Him|].
  unfold apply_texture. rewrite new_RGBA_ok by lia. rewrite bind_creating.
  cbn [String.eqb Ascii.eqb Bool.eqb]. cbv iota.
  rewrite bind_M. rewrite bind_M. unfold np_random_randint at 1. cbn [Z.leb Z.compare].
  cbv iota beta. unfold ret. unfold creating at 1. cbv iota beta.
  rewrite bind_creating, bind_lift, Ha. cbv iota beta.
  cbn [allocate rand_int rand_pos].
  unfold fromarray_L, convert_RGBA. cbn [Np.ncols Np.nrows data size].
  rewrite !Z.max_r by lia.
  replace (height t) with (Z.of_nat (Z.to_nat (height t))) at 1 2 3 by lia.
  rewrite (ravel_row_major _ (Z.to_nat (height t)) (width t) Hw).
  rewrite bind_lift. unfold putalpha.
  replace (a <? - 2 ^ 31) with false by (unfold is_byte in Hb; lia).
  replace (2 ^ 31 <=? a) with false by (unfold is_byte in Hb; lia).
  cbn [orb data size]. unfold ret. cbv iota beta.
  rewrite Him. unfold alpha_composite. cbn [data size].
  rewrite Z2Nat.id by lia. rewrite decide_True by done.
  rewrite bind_creating. unfold mret, M_ret. split.
  - do 5 f_equal. rewrite <- !list_fmap_compose.
    replace (height t * width t) with (Z.of_nat (length px)) by lia.
    rewrite zip_with_seqZ. apply imap_ext. intros i p Hi. cbn.
    rewrite (clip8_byte a Hb), !Z.add_0_l.
    apply lookup_lt_Some in Hi.
    assert (0 < width t) by nia.
    replace (Z.of_nat i / width t * width t + Z.of_nat i mod width t) with (Z.of_nat i)
      by (rewrite Z.mul_comm; apply Z.div_mod; lia).
    by rewrite Nat2Z.id.
  - cbn. f_equal. lia.
Qed.


Lemma new_L_ok (width height : Z) :
  0 <= width -> 0 <= height ->
  new_L (width, height) =
  inr (mkImage (width, height) (Lum (replicate (Z.to_nat (width * height)) 0))).
Proof.
  intros Hw Hh. unfold new_L, check_size. cbn [fst snd].
  replace (width <? 0) with false by lia. replace (height <? 0) with false by lia.
  reflexivity.
Qed.

(** [_create_paper_texture] consumes one draw of the generator per
    pixel, column by column: pixel [(x, y)] of the image handed to the
    blur is draw [x * height + y] reduced to [200 .. 255]. *)
Theorem paper_texture_uses_one_draw_per_pixel (t : BannerTransformer) (w : world) :
  0 <= width t -> 0 <= height t ->
  exists (l : list Z) (w1 : world),
    Z.of_nat (length l) = width t * height t /\
    (forall x y, 0 <= x < width t -> 0 <= y < height t ->
       l !! offset (width t) x y =
       Some (200 + rand_int w (rand_pos w + Z.to_nat (x * height t + y)) mod 56)) /\
    rand_pos w1 = (rand_pos w + Z.to_nat (width t * height t))%nat /\
    _create_paper_texture t w =
      creating (GaussianBlur 1 (mkImage (width t, height t) (Lum l))) w1.
Proof.
  intros Hw Hh. set (W := width t) in *. set (H := height t) in *.
  set (l0 := replicate (Z.to_nat (W * H)) 0).
  set (w0 := allocate (mkImage (W, H) (Lum l0)) w).
  pose (value := fun x y => 200 + rand_int w (rand_pos w + Z.to_nat (x * H + y)) mod 56).
  pose (Inv := fun (k j : Z) (tex : Image) (w' : world) =>
    exists l, tex = mkImage (W, H) (Lum l) /\ Z.of_nat (length l) = W * H /\
      (forall x y, 0 <= x < W -> 0 <= y < H -> x < k \/ (x = k /\ y < j) ->
         l !! offset W x y = Some (value x y)) /\
      rand_int w' = rand_int w /\
      rand_pos w' = (rand_pos w + Z.to_nat (k * H + j))%nat).
  assert (Hnext : forall k tex w', 0 <= k -> Inv k H tex w' -> Inv (k + 1) 0 tex w').
  { intros k tex w' Hk (l & -> & Hlen & Hl & Hri & Hrp). exists l.
    split; [done|]. split; [done|]. split; [|split; [done|]].
    - intros x y Hx Hy Hc. apply Hl; [done..|]. destruct Hc as [?|[? ?]]; lia.
    - rewrite Hrp. f_equal. f_equal. lia. }
  assert (Hstep : forall k j tex w', 0 <= k < W -> 0 <= j < H -> Inv k j tex w' ->
            exists tex' w'',
              (noise ← random_randint 200 255; lift (putpixel_L tex k j noise)) w' =
                (inr tex', w'') /\ Inv k (j + 1) tex' w'').
  { intros k j tex w' Hk Hj (l & -> & Hlen & Hl & Hri & Hrp).
    rewrite bind_M. unfold random_randint. cbn [Z.ltb Z.compare]. cbv iota beta.
    unfold lift, putpixel_L, inside. cbn [data size fst snd].
    replace (0 <=? k) with true by lia. replace (k <? W) with true by lia.
    replace (0 <=? j) with true by lia. replace (j <? H) with true by lia.
    cbn [andb]. do 2 eexists. split; [reflexivity|].
    eexists. split; [reflexivity|]. split; [by rewrite length_insert|].
    split; [|split; [done|]].
    - intros x y Hx Hy Hc.
      destruct (decide (offset W x y = offset W k j)) as [Heq|Hne].
      + rewrite Heq, list_lookup_insert_eq
          by (apply (offset_lt W H); (done || lia)).
        apply offset_inj in Heq as [-> ->]; [|lia..].
        f_equal. rewrite Hri, Hrp. unfold value.
        change (255 - 200 + 1) with 56.
        pose proof (Z.mod_pos_bound (rand_int w (rand_pos w + Z.to_nat (k * H + j))) 56
                      ltac:(lia)) as Hm.
        apply clip8_byte. unfold is_byte. lia.
      + rewrite list_lookup_insert_ne by done. apply Hl; [done..|].
        destruct Hc as [?|[-> ?]]; [by left|]. right. split; [done|].
        assert (y <> j) by congruence. lia.
    - cbn [advance rand_pos]. rewrite Hrp.
      assert (0 <= k * H) by nia. lia. }
  destruct (forM_range_total W
              (fun tex x => forM (seqZ 0 H) (fun tex y =>
                 noise ← random_randint 200 255; lift (putpixel_L tex x y noise)) tex)
              (fun k => Inv k 0) (mkImage (W, H) (Lum l0)) w0 Hw)
    as (tex & w1 & Hloop & (l & -> & Hlen & Hl & Hri & Hrp)).
  - exists l0. split; [done|]. unfold l0. rewrite length_replicate.
    split; [lia|]. split; [intros; lia|]. split; [done|]. cbn. f_equal. lia.
  - intros k tex w' Hk HI.
    destruct (forM_range_total H
                (fun tex y => noise ← random_randint 200 255; lift (putpixel_L tex k y noise))
                (fun j => Inv k j) tex w' Hh HI) as (tex' & w'' & Hcol & HI');
      [intros j s1 w1 Hj; by apply Hstep|].
    exists tex', w''. split; [done|]. apply Hnext; [lia|done].
  - exists l, w1. split; [done|]. split; [intros; apply Hl; (done || lia)|].
    split; [rewrite Hrp; f_equal; f_equal; lia|].
    subst W H l0 w0. unfold _create_paper_texture.
    rewrite new_L_ok by done. rewrite bind_creating. by rewrite bind_M, Hloop.
Qed.

(** ** The effect table and the keyword arguments of the stages *)

(** The parameters of a known effect are read with [.get]: for a value
    that is not a dict the turn of the loop raises [AttributeError]
    before the effect is applied, and the effects listed after it are
    not applied. *)
Theorem effect_parameters_must_be_a_dict
    (t : BannerTransformer) (name : string) (params : pyval)
    (before after : pydict) (w : world) :
  name ∈ known_effects ->
  (forall d, params <> PDict d) ->
  exists msg,
    apply_effect t (name, params) w = (inl (AttributeError msg), w) /\
    apply_effects t (before ++ (name, params) :: after) w =
      match apply_effects t before w with
      | (inr t', w') => (inl (AttributeError msg), w')
      | failure => failure
      end.
Proof.
  intros Hname Hparams. exists "object has no attribute 'get'".
  assert (Hone : forall t w,
            apply_effect t (name, params) w =
            (inl (AttributeError "object has no attribute 'get'"), w)).
  { intros t0 w0. unfold known_effects in Hname. rewrite !elem_of_cons in Hname.
    destruct params; try (by destruct (Hparams entries));
      destruct Hname as [->|[->|[->|[->|Hname]]]]; try reflexivity;
      by apply elem_of_nil in Hname. }
  split; [apply Hone|].
  unfold apply_effects. rewrite forM_app.
  destruct (forM before apply_effect t w) as [[e|t'] w']; [reflexivity|].
  by rewrite forM_cons, Hone.
Qed.

Lemma find_unexpected (names : list string) (d : pydict) (k : string) (v : pyval) :
  (k, v) ∈ d -> k ∉ names ->
  exists k' v',
    List.find (fun kv : string * pyval => negb (existsb (String.eqb (fst kv)) names)) d =
    Some (k', v').
Proof.
  intros Hin Hk. induction d as [|[k0 v0] d IH]; [by apply elem_of_nil in Hin|].
  cbn [List.find fst]. destruct (existsb (String.eqb k0) names) eqn:Hex; cbn [negb]; [|eauto].
  apply IH. apply elem_of_cons in Hin as [[= -> ->]|Hin]; [|done].
  exfalso. apply Hk. apply existsb_exists in Hex as (n & Hn & Heq).
  apply String.eqb_eq in Heq as ->. by apply list_elem_of_In.
Qed.

(** The dict of a stage is passed as keyword arguments: when it holds a
    key that is not a parameter of the method, the call raises
    [TypeError]; the method is not entered, the transformer and the
    world are left as they were. *)
Theorem unexpected_keyword_is_a_type_error
    (t : BannerTransformer) (d : pydict) (k : string) (v : pyval) (w : world) :
  (k, v) ∈ d ->
  (k ∉ ["start_color"; "end_color"; "direction"] ->
   exists msg, apply_gradient_kw t (PDict d) w = (inl (TypeError msg), w)) /\
  (k ∉ ["texture_type"; "opacity"] ->
   exists msg, apply_texture_kw t (PDict d) w = (inl (TypeError msg), w)) /\
  (k ∉ ["color"; "opacity"] ->
   exists msg, apply_overlay_kw t (PDict d) w = (inl (TypeError msg), w)).
Proof.
  intros Hin. repeat split; intros Hk.
  - destruct (find_unexpected _ d k v Hin Hk) as (k' & v' & Hf).
    unfold apply_gradient_kw, bind_kwargs. cbn [fmap list_fmap fst].
    rewrite bind_lift, Hf. eauto.
  - destruct (find_unexpected _ d k v Hin Hk) as (k' & v' & Hf).
    unfold apply_texture_kw, bind_kwargs. cbn [fmap list_fmap fst].
    rewrite bind_lift, Hf. eauto.
  - destruct (find_unexpected _ d k v Hin Hk) as (k' & v' & Hf).
    unfold apply_overlay_kw, bind_kwargs. cbn [fmap list_fmap fst].
    rewrite bind_lift, Hf. eauto.
Qed.

End WithFilters.
(** ** The theorems at concrete inputs *)

Lemma noise_texture_uses_one_draw_per_pixel_witness :
  exists (a : Z) (px : list rgba) (w' : world),
    int_of_float (255 * 0.2)%float = inr a /\ is_byte a /\
    data (image white_pixel) = Rgba px /\
    @apply_texture still_filters white_pixel "noise" 0.2 draws_200 =
      (inr (set_image white_pixel (mkImage (width white_pixel, height white_pixel)
              (Rgba (imap (fun i p =>
                       let v := rand_int draws_200 (rand_pos draws_200 + i) mod 255 in
                       composite_pixel p (v, v, v, a)) px)))), w') /\
    rand_pos w' = (rand_pos draws_200 + Z.to_nat (width white_pixel * height white_pixel))%nat.
Proof.
  apply (noise_texture_uses_one_draw_per_pixel (F := still_filters) white_pixel 0.2 draws_200);
    [exact white_pixel_ok | split; reflexivity].
Defined.

Lemma paper_texture_uses_one_draw_per_pixel_witness :
  exists (l : list Z) (w1 : world),
    Z.of_nat (length l) = width white_pixel * height white_pixel /\
    (forall x y, 0 <= x < width white_pixel -> 0 <= y < height white_pixel ->
       l !! offset (width white_pixel) x y =
       Some (200 + rand_int draws_200
                     (rand_pos draws_200 + Z.to_nat (x * height white_pixel + y)) mod 56)) /\
    rand_pos w1 =
      (rand_pos draws_200 + Z.to_nat (width white_pixel * height white_pixel))%nat /\
    @_create_paper_texture still_filters white_pixel draws_200 =
      creating (@GaussianBlur still_filters 1
                  (mkImage (width white_pixel, height white_pixel) (Lum l))) w1.
Proof.
  apply (paper_texture_uses_one_draw_per_pixel (F := still_filters) white_pixel draws_200);
    cbn; lia.
Defined.

Lemma effect_parameters_must_be_a_dict_witness :
  exists msg,
    @apply_effect still_filters white_pixel ("blur", PInt 3) draws_200 =
      (inl (AttributeError msg), draws_200) /\
    @apply_effects still_filters white_pixel
      ([("glow", PDict [])] ++ ("blur", PInt 3) :: [("border", PDict [])]) draws_200 =
      match @apply_effects still_filters white_pixel [("glow", PDict [])] draws_200 with
      | (inr t', w') => (inl (AttributeError msg), w')
      | failure => failure
      end.
Proof.
  apply (effect_parameters_must_be_a_dict (F := still_filters) white_pixel "blur" (PInt 3)
           [("glow", PDict [])] [("border", PDict [])] draws_200);
    [constructor | discriminate].
Defined.

Lemma unexpected_keyword_is_a_type_error_witness :
  ("type" ∉ ["start_color"; "end_color"; "direction"] ->
   exists msg,
     @apply_gradient_kw white_pixel (PDict [("type", PStr "paper"); ("opacity", PFloat 0.2)])
       draws_200 = (inl (TypeError msg), draws_200)) /\
  ("type" ∉ ["texture_type"; "opacity"] ->
   exists msg,
     @apply_texture_kw still_filters white_pixel
       (PDict [("type", PStr "paper"); ("opacity", PFloat 0.2)]) draws_200 =
       (inl (TypeError msg), draws_200)) /\
  ("type" ∉ ["color"; "opacity"] ->
   exists msg,
     @apply_overlay_kw white_pixel (PDict [("type", PStr "paper"); ("opacity", PFloat 0.2)])
       draws_200 = (inl (TypeError msg), draws_200)).
Proof.
  apply (unexpected_keyword_is_a_type_error (F := still_filters) white_pixel
           [("type", PStr "paper"); ("opacity", PFloat 0.2)] "type" (PStr "paper") draws_200).
  constructor.
Defined.

End TextureProperties.

(* ===================================================================== *)
(** * The two ends of a gradient *)
(* ===================================================================== *)

Module GradientProperties.
Import Py PIL World Transformers Dispatch App Spec Notions Proofs TransformersProperties.

Lemma zero_plus_zero (x : float) :
  (exists s, Prim2SF x = S754_zero s) -> (x + 0)%float = 0%float.
Proof.
  intros [s Hx]. apply Prim2SF_inj. rewrite add_spec, Hx.
  change (Prim2SF 0) with (S754_zero false). by destruct s.
Qed.

Lemma zero_times_below (K : Z) (y : float) :
  below K (Prim2SF y) -> exists s, Prim2SF (0 * y)%float = S754_zero s.
Proof.
  intros Hy. rewrite mul_spec. change (Prim2SF 0) with (S754_zero false).
  destruct (Prim2SF y) as [s| | |s m e]; try done; cbn; eauto.
Qed.

Lemma zero_over_above (L : Z) (y : float) :
  above L (Prim2SF y) -> exists s, Prim2SF (0 / y)%float = S754_zero s.
Proof.
  intros Hy. rewrite div_spec. change (Prim2SF 0) with (S754_zero false).
  destruct (Prim2SF y) as [s| | |s m e]; try done; cbn; eauto.
Qed.

(** With at least two samples, [np.linspace(0, 1, num)] starts with
    exactly 0 and ends with exactly 1. *)
Lemma linspace01_ends (num : Z) :
  2 <= num <= 2 ^ 63 ->
  exists l, Np.linspace01 num = inr l /\ length l = Z.to_nat num /\
    l !! 0%nat = Some 0%float /\ l !! Z.to_nat (num - 1) = Some 1%float.
Proof.
  intros Hnum. unfold Np.linspace01.
  replace (num <? 0) with false by lia. replace (0 <? num - 1) with true by lia.
  replace (1 <? num) with true by lia.
  change (1 - 0)%float with 1%float.
  pose proof (float_of_Z_above (num - 1) ltac:(lia)) as Habove.
  pose proof (div_below 1 0 1 _ ltac:(lia) one_below Habove) as Hstep.
  set (y0 := float_of_Z <$> seqZ 0 num).
  assert (Hy0 : y0 !! 0%nat = Some 0%float).
  { unfold y0. rewrite seqZ_cons by lia. reflexivity. }
  assert (Hlen0 : length y0 = Z.to_nat num) by (unfold y0; by rewrite length_fmap, length_seqZ).
  set (y1 := if PrimFloat.eqb _ 0 then _ else _).
  assert (Hy1 : length y1 = Z.to_nat num /\
                exists x s, y1 !! 0%nat = Some x /\ Prim2SF x = S754_zero s).
  { unfold y1. destruct (PrimFloat.eqb _ 0).
    - split; [by rewrite length_fmap|]. rewrite list_lookup_fmap, Hy0. cbn.
      destruct (zero_over_above 0 _ Habove) as [s Hs].
      eexists _, _. split; [reflexivity|]. rewrite mul_spec, Hs.
      change (Prim2SF 1) with (S754_finite false 4503599627370496 (-52)). reflexivity.
    - split; [by rewrite length_fmap|]. rewrite list_lookup_fmap, Hy0. cbn.
      destruct (zero_times_below _ _ Hstep) as [s Hs]. eauto. }
  destruct Hy1 as (Hlen1 & x & s & Hx & Hxs).
  eexists. split; [reflexivity|]. rewrite length_insert, length_fmap.
  split; [done|]. split.
  - rewrite list_lookup_insert_ne by lia. rewrite list_lookup_fmap, Hx. cbn.
    f_equal. apply zero_plus_zero. eauto.
  - apply list_lookup_insert_eq. rewrite length_fmap. lia.
Qed.

Lemma gradient_pixel_factor_1 (r0 g0 b0 r1 g1 b1 : Z) (gradient : Np.ndarray float) (x y : Z) :
  is_byte r0 -> is_byte g0 -> is_byte b0 -> is_byte r1 -> is_byte g1 -> is_byte b1 ->
  Np.getitem gradient y x = inr 1%float ->
  gradient_pixel (r0, g0, b0) (r1, g1, b1) gradient x y = inr (r1, g1, b1, 255).
Proof.
  intros Hr0 Hg0 Hb0 Hr1 Hg1 Hb1 Hf. unfold gradient_pixel. rewrite Hf. cbn.
  destruct (interpolation_endpoints r0 r1 Hr0 Hr1) as (_ & -> & _).
  destruct (interpolation_endpoints g0 g1 Hg0 Hg1) as (_ & -> & _).
  by destruct (interpolation_endpoints b0 b1 Hb0 Hb1) as (_ & -> & _).
Qed.

(** The factors of the first and of the last column, or row. *)
Lemma gradient_array_ends (t : BannerTransformer) (direction : string) :
  0 <= width t <= 2 ^ 63 -> 0 <= height t <= 2 ^ 63 ->
  exists arr, gradient_array t direction = inr arr /\
    (direction = "horizontal" -> 2 <= width t ->
     forall y, 0 <= y < height t ->
       Np.getitem arr y 0 = inr 0%float /\ Np.getitem arr y (width t - 1) = inr 1%float) /\
    (direction <> "horizontal" -> 2 <= height t ->
     forall x, 0 <= x < width t ->
       Np.getitem arr 0 x = inr 0%float /\ Np.getitem arr (height t - 1) x = inr 1%float).
Proof.
  intros Hw Hh.
  assert (Hnth : forall (l : list float) (i : nat) (f : float),
             l !! i = Some f -> nth i l 0%float = f).
  { intros l i f Hf. by rewrite (nth_lookup_Some _ _ _ _ Hf). }
  unfold gradient_array. destruct (String.eqb_spec direction "horizontal") as [->|Hd].
  - destruct (Z.lt_ge_cases (width t) 2) as [Hsmall|Hbig].
    + destruct (linspace01_below (width t) ltac:(lia)) as [?|(l & -> & _)]; [lia|].
      eexists. split; [reflexivity|]. split; [intros; lia|done].
    + destruct (linspace01_ends (width t) ltac:(lia)) as (l & -> & Hlen & H0 & H1).
      eexists. split; [reflexivity|]. split; [|done]. intros _ _ y Hy.
      unfold Np.getitem, Np.index, Np.tile. cbn [Np.nrows Np.ncols Np.cell].
      replace (0 <=? y) with true by lia. replace (y <? Z.max 0 (height t)) with true by lia.
      replace (0 <=? width t - 1) with true by lia.
      replace (width t - 1 <? Z.of_nat (length l)) with true by lia.
      replace (0 <? Z.of_nat (length l)) with true by lia. cbn.
      split; f_equal; by apply Hnth.
  - destruct (Z.lt_ge_cases (height t) 2) as [Hsmall|Hbig].
    + destruct (linspace01_below (height t) ltac:(lia)) as [?|(l & -> & _)]; [lia|].
      eexists. split; [reflexivity|]. split; [done|intros; lia].
    + destruct (linspace01_ends (height t) ltac:(lia)) as (l & -> & Hlen & H0 & H1).
      eexists. split; [reflexivity|]. split; [done|]. intros _ _ x Hx.
      unfold Np.getitem, Np.index, Np.tile, Np.T. cbn [Np.nrows Np.ncols Np.cell].
      replace (0 <=? x) with true by lia. replace (x <? Z.max 0 (width t)) with true by lia.
      replace (0 <=? height t - 1) with true by lia.
      replace (height t - 1 <? Z.of_nat (length l)) with true by lia.
      replace (0 <? Z.of_nat (length l)) with true by lia. cbn.
      split; f_equal; by apply Hnth.
Qed.

(** The pixels of the gradient image, by any property the rule of the
    loop gives them. *)
Lemma gradient_layer_drawn (t : BannerTransformer) (start_color end_color direction : string)
    (start_rgb end_rgb : Z * Z * Z) (arr : Np.ndarray float)
    (P : Z -> Z -> rgba -> Prop) (w w1 : world) (g : Image) :
  0 <= width t -> 0 <= height t ->
  hex_rgb start_color = inr start_rgb -> hex_rgb end_color = inr end_rgb ->
  gradient_array t direction = inr arr ->
  (forall x y c, 0 <= x < width t -> 0 <= y < height t ->
     gradient_pixel start_rgb end_rgb arr x y = inr c -> P x y (getink c)) ->
  gradient_layer t start_color end_color direction w = (inr g, w1) ->
  exists px, g = mkImage (width t, height t) (Rgba px) /\
    forall x y, 0 <= x < width t -> 0 <= y < height t ->
      exists c, px !! offset (width t) x y = Some c /\ P x y c.
Proof.
  intros Hw Hh Hs He Harr HP Hrun. unfold gradient_layer in Hrun.
  rewrite bind_lift, Hs in Hrun. cbv iota beta in Hrun.
  rewrite bind_lift, He in Hrun. cbv iota beta in Hrun.
  rewrite bind_lift, Harr in Hrun. cbv iota beta in Hrun.
  rewrite new_RGBA_ok, bind_creating in Hrun by done.
  apply lift_inr in Hrun as [Hrun ->]. rewrite draw_gradient_raster in Hrun.
  apply (raster_loop_drawn _ _ _ P) in Hrun;
    [|done|done|rewrite length_replicate; lia|done].
  destruct Hrun as (px & -> & Hlen & Hpx). exists px. split; [done|].
  intros x y Hx Hy. apply Hpx; [done..|lia].
Qed.

(** With at least two columns, a horizontal gradient has exactly the
    start colour in its first column and exactly the end colour in its
    last column; a vertical gradient of at least two rows has them in its
    first and in its last row. *)
Theorem gradient_ends_at_the_two_colours
    (t : BannerTransformer) (start_color end_color direction : string)
    (r0 g0 b0 r1 g1 b1 : Z) (w : world) :
  0 <= width t <= 2 ^ 63 -> 0 <= height t <= 2 ^ 63 ->
  hex_rgb start_color = inr (r0, g0, b0) -> hex_rgb end_color = inr (r1, g1, b1) ->
  is_byte r0 -> is_byte g0 -> is_byte b0 -> is_byte r1 -> is_byte g1 -> is_byte b1 ->
  exists (px : list rgba) (w1 : world),
    gradient_layer t start_color end_color direction w =
      (inr (mkImage (width t, height t) (Rgba px)), w1) /\
    (direction = "horizontal" -> 2 <= width t ->
     forall y, 0 <= y < height t ->
       px !! offset (width t) 0 y = Some (r0, g0, b0, 255) /\
       px !! offset (width t) (width t - 1) y = Some (r1, g1, b1, 255)) /\
    (direction <> "horizontal" -> 2 <= height t ->
     forall x, 0 <= x < width t ->
       px !! offset (width t) x 0 = Some (r0, g0, b0, 255) /\
       px !! offset (width t) x (height t - 1) = Some (r1, g1, b1, 255)).
Proof.
  intros Hw Hh Hs He Hr0 Hg0 Hb0 Hr1 Hg1 Hb1.
  destruct (gradient_layer_total t start_color end_color direction _ _ w Hw Hh Hs He)
    as (g & w1 & Hrun).
  destruct (gradient_array_ends t direction Hw Hh) as (arr & Harr & Hhor & Hver).
  assert (H255 : is_byte 255) by (unfold is_byte; lia).
  pose (P := fun (x y : Z) (c : rgba) =>
    (Np.getitem arr y x = inr 0%float -> c = (r0, g0, b0, 255)) /\
    (Np.getitem arr y x = inr 1%float -> c = (r1, g1, b1, 255))).
  destruct (gradient_layer_drawn t start_color end_color direction _ _ arr P w w1 g
              ltac:(lia) ltac:(lia) Hs He Harr) as (px & -> & Hpx); [|exact Hrun|].
  { intros x y c Hx Hy Hc. split; intros Hf.
    - rewrite gradient_pixel_factor_0 in Hc by done. injection Hc as <-.
      by apply getink_bytes.
    - rewrite gradient_pixel_factor_1 in Hc by done. injection Hc as <-.
      by apply getink_bytes. }
  exists px, w1. split; [exact Hrun|]. split.
  - intros Hd H2 y Hy. destruct (Hhor Hd H2 y Hy) as [Hf0 Hf1].
    destruct (Hpx 0 y ltac:(lia) Hy) as (c0 & Hl0 & Hc0 & _).
    destruct (Hpx (width t - 1) y ltac:(lia) Hy) as (c1 & Hl1 & _ & Hc1).
    rewrite <- (Hc0 Hf0), <- (Hc1 Hf1). by split.
  - intros Hd H2 x Hx. destruct (Hver Hd H2 x Hx) as [Hf0 Hf1].
    destruct (Hpx x 0 Hx ltac:(lia)) as (c0 & Hl0 & Hc0 & _).
    destruct (Hpx x (height t - 1) Hx ltac:(lia)) as (c1 & Hl1 & _ & Hc1).
    rewrite <- (Hc0 Hf0), <- (Hc1 Hf1). by split.
Qed.

Lemma gradient_ends_at_the_two_colours_witness :
  exists (px : list rgba) (w1 : world),
    gradient_layer (__init__ (base_image 800 400)) "#4361ee" "#3f37c9" "horizontal" draws_200 =
      (inr (mkImage (800, 400) (Rgba px)), w1) /\
    ("horizontal" = "horizontal" -> 2 <= 800 ->
     forall y, 0 <= y < 400 ->
       px !! offset 800 0 y = Some (67, 97, 238, 255) /\
       px !! offset 800 (800 - 1) y = Some (63, 55, 201, 255)) /\
    ("horizontal" <> "horizontal" -> 2 <= 400 ->
     forall x, 0 <= x < 800 ->
       px !! offset 800 x 0 = Some (67, 97, 238, 255) /\
       px !! offset 800 x (400 - 1) = Some (63, 55, 201, 255)).
Proof.
  apply (gradient_ends_at_the_two_colours (__init__ (base_image 800 400))
           "#4361ee" "#3f37c9" "horizontal" 67 97 238 63 55 201 draws_200);
    [split; [cbn; lia | vm_compute; discriminate]
    | split; [cbn; lia | vm_compute; discriminate]
    | reflexivity | reflexivity | unfold is_byte; lia ..].
Defined.

End GradientProperties.

(* ===================================================================== *)
(** * Properties of [validate_banner_params] *)
(* ===================================================================== *)

Module ValidationProperties.
Import Py PIL World Transformers Dispatch App Spec Notions Proofs TransformersProperties.
Import Validation.

Lemma find_missing_none (params : gmap string pyval) :
  List.find (fun param => bool_decide (params !! param = None)) required_params = None <->
  is_Some (params !! "text") /\ is_Some (params !! "width") /\ is_Some (params !! "height") /\
  is_Some (params !! "fontSize") /\ is_Some (params !! "textColor").
Proof.
  unfold required_params. cbn [List.find]. split.
  - intros H.
    destruct (params !! "text"); [|done]. rewrite bool_decide_eq_false_2 in H by done.
    destruct (params !! "width"); [|done]. rewrite bool_decide_eq_false_2 in H by done.
    destruct (params !! "height"); [|done]. rewrite bool_decide_eq_false_2 in H by done.
    destruct (params !! "fontSize"); [|done]. rewrite bool_decide_eq_false_2 in H by done.
    destruct (params !! "textColor"); [|done]. by repeat split.
  - intros ([? ->] & [? ->] & [? ->] & [? ->] & [? ->]).
    by rewrite !bool_decide_eq_false_2.
Qed.


(** ** The colour pattern *)

Lemma hex3_Some (s rest : string) :
  hex3 s = Some rest <->
  exists a b c, s = String a (String b (String c rest)) /\
    is_hex_digit a = true /\ is_hex_digit b = true /\ is_hex_digit c = true.
Proof.
  unfold hex3. split.
  - destruct s as [|a [|b [|c s']]]; try done.
    destruct (is_hex_digit a) eqn:Ha, (is_hex_digit b) eqn:Hb, (is_hex_digit c) eqn:Hc;
      try done.
    intros [= <-]. by exists a, b, c.
  - intros (a & b & c & -> & -> & -> & ->). done.
Qed.

Lemma hex3_of_dollar (s : string) : at_dollar s = true -> hex3 s = None.
Proof. by destruct s as [|a [|b s']]. Qed.

Lemma at_dollar_tail (s : string) :
  at_dollar s = true <-> s = "" \/ s = String "010" "".
Proof.
  unfold at_dollar. split.
  - destruct s as [|c [|c' s']]; [by left| |done].
    intros ->%Ascii.eqb_eq. by right.
  - by intros [->| ->].
Qed.

Lemma match_hex_color_hash (s1 : string) :
  match_hex_color (String "#" s1) =
  match hex3 s1 with
  | Some s2 =>
      match hex3 s2 with
      | Some s3 => at_dollar s3 || at_dollar s2
      | None => at_dollar s2
      end
  | None => false
  end.
Proof. reflexivity. Qed.

Lemma leading_hash (s : string) :
  match_hex_color s = true -> exists s1, s = String "#" s1.
Proof.
  destruct s as [|[[] [] [] [] [] [] [] []] s1]; try done. by exists s1.
Qed.

Lemma match_hex_color_digits (s : string) :
  match_hex_color s = true -> hex_colour_text s.
Proof.
  intros Hm. destruct (leading_hash s Hm) as [s1 ->]. cbn in Hm.
  destruct (hex3 s1) as [s2|] eqn:H1; [|done].
  apply hex3_Some in H1 as (a & b & c & -> & Ha & Hb & Hc).
  destruct (hex3 s2) as [s3|] eqn:H2.
  - apply hex3_Some in H2 as (d & e & f & -> & Hd & He & Hf).
    rewrite orb_false_r in Hm. apply at_dollar_tail in Hm.
    exists [a; b; c; d; e; f], s3. split; [done|]. split; [by right|].
    split; [by repeat constructor|done].
  - apply at_dollar_tail in Hm.
    exists [a; b; c], s2. split; [done|]. split; [by left|].
    split; [by repeat constructor|done].
Qed.

(** The pattern [^#(?:[0-9a-fA-F]{3}){1,2}$] matches exactly a ['#']
    followed by three or by six hexadecimal digits; a newline after the
    digits is let through, as [$] also matches before a newline that
    ends the text. *)
Theorem colour_pattern_matches (s : string) :
  match_hex_color s = true <-> hex_colour_text s.
Proof.
  split; [apply match_hex_color_digits|].
  intros (ds & tail & -> & Hlen & Hds & Htail).
  assert (Hd : at_dollar tail = true) by (by apply at_dollar_tail).
  assert (Hthree : forall a b c rest,
            Forall (fun c => is_hex_digit c = true) [a; b; c] ->
            hex3 (String a (String b (String c rest))) = Some rest).
  { intros a b c rest H. apply hex3_Some. exists a, b, c.
    apply Forall_cons in H as [Ha H]. apply Forall_cons in H as [Hb H].
    by apply Forall_cons in H as [Hc _]. }
  rewrite match_hex_color_hash.
  destruct Hlen as [Hlen|Hlen].
  - destruct ds as [|a [|b [|c [|? ?]]]]; try discriminate Hlen.
    cbn [string_of_list_ascii]. cbv [String.append].
    by rewrite (Hthree a b c tail Hds), (hex3_of_dollar tail Hd).
  - destruct ds as [|a [|b [|c [|d [|e [|f [|? ?]]]]]]]; try discriminate Hlen.
    cbn [string_of_list_ascii]. cbv [String.append].
    apply (Forall_app _ [a; b; c] [d; e; f]) in Hds as [H1 H2].
    by rewrite (Hthree a b c _ H1), (Hthree d e f tail H2), Hd.
Qed.

(** ** The colours validation accepts, read by the transformer *)

Lemma ascii_cases (P : ascii -> bool) :
  forallb P (List.map ascii_of_nat (List.seq 0 256)) = true -> forall c, P c = true.
Proof.
  intros H c. rewrite forallb_forall in H. apply H.
  rewrite <- (ascii_nat_embedding c). apply in_map. apply in_seq.
  pose proof (nat_ascii_bounded c). lia.
Qed.

(** Two hexadecimal digits are read by [int(_, 16)] as a byte. *)
Lemma hex_pair_is_byte (a b : ascii) :
  is_hex_digit a = true -> is_hex_digit b = true ->
  exists n, int_of_str 16 (String a (String b "")) = inr n /\ is_byte n.
Proof.
  intros Ha Hb.
  pose (reads := fun a b =>
    match int_of_str 16 (String a (String b "")) with
    | inr n => (0 <=? n) && (n <=? 255)
    | inl _ => false
    end).
  pose (all := List.map ascii_of_nat (List.seq 0 256)).
  assert (Hall : forall a, implb (is_hex_digit a)
                   (forallb (fun b => implb (is_hex_digit b) (reads a b)) all) = true).
  { apply ascii_cases. by vm_compute. }
  specialize (Hall a). rewrite Ha in Hall. cbn [implb] in Hall.
  pose proof (ascii_cases _ Hall b) as Hab. cbn beta in Hab. rewrite Hb in Hab.
  cbn [implb] in Hab. unfold reads in Hab.
  destruct (int_of_str 16 (String a (String b ""))) as [e|n]; [done|].
  exists n. split; [done|]. unfold is_byte. lia.
Qed.

(** A colour that [validate_banner_params] accepts is read by the colour
    conversion of the transformer as three bytes when it has six digits;
    the conversion raises [ValueError] when it has three, the short form
    that the pattern accepts as well. *)
Theorem accepted_colour_in_the_transformer (color : string) :
  match_hex_color color = true ->
  ((7 <= String.length color)%nat /\
   exists r g b, hex_rgb color = inr (r, g, b) /\ is_byte r /\ is_byte g /\ is_byte b) \/
  ((String.length color <= 5)%nat /\
   exists msg, hex_rgb color = inl (ValueError msg)).
Proof.
  intros (ds & tail & -> & Hlen & Hds & Htail)%match_hex_color_digits.
  destruct Hlen as [Hlen|Hlen].
  - right. destruct ds as [|a [|b [|c [|? ?]]]]; try discriminate Hlen.
    assert (Hshort : (String.length (String "#" (string_of_list_ascii [a; b; c] +:+ tail)) <= 5)%nat)
      by (destruct Htail as [->| ->]; vm_compute; lia).
    split; [done|]. by apply hex_rgb_short.
  - left. destruct ds as [|a [|b [|c [|d [|e [|f [|? ?]]]]]]]; try discriminate Hlen.
    apply Forall_cons in Hds as [Ha Hds]. apply Forall_cons in Hds as [Hb Hds].
    apply Forall_cons in Hds as [Hc Hds]. apply Forall_cons in Hds as [Hd Hds].
    apply Forall_cons in Hds as [He Hds]. apply Forall_cons in Hds as [Hf _].
    split; [cbn [string_of_list_ascii]; cbv [String.append]; cbn [String.length]; lia|].
    destruct (hex_pair_is_byte a b Ha Hb) as (r & Hr & ?).
    destruct (hex_pair_is_byte c d Hc Hd) as (g & Hg & ?).
    destruct (hex_pair_is_byte e f He Hf) as (bl & Hbl & ?).
    exists r, g, bl. split; [|done].
    unfold hex_rgb, slice2. cbn [string_of_list_ascii]. cbv [String.append]. cbn [substring].
    assert (Hsub : substring 0 0 tail = "") by (by destruct tail).
    rewrite Hsub, Hr, Hg, Hbl. reflexivity.
Qed.

Lemma accepted_colour_in_the_transformer_witness :
  ((7 <= String.length "#fff")%nat /\
   exists r g b, hex_rgb "#fff" = inr (r, g, b) /\ is_byte r /\ is_byte g /\ is_byte b) \/
  ((String.length "#fff" <= 5)%nat /\
   exists msg, hex_rgb "#fff" = inl (ValueError msg)).
Proof. apply (accepted_colour_in_the_transformer "#fff"). reflexivity. Defined.

Lemma str_strip_raises (v : pyval) (e : exn) :
  str_strip v = inl e -> forall msg, e <> ValueError msg.
Proof. destruct v; cbn; intros [= <-]; done. Qed.

Lemma len_raises (v : pyval) (e : exn) : len v = inl e -> forall msg, e <> ValueError msg.
Proof. destruct v; cbn; intros [= <-]; done. Qed.

Lemma re_match_color_raises (v : pyval) (e : exn) :
  re_match_color v = inl e -> forall msg, e <> ValueError msg.
Proof. destruct v; cbn; intros [= <-]; done. Qed.

(** No [ValueError] leaves [validate_banner_params]: a number that
    [int()] cannot read gives the answer [(False, "Invalid numeric
    values ...")].  Any other exception of [int()] does leave it, as for
    a width that is null ([TypeError]). *)
Theorem validate_banner_params_and_exceptions (params : gmap string pyval) :
  (forall msg, validate_banner_params params <> inl (ValueError msg)) /\
  (forall wv e, (forall param, param ∈ required_params -> is_Some (params !! param)) ->
     params !! "width" = Some wv -> int_ wv = inl e ->
     validate_banner_params params =
       match e with
       | ValueError _ => inr (false, "Invalid numeric values for dimensions or font size")
       | _ => inl e
       end).
Proof.
  split.
  - intros msg. unfold validate_banner_params.
    destruct (List.find _ required_params) as [p|] eqn:Hfind; [done|].
    apply find_missing_none in Hfind as ([tv Ht] & [wv Hw] & [hv Hh] & [fv Hf] & [cv Hc]).
    destruct (check_dimensions params) as [[]|[m|]] eqn:Hdim; try done.
    unfold check_text_and_color, item. rewrite Ht, Hc.
    unfold mbind, res_bind, bind, ret. cbv iota beta.
    destruct (str_strip tv) as [e|stripped] eqn:Hs.
    { intros [= ->]. by eapply str_strip_raises. }
    destruct (String.eqb stripped ""); [done|].
    destruct (len tv) as [e|n] eqn:Hl.
    { intros [= ->]. by eapply len_raises. }
    destruct (100 <? n); [done|].
    destruct (re_match_color cv) as [e|m] eqn:Hr.
    { intros [= ->]. by eapply re_match_color_raises. }
    by destruct m.
  - intros wv e Hall Hw He. unfold validate_banner_params.
    replace (List.find _ required_params) with (@None string).
    + unfold check_dimensions, item. rewrite Hw.
      unfold mbind, res_bind, bind, ret. cbv iota beta. rewrite He. by destruct e.
    + symmetry. apply find_missing_none.
      unfold required_params in Hall. repeat split; apply Hall; set_solver.
Qed.

End ValidationProperties.

(* ===================================================================== *)
(** * The interpolated colour stays between the two colours *)
(* ===================================================================== *)

Module InterpolationProperties.
Import Py PIL World Transformers Dispatch App Spec Notions Proofs TransformersProperties.

(** ** Rounding between two integers *)

Lemma shr_1_exact (r : shr_record) (c : Z) :
  0 <= shr_m r -> shr_r r = false -> shr_s r = false -> shr_m r = 2 * c ->
  shr_r (shr_1 r) = false /\ shr_s (shr_1 r) = false.
Proof.
  destruct r as [m rb sb]. cbn [shr_m shr_r shr_s]. intros Hm -> -> Hc.
  destruct m as [|[p|p|]|p]; cbn; (done || lia).
Qed.

Lemma iter_shr_1_exact (p : positive) (r : shr_record) (c : Z) :
  0 <= shr_m r -> shr_r r = false -> shr_s r = false -> shr_m r = c * 2 ^ Z.pos p ->
  shr_r (SpecFloat.iter_pos shr_1 p r) = false /\ shr_s (SpecFloat.iter_pos shr_1 p r) = false.
Proof.
  revert r c. induction p as [p IH|p IH|]; intros r c Hm Hr Hs Hc; cbn [SpecFloat.iter_pos].
  - assert (Hpow : 2 ^ Z.pos p~1 = 2 * (2 ^ Z.pos p * 2 ^ Z.pos p)).
    { replace (Z.pos p~1) with (Z.succ (Z.pos p + Z.pos p)) by lia.
      rewrite Z.pow_succ_r, Z.pow_add_r by lia. reflexivity. }
    assert (0 < 2 ^ Z.pos p) by (apply Z.pow_pos_nonneg; lia).
    destruct (shr_1_exact r (c * 2 ^ Z.pos p * 2 ^ Z.pos p) Hm Hr Hs ltac:(lia)) as [Hr1 Hs1].
    assert (Hm1 : shr_m (shr_1 r) = c * 2 ^ Z.pos p * 2 ^ Z.pos p).
    { rewrite shr_1_m by done. rewrite Hc, Hpow.
      replace (c * (2 * (2 ^ Z.pos p * 2 ^ Z.pos p))) with (c * 2 ^ Z.pos p * 2 ^ Z.pos p * 2)
        by lia.
      apply Z.div_mul. lia. }
    destruct (IH (shr_1 r) (c * 2 ^ Z.pos p) ltac:(lia) Hr1 Hs1 Hm1) as [Hr2 Hs2].
    assert (Hm2 : shr_m (SpecFloat.iter_pos shr_1 p (shr_1 r)) = c * 2 ^ Z.pos p).
    { rewrite iter_shr_1_m by lia. rewrite Hm1. apply Z.div_mul. lia. }
    apply (IH _ c); [lia|done|done|done].
  - assert (Hpow : 2 ^ Z.pos p~0 = 2 ^ Z.pos p * 2 ^ Z.pos p).
    { replace (Z.pos p~0) with (Z.pos p + Z.pos p) by lia. by rewrite Z.pow_add_r by lia. }
    assert (0 < 2 ^ Z.pos p) by (apply Z.pow_pos_nonneg; lia).
    assert (Hm1 : shr_m r = c * 2 ^ Z.pos p * 2 ^ Z.pos p) by lia.
    destruct (IH r (c * 2 ^ Z.pos p) Hm Hr Hs Hm1) as [Hr2 Hs2].
    assert (Hm2 : shr_m (SpecFloat.iter_pos shr_1 p r) = c * 2 ^ Z.pos p).
    { rewrite iter_shr_1_m by lia. rewrite Hm1. apply Z.div_mul. lia. }
    apply (IH _ c); [lia|done|done|done].
  - apply (shr_1_exact r c); [done..|]. rewrite Hc. change (2 ^ 1) with 2. lia.
Qed.

(** [shr_fexp] on an exact mantissa that loses no bit keeps it exact. *)
Lemma shr_fexp_exact (m e : Z) :
  0 <= m ->
  let '(r, e') := shr_fexp 53 1024 m e loc_Exact in
  let n := Z.max (Zdigits2 m + e - 53) (-1074) - e in
  (n <= 0 \/ exists c, m = c * 2 ^ n) -> loc_of_shr_record r = loc_Exact.
Proof.
  intros Hm. unfold shr_fexp, shr, fexp, SpecFloat.emin.
  change (3 - 1024 - 53) with (-1074).
  destruct (Z.max (Zdigits2 m + e - 53) (-1074) - e) as [|p|p] eqn:Hn; try done.
  intros [?|[c Hc]]; [lia|].
  destruct (iter_shr_1_exact p (shr_record_of_loc m loc_Exact) c) as [Hr Hs]; try done.
  destruct (SpecFloat.iter_pos shr_1 p _) as [m' rb sb]. cbn in Hr, Hs. by subst.
Qed.

Lemma digits_between (hi m e : Z) :
  hi < 2 ^ 52 -> e < 0 -> 0 <= m <= hi * 2 ^ (- e) -> Zdigits2 m + e <= 52.
Proof.
  intros Hhi He [Hm0 Hm].
  assert (0 < 2 ^ (- e)) by (apply Z.pow_pos_nonneg; lia).
  assert (Zdigits2 m <= 52 - e); [|lia]. apply Zdigits2_le; [lia|]. split; [done|].
  replace (52 - e) with (52 + - e) by lia. rewrite pow2_split by lia. nia.
Qed.

Lemma shift_scale (e n : Z) : 0 < n -> e + n < 0 -> 2 ^ (- e) = 2 ^ n * 2 ^ (- (e + n)).
Proof. intros Hn He. rewrite <- pow2_split by lia. f_equal. lia. Qed.

(** The first half of a rounding: the mantissa is shifted to the
    precision and rounded to the nearest.  The mantissa [mx] with the
    location [lx] denotes a number from [mx] to [mx + 1], [mx] itself
    when the location is exact. *)
Lemma shr_round_between (lo hi mx ex : Z) (lx : location) :
  0 <= lo <= hi -> hi < 2 ^ 52 -> ex < 0 ->
  lo * 2 ^ (- ex) <= mx <= hi * 2 ^ (- ex) ->
  lx = loc_Exact \/ mx + 1 <= hi * 2 ^ (- ex) ->
  let '(r1, e1) := shr_fexp 53 1024 mx ex lx in
  let m2 := round_nearest_even (shr_m r1) (loc_of_shr_record r1) in
  e1 < 0 /\ lo * 2 ^ (- e1) <= m2 <= hi * 2 ^ (- e1).
Proof.
  intros Hlo Hhi Hex Hmx Hloc.
  assert (H0 : 0 < 2 ^ (- ex)) by (apply Z.pow_pos_nonneg; lia).
  assert (Hmx0 : 0 <= mx) by nia.
  pose proof (digits_between hi mx ex Hhi Hex ltac:(lia)) as Hd1.
  pose proof (shr_fexp_spec mx ex lx Hmx0) as Hs1.
  assert (Hx1 : lx = loc_Exact ->
            let '(r, e') := shr_fexp 53 1024 mx ex lx in
            let n := Z.max (Zdigits2 mx + ex - 53) (-1074) - ex in
            (n <= 0 \/ exists c, mx = c * 2 ^ n) -> loc_of_shr_record r = loc_Exact).
  { intros ->. by apply shr_fexp_exact. }
  destruct (shr_fexp 53 1024 mx ex lx) as [r1 e1]. cbv zeta in Hs1, Hx1 |- *.
  set (n1 := Z.max (Zdigits2 mx + ex - 53) (-1074) - ex) in Hs1, Hx1.
  pose proof (round_nearest_even_bounds (shr_m r1) (loc_of_shr_record r1)) as Hrne.
  set (m2 := round_nearest_even (shr_m r1) (loc_of_shr_record r1)) in *.
  destruct (Z.lt_ge_cases 0 n1) as [Hn|Hn].
  - destruct Hs1 as [[Hr1 ->] _]; [done|].
    assert (He1 : ex + n1 < 0) by (unfold n1; lia). split; [done|].
    pose proof (shift_scale ex n1 Hn He1) as Hsc.
    assert (Hn1 : 0 < 2 ^ n1) by (apply Z.pow_pos_nonneg; lia).
    assert (0 < 2 ^ (- (ex + n1))) by (apply Z.pow_pos_nonneg; lia).
    rewrite Hr1 in Hrne.
    pose proof (Z.div_mod mx (2 ^ n1) ltac:(lia)) as Hdm.
    pose proof (Z.mod_pos_bound mx (2 ^ n1) Hn1) as Hmod.
    split.
    + assert (lo * 2 ^ (- (ex + n1)) <= mx / 2 ^ n1); [|lia].
      apply Z.div_le_lower_bound; [done|]. nia.
    + destruct (Z.eq_dec mx (hi * 2 ^ (- (ex + n1)) * 2 ^ n1)) as [Heq|Hne].
      * destruct Hloc as [Hexact|Hstrict]; [|rewrite Hsc in Hstrict; lia].
        assert (Hex1 : loc_of_shr_record r1 = loc_Exact).
        { apply Hx1; [done|]. right. by exists (hi * 2 ^ (- (ex + n1))). }
        unfold m2. rewrite Hex1, Hr1. cbn [round_nearest_even].
        rewrite Heq, Z.div_mul by lia. lia.
      * assert (mx / 2 ^ n1 < hi * 2 ^ (- (ex + n1))); [|lia].
        apply Z.div_lt_upper_bound; [done|]. rewrite Hsc in Hmx. lia.
  - destruct Hs1 as [_ [Hr1 ->]]; [lia|]. split; [done|].
    rewrite Hr1, shr_m_of_loc in Hrne. split; [lia|].
    destruct Hloc as [->|Hstrict]; [|lia].
    unfold m2. rewrite Hr1. cbn [shr_record_of_loc shr_m loc_of_shr_record round_nearest_even].
    lia.
Qed.

(** Rounding a mantissa that denotes a number from [lo] to [hi], two
    integers below [2 ^ 52], gives a float from [lo] to [hi]. *)
Lemma binary_round_aux_between_loc (lo hi : Z) (sx : bool) (mx ex : Z) (lx : location) :
  0 <= lo <= hi -> hi < 2 ^ 52 -> ex < 0 ->
  lo * 2 ^ (- ex) <= mx <= hi * 2 ^ (- ex) ->
  lx = loc_Exact \/ mx + 1 <= hi * 2 ^ (- ex) ->
  match binary_round_aux 53 1024 sx mx ex lx with
  | S754_zero _ => lo = 0
  | S754_finite s m e => s = sx /\ e < 0 /\ lo * 2 ^ (- e) <= Z.pos m <= hi * 2 ^ (- e)
  | _ => False
  end.
Proof.
  intros Hlo Hhi Hex Hmx Hloc.
  unfold binary_round_aux.
  pose proof (shr_round_between lo hi mx ex lx Hlo Hhi Hex Hmx Hloc) as Hm2.
  destruct (shr_fexp 53 1024 mx ex lx) as [r1 e1]. cbv zeta in Hm2.
  set (m2 := round_nearest_even (shr_m r1) (loc_of_shr_record r1)) in *.
  destruct Hm2 as (He1 & Hm2lo & Hm2hi).
  assert (H1 : 0 < 2 ^ (- e1)) by (apply Z.pow_pos_nonneg; lia).
  assert (Hm20 : 0 <= m2) by nia.
  pose proof (shr_fexp_spec m2 e1 loc_Exact Hm20) as Hs2.
  clearbody m2.
  destruct (shr_fexp 53 1024 m2 e1 loc_Exact) as [r2 e2]. cbv zeta in Hs2.
  pose proof (digits_between hi m2 e1 Hhi He1 ltac:(lia)) as Hd2.
  set (n2 := Z.max (Zdigits2 m2 + e1 - 53) (-1074) - e1) in Hs2.
  assert (Hr2 : e2 < 0 /\ lo * 2 ^ (- e2) <= shr_m r2 <= hi * 2 ^ (- e2)).
  { destruct (Z.lt_ge_cases 0 n2) as [Hn|Hn].
    - destruct Hs2 as [[-> ->] _]; [done|].
      assert (He2 : e1 + n2 < 0) by (unfold n2; lia). split; [done|].
      pose proof (shift_scale e1 n2 Hn He2) as Hsc.
      assert (Hn2 : 0 < 2 ^ n2) by (apply Z.pow_pos_nonneg; lia).
      assert (0 < 2 ^ (- (e1 + n2))) by (apply Z.pow_pos_nonneg; lia).
      split.
      + apply Z.div_le_lower_bound; [done|]. nia.
      + apply Z.div_le_upper_bound; [done|]. nia.
    - destruct Hs2 as [_ [-> ->]]; [lia|]. cbn [shr_record_of_loc shr_m]. split; [done|lia]. }
  destruct Hr2 as (He2 & Hlo2 & Hhi2).
  assert (H2 : 0 < 2 ^ (- e2)) by (apply Z.pow_pos_nonneg; lia).
  destruct (shr_m r2) as [|p|p]; [nia| |nia].
  replace (e2 <=? 1024 - 53) with true by lia. done.
Qed.

Lemma binary_round_aux_between (lo hi : Z) (sx : bool) (mx ex : Z) :
  0 <= lo <= hi -> hi < 2 ^ 52 -> ex < 0 ->
  lo * 2 ^ (- ex) <= mx <= hi * 2 ^ (- ex) ->
  match binary_round_aux 53 1024 sx mx ex loc_Exact with
  | S754_zero _ => lo = 0
  | S754_finite s m e => s = sx /\ e < 0 /\ lo * 2 ^ (- e) <= Z.pos m <= hi * 2 ^ (- e)
  | _ => False
  end.
Proof. intros. apply binary_round_aux_between_loc; auto. Qed.

(** ** The three steps of the interpolation *)

(** An integer below [2 ^ 52] in magnitude is converted exactly. *)
Lemma float_of_Z_exact (z : Z) :
  - 2 ^ 52 < z < 2 ^ 52 -> between z z (Prim2SF (float_of_Z z)).
Proof.
  assert (H63 : 2 ^ 52 < 2 ^ 63) by (vm_compute; reflexivity).
  assert (Hpos : forall c, 0 <= c < 2 ^ 52 -> between c c (Prim2SF (float_of_Z c))).
  { intros c Hc. unfold float_of_Z. replace (c <? 0) with false by lia.
    rewrite of_uint63_spec, Uint63.of_Z_spec. change Uint63.wB with (2 ^ 63).
    rewrite Z.mod_small by lia. rewrite Z.abs_eq by lia.
    destruct c as [|p|p]; [cbn; lia| |lia].
    cbn [binary_normalize]. unfold binary_round. change prec with 53. change emax with 1024.
    pose proof (shl_align_value p 0 (fexp 53 1024 (Z.pos (digits2_pos p) + 0))) as Hv.
    assert (Hf : fexp 53 1024 (Z.pos (digits2_pos p) + 0) < 0).
    { pose proof (Zdigits2_le (Z.pos p) 52 ltac:(lia) ltac:(lia)) as Hd. cbn [Zdigits2] in Hd.
      unfold fexp, SpecFloat.emin. change (3 - 1024 - 53) with (-1074). lia. }
    destruct (shl_align p 0 _) as [mz ez]. destruct Hv as [Hez Hmz].
    assert (Hez' : ez < 0) by lia.
    assert (Hm : Z.pos p * 2 ^ (- ez) <= Z.pos mz <= Z.pos p * 2 ^ (- ez))
      by (rewrite Hmz; replace (0 - ez) with (- ez) by lia; lia).
    pose proof (binary_round_aux_between (Z.pos p) (Z.pos p) false (Z.pos mz) ez
                  ltac:(lia) ltac:(lia) Hez' Hm) as Hr.
    destruct (binary_round_aux 53 1024 false (Z.pos mz) ez loc_Exact) as [s| | |s m e];
      try done.
    destruct Hr as (-> & He & Hb). unfold between. cbn [cond_Zopp]. by split. }
  intros Hz. destruct (Z.lt_ge_cases z 0) as [Hneg|Hnn].
  - assert (Hopp : float_of_Z z = (- float_of_Z (- z))%float).
    { unfold float_of_Z. rewrite Z.abs_opp.
      replace (z <? 0) with true by lia. by replace (- z <? 0) with false by lia. }
    rewrite Hopp, opp_spec.
    pose proof (Hpos (- z) ltac:(lia)) as Hb.
    destruct (Prim2SF (float_of_Z (- z))) as [s| | |s m e]; try done; cbn in Hb |- *; [lia|].
    destruct s; cbn [cond_Zopp negb] in Hb |- *; lia.
  - apply Hpos. lia.
Qed.

(** A factor in the unit interval is a float between 0 and 1. *)
Lemma unit_interval_between (f : float) : unit_interval f -> between 0 1 (Prim2SF f).
Proof.
  intros Hf%unit_le_one. destruct (Prim2SF f) as [s| | |s m e]; [cbn; lia|done|done|].
  destruct Hf as (-> & He & Hm). unfold between. cbn [cond_Zopp]. lia.
Qed.

(** The quotient of two integers [0 <= i < h] is a float between 0 and
    1. *)
Lemma SFdiv_between (i h : Z) (x y : spec_float) :
  0 <= i < h -> h < 2 ^ 52 -> between i i x -> between h h y ->
  between 0 1 (SFdiv 53 1024 x y).
Proof.
  intros Hi Hh Hx Hy.
  destruct x as [sx| | |sx mx ex]; try done; destruct y as [sy| | |sy my ey]; try done;
    cbn in Hx, Hy; try lia.
  destruct Hx as (Hex & Hmx), Hy as (Hey & Hmy).
  assert (H0x : 0 < 2 ^ (- ex)) by (apply Z.pow_pos_nonneg; lia).
  assert (H0y : 0 < 2 ^ (- ey)) by (apply Z.pow_pos_nonneg; lia).
  assert (sx = false) as -> by (destruct sx; [cbn [cond_Zopp] in Hmx; nia|done]).
  assert (sy = false) as -> by (destruct sy; [cbn [cond_Zopp] in Hmy; nia|done]).
  cbn [cond_Zopp] in Hmx, Hmy.
  assert (Hmx' : Z.pos mx = i * 2 ^ (- ex)) by lia.
  assert (Hmy' : Z.pos my = h * 2 ^ (- ey)) by lia.
  cbn [SFdiv xorb]. unfold SFdiv_core_binary. cbv zeta.
  set (d1 := Zdigits2 (Z.pos mx)). set (d2 := Zdigits2 (Z.pos my)).
  set (e' := Z.min (fexp 53 1024 (d1 + ex - (d2 + ey))) (ex - ey)).
  set (s := ex - ey - e').
  assert (Hd1 : d1 + ex <= 52).
  { apply (digits_between h); [done|done|]. split; [lia|]. rewrite Hmx'. nia. }
  assert (Hd2 : 1 <= d2 + ey).
  { pose proof (Zdigits2_ge (Z.pos my) (- ey) ltac:(nia) ltac:(lia)) as Hge. unfold d2. lia. }
  assert (He' : e' < 0 /\ e' <= ex - ey).
  { unfold e', fexp, SpecFloat.emin. change (3 - 1024 - 53) with (-1074). lia. }
  assert (Hs : 0 <= s) by (unfold s; lia).
  set (m' := match s with Z.pos _ => Z.shiftl (Z.pos mx) s | 0 => Z.pos mx | Z.neg _ => 0 end).
  assert (Hm' : m' = Z.pos mx * 2 ^ s).
  { unfold m'. destruct s as [|p|p] eqn:Hsp; [cbn; lia| |lia].
    by rewrite Z.shiftl_mul_pow2. }
  pose proof (Z_div_mod m' (Z.pos my) ltac:(lia)) as Hdiv.
  destruct (Z.div_eucl m' (Z.pos my)) as [q r]. destruct Hdiv as [Hq Hr].
  assert (H0s : 0 < 2 ^ s) by (apply Z.pow_pos_nonneg; lia).
  assert (H0e : 0 < 2 ^ (- e')) by (apply Z.pow_pos_nonneg; lia).
  assert (Hq0 : 0 <= q) by nia.
  (* [2 ^ (- e') * 2 ^ (- ey) = 2 ^ s * 2 ^ (- ex)] *)
  assert (Hpow : 2 ^ (- e') * 2 ^ (- ey) = 2 ^ s * 2 ^ (- ex)).
  { rewrite <- !pow2_split by lia. f_equal. unfold s. lia. }
  assert (Hlt : m' < Z.pos my * 2 ^ (- e')).
  { rewrite Hm', Hmx', Hmy'.
    replace (i * 2 ^ (- ex) * 2 ^ s) with (i * (2 ^ s * 2 ^ (- ex))) by lia.
    replace (h * 2 ^ (- ey) * 2 ^ (- e')) with (h * (2 ^ (- e') * 2 ^ (- ey))) by lia.
    rewrite Hpow. assert (0 < 2 ^ s * 2 ^ (- ex)) by lia. nia. }
  assert (Hq1 : q + 1 <= 2 ^ (- e')) by nia.
  pose proof (binary_round_aux_between_loc 0 1 false q e' (new_location (Z.pos my) r)
                ltac:(lia) ltac:(vm_compute; reflexivity) ltac:(lia) ltac:(lia)
                ltac:(right; lia)) as Hround.
  destruct (binary_round_aux 53 1024 false q e' _) as [s'| | |s' m e]; [cbn; lia|done|done|].
  destruct Hround as (-> & He & Hm). unfold between. cbn [cond_Zopp]. split; [done|lia].
Qed.

(** A factor in [0, 1] times a float that denotes the integer [z] is a
    float between 0 and [z]. *)
Lemma unit_times_between (f : float) (z : Z) (y : spec_float) :
  between 0 1 (Prim2SF f) -> -255 <= z <= 255 -> between z z y ->
  between (Z.min 0 z) (Z.max 0 z) (SFmul 53 1024 (Prim2SF f) y).
Proof.
  intros Hf Hz Hy.
  destruct (Prim2SF f) as [sf| | |sf mf ef]; try done;
    destruct y as [sy| | |sy my ey]; try done; cbn [SFmul between]; try lia.
  destruct Hf as (Hef & Hmf). destruct Hy as (Hey & Hmy).
  assert (sf = false) as -> by (destruct sf; [cbn [cond_Zopp] in Hmf; lia|done]).
  cbn [cond_Zopp] in Hmf. rewrite Z.mul_1_l in Hmf. destruct Hmf as [_ Hmf]. cbn [xorb].
  assert (0 < 2 ^ (- ef)) by (apply Z.pow_pos_nonneg; lia).
  assert (0 < 2 ^ (- ey)) by (apply Z.pow_pos_nonneg; lia).
  assert (Hsplit : 2 ^ (- (ef + ey)) = 2 ^ (- ef) * 2 ^ (- ey)).
  { rewrite <- pow2_split by lia. f_equal. lia. }
  assert (H52 : 255 < 2 ^ 52) by (vm_compute; reflexivity).
  assert (Hmx : 0 * 2 ^ (- (ef + ey)) <= Z.pos (mf * my) <= Z.abs z * 2 ^ (- (ef + ey))).
  { rewrite Hsplit, Pos2Z.inj_mul. destruct sy; cbn [cond_Zopp] in Hmy; nia. }
  pose proof (binary_round_aux_between 0 (Z.abs z) sy (Z.pos (mf * my)) (ef + ey)
                ltac:(lia) ltac:(lia) ltac:(lia) Hmx) as Hr.
  destruct (binary_round_aux 53 1024 sy (Z.pos (mf * my)) (ef + ey) loc_Exact)
    as [s| | |s m e]; try done; cbn [between]; [lia|].
  destruct Hr as (-> & He & Hm). split; [done|].
  assert (0 < 2 ^ (- e)) by (apply Z.pow_pos_nonneg; lia).
  destruct sy; cbn [cond_Zopp] in Hmy |- *; nia.
Qed.

Lemma scaled_bounds (lo hi v P : Z) : 0 < P -> lo * P <= v * P <= hi * P -> lo <= v <= hi.
Proof. intros HP H. nia. Qed.

(** The sum of a float that denotes the integer [c] and of a float
    between [lo] and [hi] is a float between [c + lo] and [c + hi]. *)
Lemma exact_plus_between (c lo hi : Z) (x y : spec_float) :
  0 <= c -> 0 <= c + lo -> c + hi < 2 ^ 52 ->
  between c c x -> between lo hi y ->
  between (c + lo) (c + hi) (SFadd 53 1024 x y).
Proof.
  intros Hc Hlo Hhi Hx Hy.
  destruct x as [sx| | |sx mx ex]; try done; destruct y as [sy| | |sy my ey]; try done.
  - cbn in Hx, Hy |- *. destruct sx, sy; cbn; lia.
  - cbn in Hx. assert (c = 0) as -> by lia. cbn [SFadd]. by rewrite !Z.add_0_l.
  - cbn [SFadd]. cbn in Hy. destruct Hx as (Hex & Hmx). split; [done|].
    assert (0 < 2 ^ (- ex)) by (apply Z.pow_pos_nonneg; lia). nia.
  - destruct Hx as (Hex & Hmx), Hy as (Hey & Hmy).
    assert (H0x : 0 < 2 ^ (- ex)) by (apply Z.pow_pos_nonneg; lia).
    assert (sx = false) as -> by (destruct sx; [cbn [cond_Zopp] in Hmx; nia|done]).
    cbn [cond_Zopp] in Hmx.
    cbn [SFadd]. cbv zeta. set (ez := Z.min ex ey).
    pose proof (shl_align_value mx ex ez) as Ha. pose proof (shl_align_value my ey ez) as Hb.
    destruct (shl_align mx ex ez) as [a ea], (shl_align my ey ez) as [b eb]. cbn [fst].
    destruct Ha as [-> Ha], Hb as [-> Hb].
    replace (Z.min ex ez) with ez in Ha by (unfold ez; lia).
    replace (Z.min ey ez) with ez in Hb by (unfold ez; lia).
    assert (Hez : ez < 0) by (unfold ez; lia).
    assert (H0z : 0 < 2 ^ (- ez)) by (apply Z.pow_pos_nonneg; lia).
    assert (H0y : 0 < 2 ^ (- ey)) by (apply Z.pow_pos_nonneg; lia).
    assert (Hsx : 2 ^ (- ez) = 2 ^ (- ex) * 2 ^ (ex - ez)).
    { rewrite <- pow2_split by (unfold ez; lia). f_equal. lia. }
    assert (Hsy : 2 ^ (- ez) = 2 ^ (- ey) * 2 ^ (ey - ez)).
    { rewrite <- pow2_split by (unfold ez; lia). f_equal. lia. }
    assert (H0a : 0 < 2 ^ (ex - ez)) by (apply Z.pow_pos_nonneg; unfold ez; lia).
    assert (H0b : 0 < 2 ^ (ey - ez)) by (apply Z.pow_pos_nonneg; unfold ez; lia).
    change (cond_Zopp false (Z.pos a)) with (Z.pos a).
    set (S := Z.pos a + cond_Zopp sy (Z.pos b)).
    assert (HS : (c + lo) * 2 ^ (- ez) <= S <= (c + hi) * 2 ^ (- ez)).
    { unfold S. rewrite Ha, Hb.
      assert (Hca : Z.pos mx * 2 ^ (ex - ez) = c * 2 ^ (- ez)) by (rewrite Hsx; nia).
      assert (Hcb : lo * 2 ^ (- ez) <= cond_Zopp sy (Z.pos my * 2 ^ (ey - ez)) <=
                    hi * 2 ^ (- ez)).
      { rewrite Hsy. destruct sy; cbn [cond_Zopp] in Hmy |- *; nia. }
      lia. }
    clearbody S. clear Ha Hb Hsx Hsy.
    assert (0 <= (c + lo) * 2 ^ (- ez)) by (apply Z.mul_nonneg_nonneg; lia).
    destruct S as [|p|p]; cbn [binary_normalize between];
      [apply (scaled_bounds _ _ 0 (2 ^ (- ez))); lia| |lia].
    unfold binary_round.
    pose proof (shl_align_value p ez (fexp 53 1024 (Z.pos (digits2_pos p) + ez))) as Hz.
    destruct (shl_align p ez _) as [mz ez']. destruct Hz as [Hez' Hmz].
    assert (Hlt : ez' <= ez) by lia.
    assert (Hsz : 2 ^ (- ez') = 2 ^ (- ez) * 2 ^ (ez - ez')).
    { rewrite <- pow2_split by lia. f_equal. lia. }
    assert (0 < 2 ^ (ez - ez')) by (apply Z.pow_pos_nonneg; lia).
    assert (Hmz' : (c + lo) * 2 ^ (- ez') <= Z.pos mz <= (c + hi) * 2 ^ (- ez')).
    { rewrite Hmz, Hsz. nia. }
    pose proof (binary_round_aux_between (c + lo) (c + hi) false (Z.pos mz) ez'
                  ltac:(nia) Hhi ltac:(lia) Hmz') as Hr.
    destruct (binary_round_aux 53 1024 false (Z.pos mz) ez' loc_Exact)
      as [s| | |s m e]; try done; cbn [between]; [nia|].
    destruct Hr as (-> & He & Hm). by split.
Qed.

(** [int()] of a float between two integers that are not negative is an
    integer between them. *)
Lemma int_of_float_between (lo hi : Z) (x : float) :
  0 <= lo -> between lo hi (Prim2SF x) ->
  exists z, int_of_float x = inr z /\ lo <= z <= hi.
Proof.
  intros Hlo Hx. unfold int_of_float. destruct (Prim2SF x) as [s| | |s m e]; try done.
  - exists 0. cbn in Hx. split; [done|lia].
  - destruct Hx as (He & Hm). assert (0 < 2 ^ (- e)) by (apply Z.pow_pos_nonneg; lia).
    destruct s; cbn [cond_Zopp] in Hm; [nia|].
    replace (0 <=? e) with false by lia. eexists. split; [reflexivity|].
    rewrite Z.shiftr_div_pow2 by lia. split.
    + apply Z.div_le_lower_bound; lia.
    + apply Z.div_le_upper_bound; lia.
Qed.

(** For two channels in [0, 255] and every factor in [0, 1],
    [int(c1 + factor * (c2 - c1))] is defined and lies between the two
    channels. *)
Lemma interpolate_channel_between (c1 c2 : Z) (factor : float) :
  is_byte c1 -> is_byte c2 -> between 0 1 (Prim2SF factor) ->
  exists z, Helpers.interpolate_channel c1 c2 factor = inr z /\
            Z.min c1 c2 <= z <= Z.max c1 c2.
Proof.
  unfold is_byte. intros H1 H2 Hf. unfold Helpers.interpolate_channel.
  assert (H52 : 255 < 2 ^ 52) by (vm_compute; reflexivity).
  pose proof (float_of_Z_exact c1 ltac:(lia)) as Hx.
  pose proof (float_of_Z_exact (c2 - c1) ltac:(lia)) as Hd.
  pose proof (unit_times_between factor (c2 - c1) _ Hf ltac:(lia) Hd) as Hp.
  rewrite <- mul_spec in Hp.
  pose proof (exact_plus_between c1 (Z.min 0 (c2 - c1)) (Z.max 0 (c2 - c1)) _ _
                ltac:(lia) ltac:(lia) ltac:(lia) Hx Hp) as Hs.
  rewrite <- add_spec in Hs.
  destruct (int_of_float_between (c1 + Z.min 0 (c2 - c1)) (c1 + Z.max 0 (c2 - c1)) _
              ltac:(lia) Hs) as (z & Hz & Hr).
  exists z. split; [done|lia].
Qed.

(** ** The interpolated colour *)

Lemma hex_rgb_inr (color : string) (r g b : Z) :
  hex_rgb color = inr (r, g, b) ->
  int_of_str 16 (substring 1 2 color) = inr r /\
  int_of_str 16 (substring 3 2 color) = inr g /\
  int_of_str 16 (substring 5 2 color) = inr b.
Proof.
  unfold hex_rgb, slice2.
  destruct (int_of_str 16 (substring 1 2 color)) as [?|r']; [done|].
  destruct (int_of_str 16 (substring 3 2 color)) as [?|g']; [done|].
  destruct (int_of_str 16 (substring 5 2 color)) as [?|b']; [done|].
  by intros [= -> -> ->].
Qed.

Lemma interpolate_color_between
    (color1 color2 : string) (r1 g1 b1 r2 g2 b2 : Z) (factor : float) :
  hex_rgb color1 = inr (r1, g1, b1) -> hex_rgb color2 = inr (r2, g2, b2) ->
  is_byte r1 -> is_byte g1 -> is_byte b1 -> is_byte r2 -> is_byte g2 -> is_byte b2 ->
  between 0 1 (Prim2SF factor) ->
  exists (color : string) (r g b : Z),
    Helpers._interpolate_color color1 color2 factor = inr color /\
    String.length color = 7%nat /\
    hex_rgb color = inr (r, g, b) /\
    Z.min r1 r2 <= r <= Z.max r1 r2 /\
    Z.min g1 g2 <= g <= Z.max g1 g2 /\
    Z.min b1 b2 <= b <= Z.max b1 b2.
Proof.
  intros (Hr1 & Hg1 & Hb1)%hex_rgb_inr (Hr2 & Hg2 & Hb2)%hex_rgb_inr.
  intros Br1 Bg1 Bb1 Br2 Bg2 Bb2 Hf.
  destruct (interpolate_channel_between r1 r2 factor Br1 Br2 Hf) as (r & Hr & Rr).
  destruct (interpolate_channel_between g1 g2 factor Bg1 Bg2 Hf) as (g & Hg & Rg).
  destruct (interpolate_channel_between b1 b2 factor Bb1 Bb2 Hf) as (b & Hb & Rb).
  unfold is_byte in *.
  destruct (format_02x_byte r ltac:(unfold is_byte; lia)) as (x1 & x2 & Hfr & Hpr).
  destruct (format_02x_byte g ltac:(unfold is_byte; lia)) as (y1 & y2 & Hfg & Hpg).
  destruct (format_02x_byte b ltac:(unfold is_byte; lia)) as (z1 & z2 & Hfb & Hpb).
  eexists _, r, g, b. split.
  { unfold Helpers._interpolate_color. rewrite Hr1, Hg1, Hb1, Hr2, Hg2, Hb2.
    unfold mbind, res_bind, bind. cbv iota beta. rewrite Hr, Hg, Hb. reflexivity. }
  rewrite Hfr, Hfg, Hfb. cbv [String.append].
  split; [reflexivity|]. split; [|done].
  unfold hex_rgb, slice2. cbn [substring]. by rewrite Hpr, Hpg, Hpb.
Qed.

(** For two colours whose bands are bytes and every factor in [0, 1],
    [_interpolate_color] returns a colour string of seven characters
    that the colour conversion reads back, and each of its bands lies
    between the bands of the two colours: the interpolation never leaves
    the range, so the two-digit format never overflows. *)
Theorem interpolated_colour_stays_between
    (color1 color2 : string) (r1 g1 b1 r2 g2 b2 : Z) (factor : float) :
  hex_rgb color1 = inr (r1, g1, b1) -> hex_rgb color2 = inr (r2, g2, b2) ->
  is_byte r1 -> is_byte g1 -> is_byte b1 -> is_byte r2 -> is_byte g2 -> is_byte b2 ->
  unit_interval factor ->
  exists (color : string) (r g b : Z),
    Helpers._interpolate_color color1 color2 factor = inr color /\
    String.length color = 7%nat /\
    hex_rgb color = inr (r, g, b) /\
    Z.min r1 r2 <= r <= Z.max r1 r2 /\
    Z.min g1 g2 <= g <= Z.max g1 g2 /\
    Z.min b1 b2 <= b <= Z.max b1 b2.
Proof.
  intros H1 H2 Br1 Bg1 Bb1 Br2 Bg2 Bb2 Hf%unit_interval_between.
  by apply (interpolate_color_between color1 color2 r1 g1 b1 r2 g2 b2).
Qed.

Lemma interpolated_colour_stays_between_witness :
  exists (color : string) (r g b : Z),
    Helpers._interpolate_color "#4361ee" "#3f37c9" 0.3 = inr color /\
    String.length color = 7%nat /\
    hex_rgb color = inr (r, g, b) /\
    Z.min 67 63 <= r <= Z.max 67 63 /\
    Z.min 97 55 <= g <= Z.max 97 55 /\
    Z.min 238 201 <= b <= Z.max 238 201.
Proof.
  apply (interpolated_colour_stays_between "#4361ee" "#3f37c9" 67 97 238 63 55 201 0.3);
    [reflexivity | reflexivity | unfold is_byte; lia .. | split; reflexivity].
Defined.

End InterpolationProperties.

(* ===================================================================== *)
(** * Properties of [apply_style_effects] *)
(* ===================================================================== *)

Module StyleEffectsProperties.
Import Py PIL World Transformers Dispatch App Spec Notions Proofs TransformersProperties.
Import InterpolationProperties StyleEffects.

(** ** The factor of a row *)

Lemma true_div_between (i height : Z) :
  0 <= i < height -> height < 2 ^ 52 -> between 0 1 (Prim2SF (true_div i height)).
Proof.
  intros Hi Hh. unfold true_div. rewrite div_spec.
  apply (SFdiv_between i height); [done|done| |]; apply float_of_Z_exact; lia.
Qed.

Lemma true_div_zero (height : Z) :
  0 < height < 2 ^ 52 -> exists s, Prim2SF (true_div 0 height) = S754_zero s.
Proof.
  intros Hh. unfold true_div. rewrite div_spec.
  pose proof (float_of_Z_exact height ltac:(lia)) as Hy.
  change (Prim2SF (float_of_Z 0)) with (S754_zero false).
  destruct (Prim2SF (float_of_Z height)) as [s| | |s m e]; try done; cbn in Hy |- *; [lia|eauto].
Qed.

(** At a factor that is a zero the interpolation gives the first
    channel. *)
Lemma interpolate_channel_at_zero (c1 c2 : Z) (f : float) (s : bool) :
  is_byte c1 -> is_byte c2 -> Prim2SF f = S754_zero s ->
  Helpers.interpolate_channel c1 c2 f = inr c1.
Proof.
  unfold is_byte. intros H1 H2 Hf. unfold Helpers.interpolate_channel.
  assert (H52 : 255 < 2 ^ 52) by (vm_compute; reflexivity).
  pose proof (float_of_Z_exact c1 ltac:(lia)) as Hx.
  pose proof (float_of_Z_exact (c2 - c1) ltac:(lia)) as Hd.
  assert (Hp : between 0 0 (Prim2SF (f * float_of_Z (c2 - c1)))).
  { rewrite mul_spec, Hf.
    destruct (Prim2SF (float_of_Z (c2 - c1))) as [s'| | |s' m e]; try done; cbn; lia. }
  pose proof (exact_plus_between c1 0 0 _ _ ltac:(lia) ltac:(lia) ltac:(lia) Hx Hp) as Hs.
  rewrite <- add_spec in Hs.
  destruct (int_of_float_between (c1 + 0) (c1 + 0) _ ltac:(lia) Hs) as (z & Hz & Hr).
  rewrite Hz. f_equal. lia.
Qed.

Lemma interpolate_color_at_zero
    (color1 color2 : string) (r1 g1 b1 r2 g2 b2 : Z) (f : float) (s : bool) :
  hex_rgb color1 = inr (r1, g1, b1) -> hex_rgb color2 = inr (r2, g2, b2) ->
  is_byte r1 -> is_byte g1 -> is_byte b1 -> is_byte r2 -> is_byte g2 -> is_byte b2 ->
  Prim2SF f = S754_zero s ->
  exists fill, Helpers._interpolate_color color1 color2 f = inr fill /\
               hex_rgb fill = inr (r1, g1, b1).
Proof.
  intros (Hr1 & Hg1 & Hb1)%hex_rgb_inr (Hr2 & Hg2 & Hb2)%hex_rgb_inr.
  intros Br1 Bg1 Bb1 Br2 Bg2 Bb2 Hf.
  destruct (format_02x_byte r1 Br1) as (x1 & x2 & Hfr & Hpr).
  destruct (format_02x_byte g1 Bg1) as (y1 & y2 & Hfg & Hpg).
  destruct (format_02x_byte b1 Bb1) as (z1 & z2 & Hfb & Hpb).
  eexists. split.
  { unfold Helpers._interpolate_color. rewrite Hr1, Hg1, Hb1, Hr2, Hg2, Hb2.
    unfold mbind, res_bind, bind. cbv iota beta.
    rewrite (interpolate_channel_at_zero r1 r2 f s), (interpolate_channel_at_zero g1 g2 f s),
      (interpolate_channel_at_zero b1 b2 f s) by done.
    reflexivity. }
  rewrite Hfr, Hfg, Hfb. cbv [String.append].
  unfold hex_rgb, slice2. cbn [substring]. by rewrite Hpr, Hpg, Hpb.
Qed.

(** ** Loops *)

Lemma for_ext_in {A S} (l : list A) (body body' : S -> A -> res S) (s : S) :
  (forall s a, a ∈ l -> body s a = body' s a) -> for_ l body s = for_ l body' s.
Proof.
  revert s. induction l as [|a l IH]; intros s Hb; cbn; [done|].
  rewrite Hb by constructor. destruct (body' s a); cbn; [done|].
  apply IH. intros s' a' Ha'. apply Hb. by constructor.
Qed.

Lemma for_zip_fmap {A B S} (l : list A) (f : A -> B) (body : S -> A * B -> res S) (s : S) :
  for_ (zip l (f <$> l)) body s = for_ l (fun s a => body s (a, f a)) s.
Proof.
  revert s. induction l as [|a l IH]; intros s; cbn; [done|].
  destruct (body s (a, f a)); cbn; [done|]. apply IH.
Qed.

Section WithDrawing.
Context {D : Drawing}.

(** ** The gradient rows *)

(** With two gradient colours whose bands are bytes, no row of the
    gradient fails in the interpolation: the stage is the sequence of the
    calls [draw.line([(0, i), (width, i)], fill)] for the rows [i] from 0
    to [height - 1], where the fill of row [i] is the colour
    [_interpolate_color] returns at the factor [i / height], a string
    that denotes bands between those of the two colours; row 0 has the
    first colour exactly. *)
Theorem gradient_rows_stay_between_the_colours
    (config : pydict) (h : list Image) (draw image : nat) (im : Image) (colors : pyval)
    (color1 color2 : string) (r1 g1 b1 r2 g2 b2 : Z) :
  truth (dict_get "gradient" config) = inr true ->
  dict_get "gradient_colors" config = Some colors ->
  subscript_at colors 0 = inr (PStr color1) ->
  subscript_at colors 1 = inr (PStr color2) ->
  hex_rgb color1 = inr (r1, g1, b1) -> hex_rgb color2 = inr (r2, g2, b2) ->
  is_byte r1 -> is_byte g1 -> is_byte b1 -> is_byte r2 -> is_byte g2 -> is_byte b2 ->
  h !! image = Some im -> snd (size im) < 2 ^ 52 ->
  exists fills : list string,
    length fills = Z.to_nat (snd (size im)) /\
    (forall (i : nat) (fill : string), fills !! i = Some fill ->
       Helpers._interpolate_color color1 color2 (true_div (Z.of_nat i) (snd (size im))) =
         inr fill /\
       exists r g b,
         hex_rgb fill = inr (r, g, b) /\
         Z.min r1 r2 <= r <= Z.max r1 r2 /\
         Z.min g1 g2 <= g <= Z.max g1 g2 /\
         Z.min b1 b2 <= b <= Z.max b1 b2 /\
         (i = 0%nat -> (r, g, b) = (r1, g1, b1))) /\
    gradient_stage draw image config h =
      for_ (zip (seqZ 0 (snd (size im))) fills)
        (fun h '(i, fill) =>
           drawing_on h draw (fun canvas => draw_line canvas (0, i) (fst (size im), i) fill))
        h.
Proof.
  intros Hset Hcolors H0 H1 Hc1 Hc2 Br1 Bg1 Bb1 Br2 Bg2 Bb2 Him Hheight.
  destruct im as [[width height] px]. cbn [size fst snd] in *.
  pose (fill_of := fun i : Z =>
    match Helpers._interpolate_color color1 color2 (true_div i height) with
    | inr fill => fill
    | inl _ => ""
    end).
  assert (Hrow : forall i, 0 <= i < height ->
            Helpers._interpolate_color color1 color2 (true_div i height) = inr (fill_of i) /\
            exists r g b,
              hex_rgb (fill_of i) = inr (r, g, b) /\
              Z.min r1 r2 <= r <= Z.max r1 r2 /\
              Z.min g1 g2 <= g <= Z.max g1 g2 /\
              Z.min b1 b2 <= b <= Z.max b1 b2 /\
              (i = 0 -> (r, g, b) = (r1, g1, b1))).
  { intros i Hi.
    pose proof (true_div_between i height Hi Hheight) as Hf.
    destruct (interpolate_color_between color1 color2 r1 g1 b1 r2 g2 b2 _
                Hc1 Hc2 Br1 Bg1 Bb1 Br2 Bg2 Bb2 Hf)
      as (fill & r & g & b & Hfill & _ & Hrgb & Rr & Rg & Rb).
    unfold fill_of. rewrite Hfill. split; [done|].
    exists r, g, b. repeat (split; [done|]). intros ->.
    destruct (true_div_zero height ltac:(lia)) as [s Hz].
    destruct (interpolate_color_at_zero color1 color2 r1 g1 b1 r2 g2 b2 _ s
                Hc1 Hc2 Br1 Bg1 Bb1 Br2 Bg2 Bb2 Hz) as (fill0 & Hfill0 & Hrgb0).
    congruence. }
  exists (fill_of <$> seqZ 0 height).
  split; [by rewrite length_fmap, length_seqZ|]. split.
  - intros i fill Hi. apply list_lookup_fmap_Some in Hi as (k & -> & Hk).
    apply lookup_seqZ in Hk as [-> Hlt]. rewrite Z.add_0_l in *.
    destruct (Hrow (Z.of_nat i) ltac:(lia)) as (Hfill & r & g & b & Hrgb & Rr & Rg & Rb & H00).
    split; [done|]. exists r, g, b. repeat (split; [done|]). intros ->. by apply H00.
  - unfold gradient_stage. rewrite Hset. unfold mbind, res_bind, bind. cbv iota beta.
    unfold load. rewrite Him. unfold ret. cbv iota beta. cbn [size].
    rewrite for_zip_fmap. apply for_ext_in. intros h' i Hi%elem_of_seqZ.
    unfold gradient_row, dict_item. rewrite Hcolors.
    unfold mbind, res_bind, bind, ret. cbv iota beta. rewrite H0, H1. cbn [as_str]. unfold ret.
    cbv iota beta.
    destruct (Hrow i ltac:(lia)) as (-> & _). reflexivity.
Qed.

(** ** The texture and the border *)

(** With the texture and the border both set, and [draw] drawing on the
    image passed as [image]: the reference returned is a new image, the
    canvas (as the gradient stage left it) under the white texture of
    alpha 30, and it carries no border; the border is drawn on the
    original image, which is not the one returned. *)
Theorem border_is_drawn_on_the_original_image
    (config : pydict) (h h1 : list Image) (image : nat) (canvas outlined : Image)
    (color width : pyval) :
  gradient_stage image image config h = inr h1 ->
  truth (dict_get "texture" config) = inr true ->
  truth (dict_get "border" config) = inr true ->
  dict_get "border_color" config = Some color ->
  dict_get "border_width" config = Some width ->
  h1 !! image = Some canvas -> mode canvas = RGBA -> wf canvas ->
  draw_outline canvas (0, 0) (size canvas) color width = inr outlined ->
  exists (returned : nat) (h' : list Image),
    apply_style_effects image image config h = inr (returned, h') /\
    returned <> image /\
    h' !! returned = Some (flat_layer_over (255, 255, 255, 30) canvas) /\
    h' !! image = Some outlined /\
    (forall r, r <> image -> (r < length h1)%nat -> h' !! r = h1 !! r).
Proof.
  intros Hg Ht Hb Hcolor Hwidth Him Hmode Hwf Hout.
  pose proof (lookup_lt_Some _ _ _ Him) as Hlt.
  destruct canvas as [[w ht] [l|px]]; [done|]. destruct Hwf as (Hw & Hh & Hn).
  cbn [size fst snd npixels data] in *.
  set (canvas := mkImage (w, ht) (Rgba px)) in *.
  set (texture := mkImage (w, ht) (Rgba (replicate (length px) (255, 255, 255, 30)))).
  set (textured := flat_layer_over (255, 255, 255, 30) canvas).
  assert (Hnew : new_RGBA (w, ht) (255, 255, 255, 30) = inr texture).
  { rewrite new_RGBA_ok by done. unfold texture. do 4 f_equal. lia. }
  assert (Hcomp : alpha_composite canvas texture = inr textured)
    by apply alpha_composite_flat.
  assert (Happ : (h1 ++ [texture; textured]) !! image = Some canvas)
    by (by apply lookup_app_l_Some).
  exists (S (length h1)), (<[image := outlined]> (h1 ++ [texture; textured])).
  split; [|split; [lia|split; [|split]]].
  - unfold apply_style_effects. rewrite Hg. unfold mbind, res_bind, bind. cbv iota beta.
    unfold texture_stage. rewrite Ht. unfold mbind, res_bind, bind. cbv iota beta.
    unfold load. rewrite Him. unfold ret. cbv iota beta. change (size canvas) with (w, ht).
    rewrite Hnew. cbv iota beta. rewrite Hcomp. cbv iota beta.
    unfold mret, res_ret, ret. cbv iota beta.
    unfold border_stage. rewrite Hb. unfold mbind, res_bind, bind. cbv iota beta.
    assert (Hret : (h1 ++ [texture; textured]) !! S (length h1) = Some textured).
    { rewrite lookup_app_r by lia. by replace (S (length h1) - length h1)%nat with 1%nat by lia. }
    unfold load. rewrite Hret. unfold ret. cbv iota beta.
    unfold dict_item. rewrite Hcolor, Hwidth. unfold ret. cbv iota beta.
    unfold drawing_on, load. rewrite Happ. unfold mbind, res_bind, bind, ret. cbv iota beta.
    change (size textured) with (w, ht). change (size canvas) with (w, ht) in Hout.
    rewrite Hout. reflexivity.
  - rewrite list_lookup_insert_ne by lia.
    rewrite lookup_app_r by lia. by replace (S (length h1) - length h1)%nat with 1%nat by lia.
  - apply list_lookup_insert_eq. rewrite length_app. lia.
  - intros r Hr Hrl. rewrite list_lookup_insert_ne by done. by apply lookup_app_l.
Qed.

End WithDrawing.

(** ** The theorems at concrete inputs *)

Lemma gradient_rows_stay_between_the_colours_witness :
  exists fills : list string,
    length fills = Z.to_nat (snd (size (base_image 2 3))) /\
    (forall (i : nat) (fill : string), fills !! i = Some fill ->
       Helpers._interpolate_color "#4361ee" "#3f37c9"
         (true_div (Z.of_nat i) (snd (size (base_image 2 3)))) = inr fill /\
       exists r g b,
         hex_rgb fill = inr (r, g, b) /\
         Z.min 67 63 <= r <= Z.max 67 63 /\
         Z.min 97 55 <= g <= Z.max 97 55 /\
         Z.min 238 201 <= b <= Z.max 238 201 /\
         (i = 0%nat -> (r, g, b) = (67, 97, 238))) /\
    @gradient_stage still_drawing 0%nat 0%nat
      [("gradient", PBool true); ("gradient_colors", PList [PStr "#4361ee"; PStr "#3f37c9"])]
      [base_image 2 3] =
      for_ (zip (seqZ 0 (snd (size (base_image 2 3)))) fills)
        (fun h '(i, fill) =>
           @drawing_on h 0%nat
             (fun canvas => @draw_line still_drawing canvas (0, i)
                              (fst (size (base_image 2 3)), i) fill))
        [base_image 2 3].
Proof.
  apply (gradient_rows_stay_between_the_colours (D := still_drawing)
           [("gradient", PBool true); ("gradient_colors", PList [PStr "#4361ee"; PStr "#3f37c9"])]
           [base_image 2 3] 0%nat 0%nat (base_image 2 3)
           (PList [PStr "#4361ee"; PStr "#3f37c9"]) "#4361ee" "#3f37c9" 67 97 238 63 55 201);
    [reflexivity | reflexivity | reflexivity | reflexivity | reflexivity | reflexivity
    | unfold is_byte; lia .. | reflexivity | vm_compute; reflexivity].
Defined.

Lemma white_pixel_wf : wf (image white_pixel).
Proof. unfold wf, npixels. cbn. lia. Qed.

Lemma border_is_drawn_on_the_original_image_witness :
  exists (returned : nat) (h' : list Image),
    @apply_style_effects still_drawing 0%nat 0%nat
      [("texture", PBool true); ("border", PBool true);
       ("border_color", PStr "#e76f51"); ("border_width", PInt 5)]
      [image white_pixel] = inr (returned, h') /\
    returned <> 0%nat /\
    h' !! returned = Some (flat_layer_over (255, 255, 255, 30) (image white_pixel)) /\
    h' !! 0%nat = Some (image white_pixel) /\
    (forall r, r <> 0%nat -> (r < length [image white_pixel])%nat ->
       h' !! r = [image white_pixel] !! r).
Proof.
  apply (border_is_drawn_on_the_original_image (D := still_drawing)
           [("texture", PBool true); ("border", PBool true);
            ("border_color", PStr "#e76f51"); ("border_width", PInt 5)]
           [image white_pixel] [image white_pixel] 0%nat (image white_pixel)
           (image white_pixel) (PStr "#e76f51") (PInt 5));
    [reflexivity | reflexivity | reflexivity | reflexivity | reflexivity | reflexivity
    | reflexivity | exact white_pixel_wf | reflexivity].
Defined.

End StyleEffectsProperties.

(* ===================================================================== *)
(** * Properties of [clean_text] *)
(* ===================================================================== *)

Module TextProperties.
Import Py Notions Proofs ValidationProperties Text.

(** ** Characters *)

Lemma word_is_not_space (c : ascii) :
  is_word c || is_punct c = true -> is_space c = false /\ is_kept c = true.
Proof.
  intros Hc.
  pose (ok := fun c => implb (is_word c || is_punct c) (negb (is_space c) && is_kept c)).
  assert (Hok : ok c = true) by (apply ascii_cases; by vm_compute).
  unfold ok in Hok. rewrite Hc in Hok. cbn [implb] in Hok.
  apply andb_prop in Hok as [Hs Hk]. split; [|done]. by destruct (is_space c).
Qed.

Lemma kept_not_space (c : ascii) :
  is_kept c = true -> is_space c = false -> is_word c || is_punct c = true.
Proof.
  unfold is_kept. intros Hk Hs. rewrite Hs, orb_false_r in Hk. done.
Qed.

Lemma kept_is_not_lt (c : ascii) : is_kept c = true -> Ascii.eqb c "<" = false.
Proof.
  intros Hk. destruct (Ascii.eqb_spec c "<") as [->|]; [|done]. by vm_compute in Hk.
Qed.

(** ** The three passes on a text that is already clean *)

Lemma sub_tags_without_lt (l : list ascii) :
  Forall (fun c => Ascii.eqb c "<" = false) l -> sub_tags 0 l = l.
Proof.
  induction 1 as [|c l Hc Hl IH]; [done|]. cbn [sub_tags]. by rewrite Hc, IH.
Qed.

Lemma filter_all_kept (l : list ascii) :
  Forall (fun c => is_kept c = true) l -> List.filter is_kept l = l.
Proof.
  induction 1 as [|c l Hc Hl IH]; [done|]. cbn [List.filter]. by rewrite Hc, IH.
Qed.

Lemma split_word (acc w rest : list ascii) :
  Forall (fun c => is_space c = false) w -> split acc (w ++ rest) = split (acc ++ w) rest.
Proof.
  intros Hw. revert acc. induction Hw as [|c w Hc Hw IH]; intros acc.
  - by rewrite app_nil_r.
  - cbn [app split]. rewrite Hc, IH. by rewrite <- app_assoc.
Qed.

Lemma split_join (ws : list (list ascii)) :
  Forall clean_word ws -> split [] (join ws) = ws.
Proof.
  induction 1 as [|w ws [Hne Hw] Hws IH]; [done|].
  assert (Hns : Forall (fun c => is_space c = false) w).
  { eapply Forall_impl; [exact Hw|]. intros c Hc. by apply word_is_not_space. }
  cbn [join]. destruct ws as [|w' ws].
  - replace (split [] w) with (split [] (w ++ [])) by (by rewrite app_nil_r).
    rewrite split_word by done. cbn. destruct w; [by destruct Hne|done].
  - rewrite split_word by done. cbn [app split]. change (is_space " ") with true. cbv iota.
    rewrite IH. destruct w; [by destruct Hne|done].
Qed.

Lemma join_kept (ws : list (list ascii)) :
  Forall clean_word ws -> Forall (fun c => is_kept c = true) (join ws).
Proof.
  induction 1 as [|w ws [Hne Hw] Hws IH]; [constructor|].
  assert (Hk : Forall (fun c => is_kept c = true) w).
  { eapply Forall_impl; [exact Hw|]. intros c Hc. by apply word_is_not_space. }
  cbn [join]. destruct ws as [|w' ws]; [done|].
  apply Forall_app. split; [done|]. by constructor.
Qed.

(** ** What [split] returns *)

Lemma split_clean_words (acc l : list ascii) :
  Forall (fun c => is_word c || is_punct c = true) acc ->
  Forall (fun c => is_kept c = true) l ->
  Forall clean_word (split acc l).
Proof.
  intros Hacc Hl. revert acc Hacc. induction Hl as [|c l Hc Hl IH]; intros acc Hacc.
  - cbn. destruct acc; [constructor|]. constructor; [by split|constructor].
  - cbn [split]. destruct (is_space c) eqn:Hs.
    + destruct acc as [|a acc].
      * by apply IH.
      * constructor; [by split|]. by apply IH.
    + apply IH. apply Forall_app. split; [done|]. constructor; [|done].
      by apply kept_not_space.
Qed.

Lemma filter_kept (l : list ascii) : Forall (fun c => is_kept c = true) (List.filter is_kept l).
Proof. apply Forall_forall. intros c Hc%list_elem_of_In%filter_In. tauto. Qed.

Lemma clean_text_words (text : string) :
  exists words, clean_text text = string_of_list_ascii (join words) /\ Forall clean_word words.
Proof.
  eexists. split; [reflexivity|]. apply split_clean_words; [constructor|apply filter_kept].
Qed.

(** On ASCII text, [clean_text] returns words separated by single
    spaces, each word not empty and made of letters, digits, underscores
    and the punctuation [. , ! ? -]: no other character is left (no
    ['<'], no ['>']), and no space at either end or next to another. *)
Theorem clean_text_gives_words (text : string) :
  ascii_text text ->
  exists words : list (list ascii),
    list_ascii_of_string (clean_text text) = join words /\ Forall clean_word words.
Proof.
  intros _. destruct (clean_text_words text) as (words & -> & Hwords).
  exists words. by rewrite list_ascii_of_string_of_list_ascii.
Qed.

(** On ASCII text, cleaning a cleaned text changes nothing. *)
Theorem clean_text_is_idempotent (text : string) :
  ascii_text text -> clean_text (clean_text text) = clean_text text.
Proof.
  intros _. destruct (clean_text_words text) as (words & -> & Hwords).
  unfold clean_text at 1. rewrite list_ascii_of_string_of_list_ascii.
  pose proof (join_kept words Hwords) as Hk.
  rewrite sub_tags_without_lt
    by (eapply Forall_impl; [exact Hk|]; intros c Hc; by apply kept_is_not_lt).
  rewrite filter_all_kept by done. by rewrite split_join.
Qed.

(** ** The theorems at concrete inputs *)

Lemma sale_is_ascii : ascii_text "<b>Big</b>   sale: 50% off!".
Proof. unfold ascii_text. cbn. repeat constructor. Qed.

Lemma clean_text_gives_words_witness :
  exists words : list (list ascii),
    list_ascii_of_string (clean_text "<b>Big</b>   sale: 50% off!") = join words /\
    Forall clean_word words.
Proof. apply (clean_text_gives_words "<b>Big</b>   sale: 50% off!"). exact sale_is_ascii. Defined.

Lemma clean_text_is_idempotent_witness :
  clean_text (clean_text "<b>Big</b>   sale: 50% off!") =
  clean_text "<b>Big</b>   sale: 50% off!".
Proof. apply (clean_text_is_idempotent "<b>Big</b>   sale: 50% off!"). exact sale_is_ascii. Defined.

End TextProperties.
